(** * claude-monitor: the sampling engine

    A shallow embedding of the Go sources

      - [internal/monitor/process.go]: process discovery, CPU estimator, naming;
      - the history ring buffer of package [monitor] ([HistoryBuffer]);
      - [internal/api/handlers.go]: [RecordHistory]

    together with the properties of the specification that concern them.

    Conventions of the embedding.
      - Go [int], [int64] and [uint64] are [Z]; every arithmetic operation of the
        source that can leave the range writes its wrap-around out.
      - Go [float64] is IEEE 754 binary64, taken from the standard library's
        executable specification [SpecFloat] (precision 53, emax 1024).
      - Go strings are byte strings ([string], one [ascii] per byte).
      - A Go map is a [gmap]; a slice is a [list].
      - A run-time panic (index or slice bound out of range) is the outcome
        [Panic] of the result type [Res]. *)

From Stdlib Require Import ZArith Lia List Ascii String Bool.
From Stdlib Require Import Floats.SpecFloat.
From stdpp Require Import base option list gmap strings fin_maps sorting pretty.

Open Scope Z_scope.

(** ** Outcomes of Go code that may panic *)

Inductive Res (A : Type) : Type :=
  | Ok (a : A)
  | Panic.
Arguments Ok {A} a.
Arguments Panic {A}.

#[global] Instance Res_ret : MRet Res := fun _ a => Ok a.
#[global] Instance Res_bind : MBind Res := fun _ _ f r =>
  match r with
  | Ok a => f a
  | Panic => Panic
  end.

(** Left-to-right loop over a slice whose body may panic. *)
Fixpoint foldRes {A B : Type} (f : B -> A -> Res B) (l : list A) (b : B) : Res B :=
  match l with
  | [] => Ok b
  | x :: l' =>
      match f b x with
      | Ok b' => foldRes f l' b'
      | Panic => Panic
      end
  end.

(** ** Machine integers *)

Definition uint64_max : Z := 2 ^ 64 - 1.
Definition int64_min : Z := - 2 ^ 63.
Definition int64_max : Z := 2 ^ 63 - 1.

(** Reduction of a mathematical integer to [uint64] and to [int64] ([int] on
    the 64-bit platforms the program targets). *)
Definition wrap_u64 (z : Z) : Z := z mod 2 ^ 64.
Definition wrap_i64 (z : Z) : Z := (z + 2 ^ 63) mod 2 ^ 64 - 2 ^ 63.

Definition u64_sub (a b : Z) : Z := wrap_u64 (a - b).
Definition u64_add (a b : Z) : Z := wrap_u64 (a + b).
Definition u64_mul (a b : Z) : Z := wrap_u64 (a * b).
Definition i64_add (a b : Z) : Z := wrap_i64 (a + b).
Definition i64_sub (a b : Z) : Z := wrap_i64 (a - b).

(** ** IEEE 754 binary64 *)

Module F64.

Definition prec : Z := 53.
Definition emax : Z := 1024.

Definition float64 : Type := spec_float.

(** Conversion [float64(n)] of an integer: round to nearest, ties to even. *)
Definition of_Z (z : Z) : float64 := binary_normalize prec emax z 0 false.

Definition div (x y : float64) : float64 := SFdiv prec emax x y.
Definition mul (x y : float64) : float64 := SFmul prec emax x y.
Definition ltb (x y : float64) : bool := SFltb x y.
Definition leb (x y : float64) : bool := SFleb x y.

(** The zero value of a [float64] field. *)
Definition zero : float64 := S754_zero false.

(** The constants of the source. *)
Definition c100 : float64 := Eval vm_compute in of_Z 100.
Definition c0_1 : float64 := Eval vm_compute in div (of_Z 1) (of_Z 10).
Definition c1Mi : float64 := Eval vm_compute in of_Z (1024 * 1024).

Definition is_nan (x : float64) : bool :=
  match x with
  | S754_nan => true
  | _ => false
  end.

(** Neither a NaN nor an infinity. *)
Definition is_finite (x : float64) : bool :=
  match x with
  | S754_zero _ | S754_finite _ _ _ => true
  | _ => false
  end.

(** Conversion [int64(x)]: truncation towards zero.  Outside the range of
    [int64] (and on NaN) Go leaves the result to the implementation; amd64
    produces the minimum [int64]. *)
Definition to_int64 (x : float64) : Z :=
  match x with
  | S754_zero _ => 0
  | S754_finite s m e =>
      let a := if 0 <=? e then Z.pos m * 2 ^ e else Z.pos m / 2 ^ (- e) in
      let v := if s then - a else a in
      if (int64_min <=? v) && (v <=? int64_max) then v else int64_min
  | _ => int64_min
  end.

End F64.

Abbreviation float64 := F64.float64.

(** ** The parts of Go's [strings], [strconv] and [path/filepath] the program uses

    Strings are sequences of bytes.  White space is what [unicode.IsSpace]
    accepts, which is what [strings.TrimSpace] and [strings.Fields] go by as
    soon as the text holds a byte outside ASCII: the six ASCII characters
    (tab, line feed, vertical tab, form feed, carriage return, space) and,
    in UTF-8, U+0085, U+00A0, U+1680, U+2000 to U+200A, U+2028, U+2029,
    U+202F, U+205F and U+3000.  A byte sequence that is not valid UTF-8
    decodes to U+FFFD, one byte at a time, and is no white space. *)

Module GoStr.

Definition byte (c : ascii) : Z := Z.of_nat (nat_of_ascii c).

(** The white space of one byte: [asciiSpace] of package [strings]. *)
Definition isSpace (c : ascii) : bool :=
  let n := nat_of_ascii c in
  ((9 <=? n)%nat && (n <=? 13)%nat) || (n =? 32)%nat.

(** The white space of two bytes: U+0085 and U+00A0. *)
Definition isSpace2 (c0 c1 : ascii) : bool :=
  (byte c0 =? 194) && ((byte c1 =? 133) || (byte c1 =? 160)).

(** The white space of three bytes: U+1680; U+2000 to U+200A, U+2028,
    U+2029 and U+202F; U+205F; U+3000. *)
Definition isSpace3 (c0 c1 c2 : ascii) : bool :=
  ((byte c0 =? 225) && (byte c1 =? 154) && (byte c2 =? 128))
  || ((byte c0 =? 226) && (byte c1 =? 128)
      && (((128 <=? byte c2) && (byte c2 <=? 138))
          || (byte c2 =? 168) || (byte c2 =? 169) || (byte c2 =? 175)))
  || ((byte c0 =? 226) && (byte c1 =? 129) && (byte c2 =? 159))
  || ((byte c0 =? 227) && (byte c1 =? 128) && (byte c2 =? 128)).

(** [strings.TrimLeftFunc(s, unicode.IsSpace)]: the text from its first rune
    that is no white space. *)
Fixpoint trimLeft (s : string) : string :=
  match s with
  | EmptyString => EmptyString
  | String c0 r0 =>
      if isSpace c0 then trimLeft r0
      else
        match r0 with
        | EmptyString => s
        | String c1 r1 =>
            if isSpace2 c0 c1 then trimLeft r1
            else
              match r1 with
              | EmptyString => s
              | String c2 r2 => if isSpace3 c0 c1 c2 then trimLeft r2 else s
              end
        end
  end.

(** [strings.TrimRightFunc(s, unicode.IsSpace)] on the reversed text: the
    runes are decoded from the end, so the last byte of a rune comes first. *)
Fixpoint trimRightRev (s : string) : string :=
  match s with
  | EmptyString => EmptyString
  | String c0 r0 =>
      if isSpace c0 then trimRightRev r0
      else
        match r0 with
        | EmptyString => s
        | String c1 r1 =>
            if isSpace2 c1 c0 then trimRightRev r1
            else
              match r1 with
              | EmptyString => s
              | String c2 r2 => if isSpace3 c2 c1 c0 then trimRightRev r2 else s
              end
        end
  end.

(** [strings.TrimSpace] *)
Definition TrimSpace (s : string) : string :=
  String.rev (trimRightRev (String.rev (trimLeft s))).

(** The field read so far, if any.  [cur] is it, reversed. *)
Definition flush (cur : string) : list string :=
  match cur with
  | EmptyString => []
  | _ => [String.rev cur]
  end.

(** [strings.Fields]: the maximal runs of bytes between white space, in
    order.  [cur] is the field being read, reversed. *)
Fixpoint fieldsFrom (cur : string) (s : string) : list string :=
  match s with
  | EmptyString => flush cur
  | String c0 r0 =>
      if isSpace c0 then flush cur ++ fieldsFrom EmptyString r0
      else
        match r0 with
        | EmptyString => fieldsFrom (String c0 cur) r0
        | String c1 r1 =>
            if isSpace2 c0 c1 then flush cur ++ fieldsFrom EmptyString r1
            else
              match r1 with
              | EmptyString => fieldsFrom (String c0 cur) r0
              | String c2 r2 =>
                  if isSpace3 c0 c1 c2 then flush cur ++ fieldsFrom EmptyString r2
                  else fieldsFrom (String c0 cur) r0
              end
        end
  end.

Definition Fields (s : string) : list string := fieldsFrom EmptyString s.

(** [strings.LastIndex(s, string(c))] for a one-byte separator: the index of
    the last occurrence of [c], or [-1]. *)
Fixpoint lastIndexFrom (c : ascii) (i : Z) (found : Z) (s : string) : Z :=
  match s with
  | EmptyString => found
  | String d r => lastIndexFrom c (i + 1) (if Ascii.eqb d c then i else found) r
  end.

Definition LastIndexByte (s : string) (c : ascii) : Z := lastIndexFrom c 0 (-1) s.

Definition len (s : string) : Z := Z.of_nat (String.length s).

(** The slice expression [s[i:]]; it panics unless [0 <= i <= len(s)]. *)
Definition sliceFrom (s : string) (i : Z) : Res string :=
  if (0 <=? i) && (i <=? len s)
  then Ok (String.substring (Z.to_nat i) (String.length s - Z.to_nat i) s)
  else Panic.

(** The index expression [l[i]] on a slice; it panics out of range. *)
Definition index {A : Type} (l : list A) (i : Z) : Res A :=
  if (0 <=? i) && (i <? Z.of_nat (length l))
  then match l !! Z.to_nat i with
       | Some x => Ok x
       | None => Panic
       end
  else Panic.

Definition digitVal (c : ascii) : option Z :=
  let n := Z.of_nat (nat_of_ascii c) in
  if (48 <=? n) && (n <=? 57) then Some (n - 48) else None.

(** The digit loop of [strconv.ParseUint(s, 10, 64)].  The result is the
    value and whether the error is non-nil: a byte that is no digit gives
    [(0, ErrSyntax)], an overflow gives [(1<<64 - 1, ErrRange)], whichever
    comes first. *)
Fixpoint parseUintLoop (n : Z) (s : string) : Z * bool :=
  match s with
  | EmptyString => (n, false)
  | String c r =>
      match digitVal c with
      | None => (0, true)
      | Some d =>
          if uint64_max / 10 + 1 <=? n then (uint64_max, true)
          else
            let n1 := n * 10 + d in
            if uint64_max <? n1 then (uint64_max, true)
            else parseUintLoop n1 r
      end
  end.

Definition ParseUint (s : string) : Z * bool :=
  match s with
  | EmptyString => (0, true)
  | _ => parseUintLoop 0 s
  end.

(** [strconv.Atoi]; [None] stands for a non-nil error.  An optional sign, then
    at least one digit and only digits, and a value in the range of [int]. *)
Definition Atoi (s : string) : option Z :=
  match s with
  | EmptyString => None
  | String c r =>
      let neg := Ascii.eqb c "-"%char in
      let body := if neg || Ascii.eqb c "+"%char then r else s in
      match ParseUint body with
      | (_, true) => None
      | (un, false) =>
          if neg then (if 2 ^ 63 <? un then None else Some (- un))
          else (if 2 ^ 63 <=? un then None else Some un)
      end
  end.

(** [strconv.Itoa] and the verb [%d] of [fmt.Sprintf]. *)
Definition Itoa (n : Z) : string := pretty n.

Definition isSlash (c : ascii) : bool := Ascii.eqb c "/"%char.

(** The part of [s] after its last slash ([s] itself when it has none). *)
Fixpoint afterLastSlash (cur : string) (s : string) : string :=
  match s with
  | EmptyString => String.rev cur
  | String c r =>
      if isSlash c then afterLastSlash EmptyString r
      else afterLastSlash (String c cur) r
  end.

Fixpoint dropSlashes (s : string) : string :=
  match s with
  | EmptyString => EmptyString
  | String c r => if isSlash c then dropSlashes r else s
  end.

(** [filepath.Base] on Unix: strip the trailing slashes, keep the last
    element; ["."] for the empty path and ["/"] for a path of slashes only. *)
Definition Base (path : string) : string :=
  match path with
  | EmptyString => "."%string
  | _ =>
      let p := String.rev (dropSlashes (String.rev path)) in
      match afterLastSlash EmptyString p with
      | EmptyString => "/"%string
      | b => b
      end
  end.

(** [filepath.Join("/proc", name, file)].  The names it is applied to are
    decimal numbers with an optional sign, which [filepath.Clean] leaves as
    they are. *)
Definition procPath (name file : string) : string :=
  ("/proc/" +:+ name +:+ "/" +:+ file)%string.

End GoStr.

(** ** Go's [time], as far as the program uses it

    An instant is a reading of the clock in nanoseconds; a [Duration] is an
    [int64] count of nanoseconds. *)

Module GoTime.

Definition Second : Z := 1000000000.
Definition Minute : Z := 60 * Second.

(** [t.Sub(u)]: the difference, saturated to the range of [Duration]. *)
Definition Sub (t u : Z) : Z := Z.max int64_min (Z.min int64_max (t - u)).

(** [d.Seconds()]: [float64(d / Second) + float64(d % Second) / 1e9]. *)
Definition Seconds (d : Z) : float64 :=
  SFadd F64.prec F64.emax
    (F64.of_Z (Z.quot d Second))
    (F64.div (F64.of_Z (Z.rem d Second)) (F64.of_Z Second)).

End GoTime.

(** ** The host: what one poll reads from the operating system

    A poll is instantaneous in the model: all its reads see one file system
    and one reading of the clocks.  A read that fails is [None]. *)

Module os.

Record DirEntry : Type := {
  Name : string;
  IsDir : bool
}.

Record Host : Type := {
  ReadDir : string -> option (list DirEntry);
  ReadFile : string -> option string;
  Readlink : string -> option string;
  Getpagesize : Z;
  (** [time.Now()], in nanoseconds, and [time.Now().Unix()] *)
  Now : Z;
  NowUnix : Z;
  (** the reading of the temperature monitor, [GetMainTemperature()] *)
  MainTemperature : float64
}.

End os.

(** Library routines taken as parameters: the value [strconv.ParseFloat(s, 64)]
    returns, and [sort.Slice], whose algorithm Go does not fix. *)
Class GoLib : Type := {
  ParseFloat : string -> float64;
  sortSlice : forall A : Type, (A -> A -> bool) -> list A -> list A
}.
Arguments sortSlice {_ A} less l.

(** What [sort.Slice] promises for a [less] that is a strict weak order: the
    result is a rearrangement of the slice in which no element is less than an
    earlier one.  It does not promise to keep equal elements in order. *)
Definition SortContract (lib : GoLib) : Prop :=
  forall (A : Type) (less : A -> A -> bool) (l : list A),
    Permutation (sortSlice less l) l /\
    ((forall a b c, less b a = false -> less c b = false -> less c a = false) ->
     (forall a b, less a b = true -> less b a = false) ->
     StronglySorted (fun a b => less b a = false) (sortSlice less l)).

(** [insertionSort] of Go's [sort] package, which [sort.Slice] runs on slices
    of at most 12 elements: each element in turn is swapped towards the front
    while it is less than its left neighbour.  [sinkLeft x front] takes the
    sorted front reversed (nearest neighbour first). *)
Fixpoint sinkLeft {A : Type} (less : A -> A -> bool) (x : A) (front : list A) : list A :=
  match front with
  | [] => [x]
  | y :: front' => if less x y then y :: sinkLeft less x front' else x :: front
  end.

Definition insertionSort {A : Type} (less : A -> A -> bool) (l : list A) : list A :=
  rev (fold_left (fun front x => sinkLeft less x front) l []).

(** A parser for the decimal numerals [digits] and [digits.digits], the form of
    the fields of [/proc/uptime]: the correctly rounded quotient of the digits
    read as an integer by the power of ten of the fraction's length.
    [strconv.ParseFloat] returns this value on such input, and 0 on input that
    is no number. *)
Fixpoint splitDot (cur : string) (s : string) : string * option string :=
  match s with
  | EmptyString => (String.rev cur, None)
  | String c r =>
      if Ascii.eqb c "."%char then (String.rev cur, Some r)
      else splitDot (String c cur) r
  end.

Fixpoint digitsValue (n : Z) (s : string) : option Z :=
  match s with
  | EmptyString => Some n
  | String c r =>
      match GoStr.digitVal c with
      | Some d => digitsValue (n * 10 + d) r
      | None => None
      end
  end.

Definition parseDecimal (s : string) : float64 :=
  let '(ip, fp) := splitDot EmptyString s in
  let fp := default EmptyString fp in
  match (ip +:+ fp)%string with
  | EmptyString => F64.zero
  | ds =>
      match digitsValue 0 ds with
      | None => F64.zero
      | Some Z0 => F64.zero
      | Some (Zpos m) =>
          SFdiv F64.prec F64.emax (S754_finite false m 0)
            (S754_finite false (Z.to_pos (10 ^ Z.of_nat (String.length fp))) 0)
      | Some (Zneg _) => F64.zero
      end
  end.

(** The library as it behaves on the small inputs of the examples. *)
Definition smallLib : GoLib := {|
  ParseFloat := parseDecimal;
  sortSlice := @insertionSort
|}.

(** ** [internal/monitor/process.go] *)

Module monitor.

Import GoStr.

(** A running Claude CLI process. *)
Record ClaudeProcess : Type := {
  PID : Z;
  Name : string;
  WorkingDir : string;
  CPUPercent : float64;
  MemoryMB : float64;
  StartTime : Z
}.

Record cpuTime : Type := {
  utime : Z;
  stime : Z
}.

(** The estimator state (the mutex is left out: polls are sequential). *)
Record ProcessMonitor : Type := {
  prevCPUTimes : gmap Z cpuTime;
  prevSample : Z;
  clkTck : float64
}.

Definition NewProcessMonitor (now : Z) : ProcessMonitor := {|
  prevCPUTimes := ∅;
  prevSample := now;
  clkTck := F64.c100
|}.

(** The error [GetProcesses] returns. *)
Inductive error : Type :=
  | failedToReadProc.

Definition isClaude (h : os.Host) (pid : Z) : bool :=
  match os.ReadFile h (procPath (Itoa pid) "comm") with
  | None => false
  | Some data => String.eqb (TrimSpace data) "claude"
  end.

Definition getMemoryMB (h : os.Host) (pid : Z) : Res float64 :=
  match os.ReadFile h (procPath (Itoa pid) "statm") with
  | None => Ok F64.zero
  | Some data =>
      let fields := Fields data in
      if Z.of_nat (length fields) <? 2 then Ok F64.zero
      else
        f1 ← index fields 1;
        match ParseUint f1 with
        | (_, true) => Ok F64.zero
        | (rss, false) =>
            let pageSize := wrap_u64 (os.Getpagesize h) in
            Ok (F64.div (F64.of_Z (u64_mul rss pageSize)) F64.c1Mi)
        end
  end.

Definition getCPUTime (h : os.Host) (pid : Z) : Res cpuTime :=
  match os.ReadFile h (procPath (Itoa pid) "stat") with
  | None => Ok {| utime := 0; stime := 0 |}
  | Some content =>
      let idx := LastIndexByte content ")"%char in
      if (idx =? -1) || (len content <=? idx + 2)
      then Ok {| utime := 0; stime := 0 |}
      else
        rest ← sliceFrom content (idx + 2);
        let fields := Fields rest in
        if Z.of_nat (length fields) <? 12
        then Ok {| utime := 0; stime := 0 |}
        else
          f11 ← index fields 11;
          f12 ← index fields 12;
          Ok {| utime := fst (ParseUint f11); stime := fst (ParseUint f12) |}
  end.

Definition getStartTime `{GoLib} (h : os.Host) (pid : Z) : Res Z :=
  match os.ReadFile h (procPath (Itoa pid) "stat") with
  | None => Ok 0
  | Some content =>
      let idx := LastIndexByte content ")"%char in
      if (idx =? -1) || (len content <=? idx + 2) then Ok 0
      else
        rest ← sliceFrom content (idx + 2);
        let fields := Fields rest in
        if Z.of_nat (length fields) <? 20 then Ok 0
        else
          f19 ← index fields 19;
          let starttime := fst (ParseUint f19) in
          match os.ReadFile h "/proc/uptime" with
          | None => Ok 0
          | Some uptimeData =>
              let uptimeFields := Fields uptimeData in
              if Z.of_nat (length uptimeFields) <? 1 then Ok 0
              else
                u0 ← index uptimeFields 0;
                let uptime := ParseFloat u0 in
                let now := os.NowUnix h in
                let bootTime := i64_sub now (F64.to_int64 uptime) in
                let startSeconds := F64.div (F64.of_Z starttime) F64.c100 in
                Ok (i64_add bootTime (F64.to_int64 startSeconds))
          end
  end.

Definition getOrdinalSuffix (n : Z) : string :=
  if n =? 2 then "2nd"
  else if n =? 3 then "3rd"
  else Itoa n +:+ "th".

(** An element of [rawProcesses]. *)
Record rawProcess : Type := {
  proc : ClaudeProcess;
  cpu : cpuTime
}.

(** The body of the first loop: one entry of [/proc]. *)
Definition collect `{GoLib} (h : os.Host)
    (acc : list rawProcess * gmap Z cpuTime) (entry : os.DirEntry)
    : Res (list rawProcess * gmap Z cpuTime) :=
  let '(rawProcesses, currentCPUTimes) := acc in
  if negb (os.IsDir entry) then Ok acc
  else
    match Atoi (os.Name entry) with
    | None => Ok acc
    | Some pid =>
        if negb (isClaude h pid) then Ok acc
        else
          let '(workingDir, name) :=
            match os.Readlink h (procPath (os.Name entry) "cwd") with
            | Some cwd => (cwd, Base cwd)
            | None => (EmptyString, "claude"%string)
            end in
          memoryMB ← getMemoryMB h pid;
          ct ← getCPUTime h pid;
          startTime ← getStartTime h pid;
          let p := {| PID := pid; Name := name; WorkingDir := workingDir;
                      CPUPercent := F64.zero; MemoryMB := memoryMB;
                      StartTime := startTime |} in
          Ok (rawProcesses ++ [{| proc := p; cpu := ct |}],
              <[pid := ct]> currentCPUTimes)
    end.

(** The comparison handed to [sort.Slice]. *)
Definition lessStartTime (a b : rawProcess) : bool :=
  StartTime (proc a) <? StartTime (proc b).

(** The CPU percentage of a process seen before, from its two counter pairs. *)
Definition tickPercent (clk elapsed : float64) (prev ct : cpuTime) : float64 :=
  let totalDelta :=
    F64.of_Z (u64_add (u64_sub (utime ct) (utime prev))
                      (u64_sub (stime ct) (stime prev))) in
  F64.mul (F64.div (F64.div totalDelta clk) elapsed) F64.c100.

Definition clampPercent (p : float64) : float64 :=
  let p := if F64.ltb p F64.zero then F64.zero else p in
  if F64.ltb F64.c100 p then F64.c100 else p.

Definition cpuPercent (clk elapsed : float64) (prev ct : cpuTime) : float64 :=
  clampPercent (tickPercent clk elapsed prev ct).

(** The floor of the sample interval. *)
Definition floorElapsed (elapsed : float64) : float64 :=
  if F64.ltb elapsed F64.c0_1 then F64.c0_1 else elapsed.

Definition withSuffix (baseName : string) (n : Z) : string :=
  (baseName +:+ " (" +:+ getOrdinalSuffix n +:+ ")")%string.

(** The body of the second loop: CPU percentage and name of one process. *)
Definition assign (pm : ProcessMonitor) (elapsed : float64)
    (acc : list ClaudeProcess * gmap string Z) (rp : rawProcess)
    : list ClaudeProcess * gmap string Z :=
  let '(processes, nameCount) := acc in
  let p := proc rp in
  let ct := cpu rp in
  let percent :=
    match prevCPUTimes pm !! PID p with
    | Some prev => cpuPercent (clkTck pm) elapsed prev ct
    | None => CPUPercent p
    end in
  let baseName := Name p in
  let n := i64_add (default 0 (nameCount !! baseName)) 1 in
  let nameCount := <[baseName := n]> nameCount in
  let name := if 1 <? n then withSuffix baseName n else baseName in
  (processes ++ [{| PID := PID p; Name := name; WorkingDir := WorkingDir p;
                    CPUPercent := percent; MemoryMB := MemoryMB p;
                    StartTime := StartTime p |}],
   nameCount).

(** The clean-up loop.  It runs after [pm.prevCPUTimes = currentCPUTimes], so
    the map it ranges over and deletes from is the map it tests membership
    in: one map [m] under two names. *)
Definition cleanUp (m : gmap Z cpuTime) : gmap Z cpuTime :=
  fold_left
    (fun m pid => match m !! pid with
                  | Some _ => m
                  | None => delete pid m
                  end)
    (elements (dom m)) m.

(** [GetProcesses]: the new state of the monitor and the pair the call
    returns, or a panic. *)
Definition GetProcesses `{GoLib} (h : os.Host) (pm : ProcessMonitor)
    : Res (ProcessMonitor * (list ClaudeProcess + error)) :=
  match os.ReadDir h "/proc" with
  | None => Ok (pm, inr failedToReadProc)
  | Some entries =>
      let now := os.Now h in
      let elapsed := floorElapsed (GoTime.Seconds (GoTime.Sub now (prevSample pm))) in
      '(rawProcesses, currentCPUTimes) ← foldRes (collect h) entries ([], ∅);
      let sorted := sortSlice lessStartTime rawProcesses in
      let '(processes, _) := fold_left (assign pm elapsed) sorted ([], ∅) in
      Ok ({| prevCPUTimes := cleanUp currentCPUTimes;
             prevSample := now;
             clkTck := clkTck pm |},
          inl processes)
  end.

End monitor.

(** ** The history ring buffer of package [monitor] *)

Module histbuf.

Definition HistoryDuration : Z := 30 * GoTime.Minute.
Definition SampleInterval : Z := 5 * GoTime.Second.

(** The capacity of the buffer: 360 samples. *)
Definition MaxSamples : Z := Eval vm_compute in Z.quot HistoryDuration SampleInterval.

Record ProcessSnapshot : Type := {
  PID : Z;
  Name : string;
  CPUPercent : float64;
  MemoryMB : float64
}.

Record HistoryPoint : Type := {
  Timestamp : Z;
  Temperature : float64;
  Processes : list ProcessSnapshot
}.

(** The ring buffer (the lock is left out). *)
Record HistoryBuffer : Type := {
  data : list HistoryPoint;
  head : Z;
  count : Z
}.

(** The zero value of a [HistoryPoint]. *)
Definition zeroPoint : HistoryPoint := {|
  Timestamp := 0;
  Temperature := F64.zero;
  Processes := []
|}.

(** Slice primitives.  The slices of the program have their capacity equal
    to their length. *)
Definition len {A : Type} (l : list A) : Z := Z.of_nat (length l).

(** [make([]HistoryPoint, n)] *)
Definition make (n : Z) : Res (list HistoryPoint) :=
  if 0 <=? n then Ok (replicate (Z.to_nat n) zeroPoint) else Panic.

(** [l[i:]] *)
Definition from {A : Type} (l : list A) (i : Z) : Res (list A) :=
  if (0 <=? i) && (i <=? len l) then Ok (drop (Z.to_nat i) l) else Panic.

(** [l[:j]] *)
Definition upto {A : Type} (l : list A) (j : Z) : Res (list A) :=
  if (0 <=? j) && (j <=? len l) then Ok (take (Z.to_nat j) l) else Panic.

(** [copy(dst, src)]: the contents of [dst] afterwards. *)
Definition copy {A : Type} (dst src : list A) : list A :=
  take (length dst) src ++ drop (length src) dst.

(** [l[i] = x] *)
Definition store {A : Type} (l : list A) (i : Z) (x : A) : Res (list A) :=
  if (0 <=? i) && (i <? len l) then Ok (<[Z.to_nat i := x]> l) else Panic.

Definition NewHistoryBuffer : HistoryBuffer := {|
  data := replicate (Z.to_nat MaxSamples) zeroPoint;
  head := 0;
  count := 0
|}.

Definition Add (hb : HistoryBuffer) (point : HistoryPoint) : Res HistoryBuffer :=
  data' ← store (data hb) (head hb) point;
  Ok {| data := data';
        head := Z.rem (i64_add (head hb) 1) MaxSamples;
        count := if count hb <? MaxSamples then i64_add (count hb) 1 else count hb |}.

Definition GetAll (hb : HistoryBuffer) : Res (list HistoryPoint) :=
  if count hb =? 0 then Ok []
  else
    result ← make (count hb);
    if count hb <? MaxSamples then
      stored ← upto (data hb) (count hb);
      Ok (copy result stored)
    else
      firstPart ← from (data hb) (head hb);
      secondPart ← upto (data hb) (head hb);
      let result := copy result firstPart in
      rest ← from result (len firstPart);
      Ok (take (length firstPart) result ++ copy rest secondPart).

Definition GetLast (hb : HistoryBuffer) (n : Z) : Res (list HistoryPoint) :=
  all ← GetAll hb;
  if len all <=? n then Ok all
  else from all (i64_sub (len all) n).

Definition Clear (hb : HistoryBuffer) : HistoryBuffer := {|
  data := data hb;
  head := 0;
  count := 0
|}.

Definition Count (hb : HistoryBuffer) : Z := count hb.

(** Adding the samples of a list one after the other. *)
Definition AddAll (hb : HistoryBuffer) (points : list HistoryPoint) : Res HistoryBuffer :=
  foldRes Add points hb.

End histbuf.

(** ** [internal/api/handlers.go]: recording a sample *)

Module api.

(** The parts of the handler [RecordHistory] works on. *)
Record Handler : Type := {
  processMonitor : monitor.ProcessMonitor;
  history : histbuf.HistoryBuffer
}.

Definition snapshot (p : monitor.ClaudeProcess) : histbuf.ProcessSnapshot := {|
  histbuf.PID := monitor.PID p;
  histbuf.Name := monitor.Name p;
  histbuf.CPUPercent := monitor.CPUPercent p;
  histbuf.MemoryMB := monitor.MemoryMB p
|}.

Definition RecordHistory `{GoLib} (host : os.Host) (h : Handler) : Res Handler :=
  '(pm, r) ← monitor.GetProcesses host (processMonitor h);
  match r with
  | inr _ => Ok {| processMonitor := pm; history := history h |}
  | inl processes =>
      let snapshots := map snapshot processes in
      let point := {| histbuf.Timestamp := os.NowUnix host;
                      histbuf.Temperature := os.MainTemperature host;
                      histbuf.Processes := snapshots |} in
      hb ← histbuf.Add (history h) point;
      Ok {| processMonitor := pm; history := hb |}
  end.

End api.

(** ** Hosts for the examples *)

Module Examples.

Fixpoint lookupPath (files : list (string * string)) (path : string) : option string :=
  match files with
  | [] => None
  | (p, content) :: files' =>
      if String.eqb p path then Some content else lookupPath files' path
  end.

Definition dir (name : string) : os.DirEntry := {| os.Name := name; os.IsDir := true |}.

(** A host whose [/proc] lists [entries], with the given files and links,
    4096-byte pages, and the clocks at [now] nanoseconds; the instant 0 is
    1700000000 seconds after the Unix epoch. *)
Definition host (entries : list os.DirEntry) (files links : list (string * string))
    (now : Z) : os.Host := {|
  os.ReadDir := fun path => if String.eqb path "/proc" then Some entries else None;
  os.ReadFile := lookupPath files;
  os.Readlink := lookupPath links;
  os.Getpagesize := 4096;
  os.Now := now;
  os.NowUnix := 1700000000 + Z.quot now GoTime.Second;
  os.MainTemperature := F64.zero
|}.

(** A host on which [/proc] cannot be listed. *)
Definition unreadable : os.Host := {|
  os.ReadDir := fun _ => None;
  os.ReadFile := fun _ => None;
  os.Readlink := fun _ => None;
  os.Getpagesize := 4096;
  os.Now := 0;
  os.NowUnix := 0;
  os.MainTemperature := F64.zero
|}.

(** The text of [/proc/<pid>/stat] of a process named claude with the given
    [utime], [stime] and [starttime] (fields 14, 15 and 22 of the record). *)
Definition statLine (pid utime stime starttime : Z) : string :=
  (GoStr.Itoa pid +:+ " (claude) S 1 1 1 0 -1 4194304 100 0 0 0 "
     +:+ GoStr.Itoa utime +:+ " " +:+ GoStr.Itoa stime
     +:+ " 0 0 20 0 1 0 " +:+ GoStr.Itoa starttime +:+ " 1000000 256 18446744073709551615")%string.

(** The files of one claude process. *)
Definition claudeFiles (pid utime stime starttime : Z) : list (string * string) :=
  [ (GoStr.procPath (GoStr.Itoa pid) "comm", "claude" +:+ String "010"%char EmptyString);
    (GoStr.procPath (GoStr.Itoa pid) "statm", "5000 2560 300 1 0 400 0"%string);
    (GoStr.procPath (GoStr.Itoa pid) "stat", statLine pid utime stime starttime) ].

Definition uptimeFile : string * string := ("/proc/uptime"%string, "1000.50 3500.25"%string).

Definition cwdLink (pid : Z) (cwd : string) : string * string :=
  (GoStr.procPath (GoStr.Itoa pid) "cwd", cwd).

(** Five seconds after the monitor was created at instant 0. *)
Definition after5s : Z := 5 * GoTime.Second.

(** One process, pid 10, in [/home/user/demo], with 1150 ticks in total. *)
Definition demoHost : os.Host :=
  host [dir "10"] (uptimeFile :: claudeFiles 10 900 250 5000) [cwdLink 10 "/home/user/demo"]
    after5s.

(** A monitor that saw pid 10 with 1000 ticks in total at instant 0. *)
Definition demoMonitor : monitor.ProcessMonitor := {|
  monitor.prevCPUTimes := {[ 10 := {| monitor.utime := 800; monitor.stime := 200 |} ]};
  monitor.prevSample := 0;
  monitor.clkTck := F64.c100
|}.

End Examples.

(** The invariant of [insertionSort]: the front, read from the current
    position leftwards, never meets an element that a later one is less
    than. *)
Definition frontSorted {A : Type} (less : A -> A -> bool) (front : list A) : Prop :=
  StronglySorted (fun a b => less a b = false) front.

(** A float of the format [prec], [emax] that is zero or finite, of magnitude
    at most [2^B]. *)
Definition within (prec emax B : Z) (x : spec_float) : Prop :=
  match x with
  | S754_zero _ => True
  | S754_finite _ m e => Zdigits2 (Z.pos m) + e <= B /\ e <= emax - prec
  | _ => False
  end.

(** ** Vocabulary of the properties *)

Module Props.

Import monitor.

(** A poll of the host observes [pid]: [/proc] lists a directory whose name
    is the number [pid], and the identity check on [pid] succeeds. *)
Definition observed (h : os.Host) (entries : list os.DirEntry) (pid : Z) : Prop :=
  exists entry,
    entry ∈ entries /\ os.IsDir entry = true /\
    GoStr.Atoi (os.Name entry) = Some pid /\ isClaude h pid = true.

(** The base display name and the working directory of the process behind
    a directory entry: the last element of the target of its [cwd] link, or
    the fallback name when the link cannot be read. *)
Definition nameAndDir (h : os.Host) (entry : os.DirEntry) : string * string :=
  match os.Readlink h (GoStr.procPath (os.Name entry) "cwd") with
  | Some cwd => (GoStr.Base cwd, cwd)
  | None => ("claude"%string, EmptyString)
  end.

(** [rp] is the raw record the first loop builds from [entry]. *)
Definition rawOf (h : os.Host) (entry : os.DirEntry) (rp : rawProcess) : Prop :=
  os.IsDir entry = true /\
  GoStr.Atoi (os.Name entry) = Some (PID (proc rp)) /\
  isClaude h (PID (proc rp)) = true /\
  (Name (proc rp), WorkingDir (proc rp)) = nameAndDir h entry /\
  CPUPercent (proc rp) = F64.zero /\
  getCPUTime h (PID (proc rp)) = Ok (cpu rp).

Definition candidate (h : os.Host) (entries : list os.DirEntry) (rp : rawProcess) : Prop :=
  exists entry, entry ∈ entries /\ rawOf h entry rp.

Definition pids (raw : list rawProcess) : list Z := map (fun rp => PID (proc rp)) raw.

Definition baseNames (raw : list rawProcess) : list string :=
  map (fun rp => Name (proc rp)) raw.

(** How often [b] occurs in [names]. *)
Definition occurrences (b : string) (names : list string) : Z :=
  Z.of_nat (length (filter (fun x => x = b) names)).

(** What the first loop has established after the entries [entries]. *)
Definition collected (h : os.Host) (entries : list os.DirEntry)
    (raw : list rawProcess) (current : gmap Z cpuTime) : Prop :=
  Forall (candidate h entries) raw /\
  (forall pid, pid ∈ pids raw <-> observed h entries pid) /\
  (forall pid, is_Some (current !! pid) <-> pid ∈ pids raw) /\
  (forall pid ct, current !! pid = Some ct -> getCPUTime h pid = Ok ct).

(** [p] is what the second loop makes of the raw record [rp], its name
    apart: the CPU percentage is estimated against the pair the monitor holds
    for the process, if it holds one. *)
Definition estimated (pm : ProcessMonitor) (elapsed : float64)
    (rp : rawProcess) (p : ClaudeProcess) : Prop :=
  PID p = PID (proc rp) /\
  WorkingDir p = WorkingDir (proc rp) /\
  MemoryMB p = MemoryMB (proc rp) /\
  StartTime p = StartTime (proc rp) /\
  CPUPercent p =
    (match prevCPUTimes pm !! PID (proc rp) with
     | Some prev => cpuPercent (clkTck pm) elapsed prev (cpu rp)
     | None => CPUPercent (proc rp)
     end).

(** The name shown for the [n]th process of base name [b]. *)
Definition shown (b : string) (n : Z) : string :=
  if 1 <? n then withSuffix b n else b.

(** The interval [GetProcesses] divides by at a poll of [h]. *)
Definition interval (h : os.Host) (pm : ProcessMonitor) : float64 :=
  floorElapsed (GoTime.Seconds (GoTime.Sub (os.Now h) (prevSample pm))).

(** The tie-break by process id: of two returned processes with equal start
    times, the one with the smaller id comes first. *)
Definition tiesByPid (lib : GoLib) : Prop :=
  forall h pm pm' procs i j p q,
    GetProcesses h pm = Ok (pm', inl procs) ->
    procs !! i = Some p -> procs !! j = Some q ->
    StartTime p = StartTime q -> PID p < PID q -> (i < j)%nat.

End Props.

(** ** Vocabulary of the ring buffer properties *)

Module Ring.

Import histbuf.

(** The invariant of the buffer: the storage has the capacity, the cursor
    is inside it, and until the buffer is full the cursor is the number of
    samples held.  [NewHistoryBuffer] establishes it; [Add] and [Clear]
    keep it. *)
Definition wf (hb : HistoryBuffer) : Prop :=
  len (data hb) = MaxSamples /\
  0 <= head hb < MaxSamples /\
  0 <= count hb <= MaxSamples /\
  (count hb < MaxSamples -> head hb = count hb).

(** The samples held, oldest first: the stored prefix, or once the buffer is
    full the storage from the cursor to its end followed by the storage
    before the cursor. *)
Definition contents (hb : HistoryBuffer) : list HistoryPoint :=
  if count hb <? MaxSamples then take (Z.to_nat (count hb)) (data hb)
  else drop (Z.to_nat (head hb)) (data hb) ++ take (Z.to_nat (head hb)) (data hb).

(** The last [MaxSamples] elements of a list (all of a shorter one). *)
Definition newest {A : Type} (l : list A) : list A :=
  drop (length l - Z.to_nat MaxSamples) l.

(** The last [n] elements of a list. *)
Definition lastN {A : Type} (n : Z) (l : list A) : list A :=
  drop (length l - Z.to_nat n) l.

(** What is said of [GetLast] for every [n]: above the occupancy it returns
    the samples held, and at most the occupancy it returns the last [n]
    samples of [GetAll]. *)
Definition tailForEveryCount : Prop :=
  forall hb n,
    wf hb ->
    (count hb < n ->
     exists all, GetAll hb = Ok all /\ GetLast hb n = Ok all /\ len all = count hb) /\
    (n <= count hb ->
     exists all, GetAll hb = Ok all /\ GetLast hb n = Ok (lastN n all)).

End Ring.

(** ** Polls for the examples *)

Module Polls.

Import Examples monitor.

(** The examples run with [smallLib]. *)
#[export] Existing Instance smallLib.

Definition fiveSeconds : float64 := Eval vm_compute in GoTime.Seconds after5s.

(** What the poll of [demoHost] by [demoMonitor] returns and leaves. *)
Definition demoProcess : ClaudeProcess := {|
  PID := 10;
  Name := "demo";
  WorkingDir := "/home/user/demo";
  CPUPercent := F64.of_Z 30;
  MemoryMB := F64.of_Z 10;
  StartTime := 1699999055
|}.

Definition demoMonitor' : ProcessMonitor := {|
  prevCPUTimes := {[ 10 := {| utime := 900; stime := 250 |} ]};
  prevSample := after5s;
  clkTck := F64.c100
|}.

(** The same process, its counters gone down to 900 ticks in total. *)
Definition regressedHost : os.Host :=
  host [dir "10"] (uptimeFile :: claudeFiles 10 700 200 5000) [cwdLink 10 "/home/user/demo"]
    after5s.

(** A monitor that also holds a pair for pid 7, which has exited since. *)
Definition staleMonitor : ProcessMonitor := {|
  prevCPUTimes := {[ 10 := {| utime := 800; stime := 200 |};
                     7 := {| utime := 40; stime := 2 |} ]};
  prevSample := 0;
  clkTck := F64.c100
|}.

(** Two processes started in the same second; [os.ReadDir] lists the
    entries sorted by name, so ["10"] comes before ["9"]. *)
Definition tieHost : os.Host :=
  host [dir "10"; dir "9"]
    (uptimeFile :: claudeFiles 10 10 5 5000 ++ claudeFiles 9 20 5 5000)
    [cwdLink 10 "/srv/a"; cwdLink 9 "/srv/b"] after5s.

(** Three processes: pid 30 in [/a/proj] started first, pid 20 in [/b/proj]
    second, pid 10 in [/c/other] last. *)
Definition projHost : os.Host :=
  host [dir "10"; dir "20"; dir "30"]
    (uptimeFile :: claudeFiles 30 0 0 5000 ++ claudeFiles 20 0 0 6000
       ++ claudeFiles 10 0 0 7000)
    [cwdLink 30 "/a/proj"; cwdLink 20 "/b/proj"; cwdLink 10 "/c/other"] after5s.

(** Four processes whose working directories all end in [proj], and a fifth
    one elsewhere; pid 15 is the last of the [proj] processes to start. *)
Definition fourProjHost : os.Host :=
  host [dir "10"; dir "15"; dir "20"; dir "30"; dir "40"]
    (uptimeFile :: claudeFiles 30 0 0 5000 ++ claudeFiles 20 0 0 6000
       ++ claudeFiles 10 0 0 7000 ++ claudeFiles 40 0 0 8000
       ++ claudeFiles 15 0 0 9000)
    [cwdLink 30 "/a/proj"; cwdLink 20 "/b/proj"; cwdLink 10 "/c/other";
     cwdLink 40 "/d/proj"; cwdLink 15 "/e/proj"] after5s.

(** A process whose [stat] record stops after the [utime] field: twelve
    fields follow the command name. *)
Definition truncatedStat : string := "10 (claude) S 1 1 1 0 -1 4194304 100 0 0 0 1150".

Definition truncatedHost : os.Host :=
  host [dir "10"]
    [ uptimeFile;
      (GoStr.procPath "10" "comm", "claude" +:+ String "010"%char EmptyString);
      (GoStr.procPath "10" "statm", "5000 2560 300 1 0 400 0"%string);
      (GoStr.procPath "10" "stat", truncatedStat) ]
    [cwdLink 10 "/home/user/demo"] after5s.

(** Samples told apart by their time stamps. *)
Definition sample (t : Z) : histbuf.HistoryPoint := {|
  histbuf.Timestamp := t;
  histbuf.Temperature := F64.zero;
  histbuf.Processes := []
|}.

Definition samples (from n : Z) : list histbuf.HistoryPoint := map sample (seqZ from n).

Definition freshHandler : api.Handler := {|
  api.processMonitor := NewProcessMonitor 0;
  api.history := histbuf.NewHistoryBuffer
|}.

End Polls.

(** ** More of Go's [strings] and of its regular expressions *)

Module GoText.

(** [strings.Contains]: [substr] occurs in [s]. *)
Fixpoint Contains (s substr : string) : bool :=
  String.prefix substr s ||
  match s with
  | EmptyString => false
  | String _ r => Contains r substr
  end.

(** [strings.Split(s, sep)] for a one-byte separator: the pieces between the
    separators, the empty ones too.  [cur] is the piece being read, reversed. *)
Fixpoint splitFrom (sep : ascii) (cur : string) (s : string) : list string :=
  match s with
  | EmptyString => [String.rev cur]
  | String c r =>
      if Ascii.eqb c sep then String.rev cur :: splitFrom sep EmptyString r
      else splitFrom sep (String c cur) r
  end.

Definition Split (s : string) (sep : ascii) : list string := splitFrom sep EmptyString s.

(** The classes [\s] and [\d] of Go's regular expressions: tab, line feed,
    form feed, carriage return and space; the ten digits. *)
Definition reSpace (c : ascii) : bool :=
  let n := nat_of_ascii c in
  (n =? 9)%nat || (n =? 10)%nat || (n =? 12)%nat || (n =? 13)%nat || (n =? 32)%nat.

Definition reDigit (c : ascii) : bool :=
  let n := nat_of_ascii c in
  (48 <=? n)%nat && (n <=? 57)%nat.

(** The class [[\d.]]. *)
Definition reNumeral (c : ascii) : bool := reDigit c || Ascii.eqb c "."%char.

Fixpoint dropWhile (p : ascii -> bool) (s : string) : string :=
  match s with
  | EmptyString => EmptyString
  | String c r => if p c then dropWhile p r else s
  end.

(** A run [p+] at the front of [s]: what follows the longest run, when the
    run is not empty. *)
Definition run1 (p : ascii -> bool) (s : string) : option string :=
  match s with
  | EmptyString => None
  | String c r => if p c then Some (dropWhile p r) else None
  end.

(** A literal at the front of [s]: what follows it. *)
Fixpoint literal (lit s : string) : option string :=
  match lit with
  | EmptyString => Some s
  | String c lit' =>
      match s with
      | EmptyString => None
      | String d s' => if Ascii.eqb c d then literal lit' s' else None
      end
  end.

Fixpoint allOf (p : ascii -> bool) (s : string) : bool :=
  match s with
  | EmptyString => true
  | String c r => p c && allOf p r
  end.

(** The submatch of [^([^:]+):$] in [line]: the line without its final
    colon, when it has one, only one, and something before it.  [cur] is the
    part read, reversed. *)
Fixpoint labelFrom (cur : string) (line : string) : option string :=
  match line with
  | EmptyString => None
  | String c r =>
      if Ascii.eqb c ":"%char then
        match r, cur with
        | EmptyString, String _ _ => Some (String.rev cur)
        | _, _ => None
        end
      else labelFrom (String c cur) r
  end.

Definition matchLabel (line : string) : option string := labelFrom EmptyString line.

(** The submatch of [^\s+temp\d+_<key>:\s+([\d.]+)$] in [line].  Each run is
    followed by a byte outside its class, so the longest run is the only one
    that can match. *)
Definition matchTemp (key : string) (line : string) : option string :=
  s1 ← run1 reSpace line;
  s2 ← literal "temp" s1;
  s3 ← run1 reDigit s2;
  s4 ← literal ("_" +:+ key +:+ ":") s3;
  s5 ← run1 reSpace s4;
  match s5 with
  | EmptyString => None
  | _ => if allOf reNumeral s5 then Some s5 else None
  end.

End GoText.

(** Further library routines taken as parameters: whether
    [strconv.ParseFloat(s, 64)] returns an error, [filepath.Dir], and
    [filepath.Join] of two elements. *)
Class GoPathLib : Type := {
  ParseFloatFails : string -> bool;
  Dir : string -> string;
  Join : string -> string -> string
}.

(** ** [internal/monitor/temperature.go] *)

Module temperature.

Import GoText.

(** A temperature reading. *)
Record Temperature : Type := {
  Label : string;
  Current : float64;
  High : float64;
  Crit : float64
}.

(** The zero value [Temperature{}]. *)
Definition noTemperature : Temperature := {|
  Label := EmptyString;
  Current := F64.zero;
  High := F64.zero;
  Crit := F64.zero
|}.

Definition c150 : float64 := Eval vm_compute in F64.of_Z 150.
Definition c1000 : float64 := Eval vm_compute in F64.of_Z 1000.

(** What the monitor reads: the output of [sensors -u] ([None] when the
    command fails), the paths [filepath.Glob] finds for the thermal zones
    ([None] on its error), and [os.ReadFile], which returns the bytes read
    and whether the error is non-nil. *)
Record Sources : Type := {
  sensorsOutput : option string;
  thermalZones : option (list string);
  ReadFile : string -> string * bool
}.

(** The variables of the loop of [parseSensorsOutput]. *)
Record parser : Type := {
  temps : list Temperature;
  currentLabel : string;
  currentTemp : Temperature
}.

(** Save the reading in hand if it is valid. *)
Definition save (st : parser) : list Temperature :=
  if negb (String.eqb (currentLabel st) EmptyString) && F64.ltb F64.zero (Current (currentTemp st))
  then temps st ++ [{| Label := currentLabel st;
                       Current := Current (currentTemp st);
                       High := High (currentTemp st);
                       Crit := Crit (currentTemp st) |}]
  else temps st.

(** The body of the loop: one line of the output. *)
Definition parseLine `{GoLib} (st : parser) (line : string) : parser :=
  match matchLabel line with
  | Some label =>
      {| temps := save st; currentLabel := label; currentTemp := noTemperature |}
  | None =>
      match matchTemp "input" line with
      | Some m =>
          let val := ParseFloat m in
          if F64.ltb F64.zero val && F64.ltb val c150
          then {| temps := temps st; currentLabel := currentLabel st;
                  currentTemp := {| Label := Label (currentTemp st); Current := val;
                                    High := High (currentTemp st);
                                    Crit := Crit (currentTemp st) |} |}
          else st
      | None =>
          match matchTemp "max" line with
          | Some m =>
              {| temps := temps st; currentLabel := currentLabel st;
                 currentTemp := {| Label := Label (currentTemp st);
                                   Current := Current (currentTemp st);
                                   High := ParseFloat m;
                                   Crit := Crit (currentTemp st) |} |}
          | None =>
              match matchTemp "crit" line with
              | Some m =>
                  {| temps := temps st; currentLabel := currentLabel st;
                     currentTemp := {| Label := Label (currentTemp st);
                                       Current := Current (currentTemp st);
                                       High := High (currentTemp st);
                                       Crit := ParseFloat m |} |}
              | None => st
              end
          end
      end
  end.

Definition parseSensorsOutput `{GoLib} (output : string) : list Temperature :=
  let lines := Split output "010"%char in
  save (fold_left parseLine lines
          {| temps := []; currentLabel := EmptyString; currentTemp := noTemperature |}).

Definition getSensorsTemperatures `{GoLib} (src : Sources) : list Temperature :=
  match sensorsOutput src with
  | None => []
  | Some output => parseSensorsOutput output
  end.

(** The body of the loop of [getSysfsTemperatures]: one thermal zone. *)
Definition readZone `{GoLib} `{GoPathLib} (src : Sources)
    (temps : list Temperature) (zonePath : string) : list Temperature :=
  match ReadFile src zonePath with
  | (_, true) => temps
  | (data, false) =>
      let text := GoStr.TrimSpace data in
      if ParseFloatFails text then temps
      else
        let tempVal := F64.div (ParseFloat text) c1000 in
        let zoneDir := Dir zonePath in
        let typeData := fst (ReadFile src (Join zoneDir "type")) in
        let label := GoStr.TrimSpace typeData in
        let label := if String.eqb label EmptyString then GoStr.Base zoneDir else label in
        temps ++ [{| Label := label; Current := tempVal;
                     High := F64.zero; Crit := F64.zero |}]
  end.

Definition getSysfsTemperatures `{GoLib} `{GoPathLib} (src : Sources) : list Temperature :=
  match thermalZones src with
  | None => []
  | Some zones => fold_left (readZone src) zones []
  end.

Definition GetTemperatures `{GoLib} `{GoPathLib} (src : Sources) : list Temperature :=
  let temps := getSensorsTemperatures src in
  if (0 <? Z.of_nat (length temps)) then temps else getSysfsTemperatures src.

(** The order in which labels are looked for. *)
Definition priorities : list string :=
  ["Tctl"; "Tdie"; "Package"; "Core 0"; "CPU"; "temp1"]%string.

(** The inner loop: the first reading whose label contains [prio]. *)
Fixpoint firstLabelled (prio : string) (temps : list Temperature) : option float64 :=
  match temps with
  | [] => None
  | t :: temps' =>
      if Contains (Label t) prio then Some (Current t) else firstLabelled prio temps'
  end.

(** The outer loop, over the priorities. *)
Fixpoint firstByPriority (prios : list string) (temps : list Temperature) : option float64 :=
  match prios with
  | [] => None
  | prio :: prios' =>
      match firstLabelled prio temps with
      | Some c => Some c
      | None => firstByPriority prios' temps
      end
  end.

(** [GetMainTemperature], on the readings [GetTemperatures] returned. *)
Definition mainTemperature (temps : list Temperature) : float64 :=
  match firstByPriority priorities temps with
  | Some c => c
  | None =>
      match temps with
      | t :: _ => Current t
      | [] => F64.zero
      end
  end.

Definition GetMainTemperature `{GoLib} `{GoPathLib} (src : Sources) : float64 :=
  mainTemperature (GetTemperatures src).

End temperature.

(** ** [internal/api/handlers.go]: the alerts *)

Module alerts.

(** The alert settings. *)
Record Settings : Type := {
  CPUThreshold : float64;
  TempThreshold : float64;
  AlertsEnabled : bool
}.

Definition c90 : float64 := Eval vm_compute in F64.of_Z 90.
Definition c85 : float64 := Eval vm_compute in F64.of_Z 85.

Definition DefaultSettings : Settings := {|
  CPUThreshold := c90;
  TempThreshold := c85;
  AlertsEnabled := true
|}.

(** The loop over the processes: the first one at or above the threshold. *)
Fixpoint firstOver (threshold : float64) (processes : list monitor.ClaudeProcess)
    : bool * string :=
  match processes with
  | [] => (false, EmptyString)
  | p :: processes' =>
      if F64.leb threshold (monitor.CPUPercent p) then (true, monitor.Name p)
      else firstOver threshold processes'
  end.

(** [CheckAlerts]: the handler afterwards and [(cpuAlert, tempAlert,
    alertProcess)].  The settings of the handler are the argument
    [settings]; the call does not change them. *)
Definition CheckAlerts `{GoLib} (host : os.Host) (settings : Settings) (h : api.Handler)
    : Res (api.Handler * (bool * bool * string)) :=
  if negb (AlertsEnabled settings) then Ok (h, (false, false, EmptyString))
  else
    let temp := os.MainTemperature host in
    let tempAlert := F64.leb (TempThreshold settings) temp in
    '(pm, r) ← monitor.GetProcesses host (api.processMonitor h);
    let processes := match r with
                     | inl ps => ps
                     | inr _ => []
                     end in
    let '(cpuAlert, alertProcess) := firstOver (CPUThreshold settings) processes in
    Ok ({| api.processMonitor := pm; api.history := api.history h |},
        (cpuAlert, tempAlert, alertProcess)).

End alerts.

(** ** Vocabulary of the further properties *)

Module More.

Import monitor.

(** The [stat] record of [pid] has exactly twelve fields after the command
    name. *)
Definition shortStat (h : os.Host) (pid : Z) : Prop :=
  exists content rest,
    os.ReadFile h (GoStr.procPath (GoStr.Itoa pid) "stat") = Some content /\
    GoStr.LastIndexByte content ")"%char <> -1 /\
    GoStr.LastIndexByte content ")"%char + 2 < GoStr.len content /\
    GoStr.sliceFrom content (GoStr.LastIndexByte content ")"%char + 2) = Ok rest /\
    length (GoStr.Fields rest) = 12%nat.

(** The process id behind a directory entry that the first loop keeps. *)
Definition qualifyingPid (h : os.Host) (entry : os.DirEntry) : option Z :=
  if os.IsDir entry then
    match GoStr.Atoi (os.Name entry) with
    | Some pid => if isClaude h pid then Some pid else None
    | None => None
    end
  else None.

(** The memory and the start time of a raw record are the ones read for its
    process id. *)
Definition readFor (h : os.Host) `{GoLib} (rp : rawProcess) : Prop :=
  getMemoryMB h (PID (proc rp)) = Ok (MemoryMB (proc rp)) /\
  getStartTime h (PID (proc rp)) = Ok (StartTime (proc rp)).

(** Zero, or finite and positive. *)
Definition nonnegFinite (x : float64) : Prop :=
  match x with
  | S754_zero _ => True
  | S754_finite s _ _ => s = false
  | _ => False
  end.

(** No byte of [s] is a colon. *)
Definition noColon (s : string) : bool :=
  GoText.allOf (fun c => negb (Ascii.eqb c ":"%char)) s.

(** A label read from the lines [lines]: one of them is the label followed
    by a colon, and the label is not empty and holds no colon. *)
Definition labelOf (lines : list string) (l : string) : Prop :=
  l <> EmptyString /\ noColon l = true /\ (l +:+ ":")%string ∈ lines.

(** A temperature strictly between 0 and 150. *)
Definition inRange (c : float64) : Prop :=
  F64.ltb F64.zero c = true /\ F64.ltb c temperature.c150 = true.

(** A reading of the [sensors] path. *)
Definition plausible (lines : list string) (t : temperature.Temperature) : Prop :=
  labelOf lines (temperature.Label t) /\ inRange (temperature.Current t).

(** What the loop of [parseSensorsOutput] keeps true. *)
Definition parsing (lines : list string) (st : temperature.parser) : Prop :=
  Forall (plausible lines) (temperature.temps st) /\
  (temperature.currentLabel st = EmptyString \/ labelOf lines (temperature.currentLabel st)) /\
  (temperature.Current (temperature.currentTemp st) = F64.zero \/
   inRange (temperature.Current (temperature.currentTemp st))).

(** 1 while a label is in hand, 0 before the first one. *)
Definition pending (st : temperature.parser) : nat :=
  if String.eqb (temperature.currentLabel st) EmptyString then 0%nat else 1%nat.

(** No label of [temps] contains [prio]. *)
Definition unlabelled (prio : string) (temps : list temperature.Temperature) : Prop :=
  Forall (fun u => GoText.Contains (temperature.Label u) prio = false) temps.

(** The text of the [type] file beside the zone file at [zonePath], white
    space trimmed; empty when the file gives nothing. *)
Definition zoneType `{GoPathLib} (src : temperature.Sources) (zonePath : string) : string :=
  GoStr.TrimSpace (fst (temperature.ReadFile src (Join (Dir zonePath) "type"))).

(** The reading [getSysfsTemperatures] makes of the zone at [zonePath]: the
    number of the zone file divided by 1000, under the type of the zone, or
    under the name of the zone directory when the type is empty. *)
Definition zoneReading `{GoLib} `{GoPathLib} (src : temperature.Sources)
    (zonePath : string) (t : temperature.Temperature) : Prop :=
  exists data,
    temperature.ReadFile src zonePath = (data, false) /\
    ParseFloatFails (GoStr.TrimSpace data) = false /\
    temperature.Current t = F64.div (ParseFloat (GoStr.TrimSpace data)) temperature.c1000 /\
    (zoneType src zonePath <> EmptyString -> temperature.Label t = zoneType src zonePath) /\
    (zoneType src zonePath = EmptyString ->
     temperature.Label t = GoStr.Base (Dir zonePath)) /\
    temperature.Label t <> EmptyString /\
    temperature.High t = F64.zero /\
    temperature.Crit t = F64.zero.

(** The zone file at [zonePath] can be read and holds a number. *)
Definition zoneReadable `{GoPathLib} (src : temperature.Sources) (zonePath : string) : Prop :=
  exists data,
    temperature.ReadFile src zonePath = (data, false) /\
    ParseFloatFails (GoStr.TrimSpace data) = false.

End More.

(** ** Sequences of calls on the ring buffer *)

Module Session.

Import histbuf.

(** A call that changes the buffer. *)
Inductive call : Type :=
  | CallAdd (point : HistoryPoint)
  | CallClear.

Definition step (hb : HistoryBuffer) (c : call) : Res HistoryBuffer :=
  match c with
  | CallAdd point => Add hb point
  | CallClear => Ok (Clear hb)
  end.

(** The calls of a list, one after the other. *)
Definition run (calls : list call) (hb : HistoryBuffer) : Res HistoryBuffer :=
  foldRes step calls hb.

(** The samples added after the last [Clear], oldest first, given the ones
    [held] before the calls. *)
Fixpoint sinceClear (held : list HistoryPoint) (calls : list call) : list HistoryPoint :=
  match calls with
  | [] => held
  | CallAdd point :: calls' => sinceClear (held ++ [point]) calls'
  | CallClear :: calls' => sinceClear [] calls'
  end.

(** The sample [RecordHistory] makes of the processes of a poll. *)
Definition pointOf (host : os.Host) (processes : list monitor.ClaudeProcess)
    : HistoryPoint := {|
  Timestamp := os.NowUnix host;
  Temperature := os.MainTemperature host;
  Processes := map api.snapshot processes
|}.

End Session.

(** ** Cases for the further examples *)

Module Cases.

Import Examples.

(** Settings whose CPU threshold, 150, is above every percentage. *)
Definition loudSettings : alerts.Settings := {|
  alerts.CPUThreshold := temperature.c150;
  alerts.TempThreshold := alerts.c85;
  alerts.AlertsEnabled := true
|}.

(** A handler whose monitor saw pid 10 five seconds ago. *)
Definition demoHandler : api.Handler := {|
  api.processMonitor := demoMonitor;
  api.history := histbuf.NewHistoryBuffer
|}.

(** U+00A0, the no-break space, in UTF-8. *)
Definition nbsp : string := String "194"%char (String "160"%char EmptyString).

(** The process of [demoHost] with a no-break space and a line feed after
    the name in its [comm] file, and a no-break space between the two
    counters of its [stat] record. *)
Definition nbspHost : os.Host :=
  host [dir "10"]
    [ uptimeFile;
      (GoStr.procPath "10" "comm", "claude" +:+ nbsp +:+ String "010"%char EmptyString);
      (GoStr.procPath "10" "statm", "5000 2560 300 1 0 400 0"%string);
      (GoStr.procPath "10" "stat",
       "10 (claude) S 1 1 1 0 -1 4194304 100 0 0 0 900" +:+ nbsp
         +:+ "250 0 0 20 0 1 0 5000 1000000 256 18446744073709551615") ]
    [cwdLink 10 "/home/user/demo"] after5s.

(** The host of [demoHost] two milliseconds later, its files as they were. *)
Definition laterHost : os.Host :=
  host [dir "10"] (uptimeFile :: claudeFiles 10 900 250 5000) [cwdLink 10 "/home/user/demo"]
    (after5s + 2000000).

(** The output of [sensors -u] on a machine with one chip. *)
Definition sensorsText : string :=
  String.concat (String "010" EmptyString)
    ["k10temp-pci-00c3";
     "Adapter: PCI adapter";
     "Tctl:";
     "  temp1_input: 45.500";
     "  temp1_max: 70.000";
     "Tdie:";
     "  temp2_input: 300.000";
     "Tccd1:";
     "  temp3_input: 40.250";
     ""]%string.

(** The paths of the examples: [filepath.Dir] of a path with a slash,
    [filepath.Join] of two clean elements, and numerals in digits only. *)
Definition smallPathLib : GoPathLib := {|
  ParseFloatFails := fun s =>
    match s with
    | EmptyString => true
    | _ => negb (GoText.allOf GoText.reDigit s)
    end;
  Dir := fun path =>
    String.rev (GoStr.dropSlashes (GoText.dropWhile (fun c => negb (GoStr.isSlash c))
                                     (String.rev path)));
  Join := fun a b => (a +:+ "/" +:+ b)%string
|}.

(** A machine where [sensors] answers [sensorsText]. *)
Definition withSensors : temperature.Sources := {|
  temperature.sensorsOutput := Some sensorsText;
  temperature.thermalZones := Some [];
  temperature.ReadFile := fun _ => (EmptyString, true)
|}.

(** The files of the thermal zones of [withZones]: zone 0 has a type, zone 1
    has none, and the file of zone 2 cannot be read. *)
Definition zoneFiles : list (string * string) :=
  [ ("/sys/class/thermal/thermal_zone0/temp", String.append "47000" (String "010" EmptyString));
    ("/sys/class/thermal/thermal_zone0/type",
     String.append "x86_pkg_temp" (String "010" EmptyString));
    ("/sys/class/thermal/thermal_zone1/temp", String.append "52000" (String "010" EmptyString))
  ]%string.

Definition zonePaths : list string :=
  ["/sys/class/thermal/thermal_zone0/temp";
   "/sys/class/thermal/thermal_zone1/temp";
   "/sys/class/thermal/thermal_zone2/temp"]%string.

(** A machine without [sensors] and with three thermal zones. *)
Definition withZones : temperature.Sources := {|
  temperature.sensorsOutput := None;
  temperature.thermalZones := Some zonePaths;
  temperature.ReadFile := fun path =>
    match lookupPath zoneFiles path with
    | Some data => (data, false)
    | None => (EmptyString, true)
    end
|}.

Definition c45_5 : float64 := Eval vm_compute in parseDecimal "45.500".
Definition c70 : float64 := Eval vm_compute in parseDecimal "70.000".
Definition c47 : float64 :=
  Eval vm_compute in F64.div (parseDecimal "47000") temperature.c1000.

(** The first reading of [sensorsText]. *)
Definition tctlReading : temperature.Temperature := {|
  temperature.Label := "Tctl";
  temperature.Current := c45_5;
  temperature.High := c70;
  temperature.Crit := F64.zero
|}.

Definition c52 : float64 :=
  Eval vm_compute in F64.div (parseDecimal "52000") temperature.c1000.

(** The readings of the first two zones of [withZones]. *)
Definition zone0Reading : temperature.Temperature := {|
  temperature.Label := "x86_pkg_temp";
  temperature.Current := c47;
  temperature.High := F64.zero;
  temperature.Crit := F64.zero
|}.

Definition zone1Reading : temperature.Temperature := {|
  temperature.Label := "thermal_zone1";
  temperature.Current := c52;
  temperature.High := F64.zero;
  temperature.Crit := F64.zero
|}.

(** Readings none of whose labels is looked for. *)
Definition plainReadings : list temperature.Temperature :=
  [ {| temperature.Label := "acpitz"; temperature.Current := alerts.c85;
       temperature.High := F64.zero; temperature.Crit := F64.zero |};
    {| temperature.Label := "nvme"; temperature.Current := alerts.c90;
       temperature.High := F64.zero; temperature.Crit := F64.zero |} ]%string.

(** Readings in which a lower priority comes first. *)
Definition mixedReadings : list temperature.Temperature :=
  [ {| temperature.Label := "Core 0"; temperature.Current := alerts.c85;
       temperature.High := F64.zero; temperature.Crit := F64.zero |};
    {| temperature.Label := "Package id 0"; temperature.Current := alerts.c90;
       temperature.High := F64.zero; temperature.Crit := F64.zero |} ]%string.

End Cases.

(** * Properties *)

(** ** Rounding never invents a NaN *)

Section Rounding.

Variables prec emax : Z.

Lemma iter_pos_invariant {A : Type} (P : A -> Prop) (f : A -> A) :
  (forall x, P x -> P (f x)) -> forall n x, P x -> P (SpecFloat.iter_pos f n x).
Proof.
  intros Hf n. induction n as [n IH | n IH | ]; intros x Hx; simpl; auto.
Qed.

Lemma shr_1_nonneg mrs : 0 <= shr_m mrs -> 0 <= shr_m (shr_1 mrs).
Proof.
  destruct mrs as [m r s]. simpl.
  destruct m as [ | [p | p | ] | [p | p | ]]; simpl; lia.
Qed.

Lemma shr_nonneg mrs e n : 0 <= shr_m mrs -> 0 <= shr_m (fst (shr mrs e n)).
Proof.
  intros Hm. destruct n as [ | p | p]; simpl; trivial.
  apply (iter_pos_invariant (fun r => 0 <= shr_m r)); auto using shr_1_nonneg.
Qed.

Lemma shr_record_of_loc_m m l : shr_m (shr_record_of_loc m l) = m.
Proof. destruct l as [ | [ | | ]]; reflexivity. Qed.

Lemma shr_fexp_nonneg m e l : 0 <= m -> 0 <= shr_m (fst (shr_fexp prec emax m e l)).
Proof.
  intros Hm. unfold shr_fexp. apply shr_nonneg.
  now rewrite shr_record_of_loc_m.
Qed.

Lemma round_nearest_even_nonneg m l : 0 <= m -> 0 <= round_nearest_even m l.
Proof.
  intros Hm. destruct l as [ | [ | | ]]; simpl; try lia.
  destruct (Z.even m); lia.
Qed.

Lemma binary_round_aux_not_nan sx mx ex lx :
  0 <= mx -> binary_round_aux prec emax sx mx ex lx <> S754_nan.
Proof.
  intros Hm. unfold binary_round_aux.
  pose proof (shr_fexp_nonneg mx ex lx Hm) as H1.
  destruct (shr_fexp prec emax mx ex lx) as [mrs' e']. simpl in H1.
  pose proof (shr_fexp_nonneg _ e' loc_Exact
                (round_nearest_even_nonneg _ (loc_of_shr_record mrs') H1)) as H2.
  destruct (shr_fexp prec emax _ e' loc_Exact) as [mrs'' e'']. simpl in H2.
  destruct (shr_m mrs'') as [ | m | m]; try discriminate; try lia.
  destruct (e'' <=? emax - prec); discriminate.
Qed.

Lemma binary_normalize_not_nan m e sz :
  0 <= m -> binary_normalize prec emax m e sz <> S754_nan.
Proof.
  intros Hm. destruct m as [ | p | p]; simpl; try discriminate; try lia.
  unfold binary_round.
  destruct (shl_align p e _) as [mz ez].
  apply binary_round_aux_not_nan. lia.
Qed.

Lemma SFdiv_not_nan x s m e :
  x <> S754_nan -> SFdiv prec emax x (S754_finite s m e) <> S754_nan.
Proof.
  intros Hx. destruct x as [sx | sx | | sx mx ex]; simpl; try discriminate; try congruence.
  unfold SFdiv_core_binary.
  set (m' := match _ - _ - _ with Z0 => _ | Zpos _ => _ | Zneg _ => _ end).
  assert (Hm' : 0 <= m').
  { subst m'. destruct (_ - _ - _); try lia. apply Z.shiftl_nonneg. lia. }
  pose proof (Z.div_pos m' (Z.pos m) Hm' ltac:(lia)) as Hq.
  unfold Z.div in Hq. unfold Z.div_eucl at 1.
  fold (Z.div_eucl m' (Z.pos m)).
  destruct (Z.div_eucl m' (Z.pos m)) as [q r].
  now apply binary_round_aux_not_nan.
Qed.

Lemma SFmul_not_nan x s m e :
  x <> S754_nan -> SFmul prec emax x (S754_finite s m e) <> S754_nan.
Proof.
  intros Hx. destruct x as [sx | sx | | sx mx ex]; simpl; try discriminate; try congruence.
  apply binary_round_aux_not_nan. lia.
Qed.

End Rounding.

(** ** Rounding keeps magnitudes *)

Section Magnitude.

Variables prec emax : Z.
Hypothesis prec_pos : 0 < prec.
Hypothesis prec_lt_emax : prec < emax.

Lemma digits2_pos_size p : digits2_pos p = Pos.size p.
Proof. induction p as [p IH | p IH | ]; simpl; congruence. Qed.

Lemma Zdigits2_log2 m : 0 < m -> Zdigits2 m = Z.log2 m + 1.
Proof.
  destruct m as [ | p | p]; try lia. intros _. simpl. rewrite digits2_pos_size.
  destruct p as [p | p | ]; simpl; lia.
Qed.

Lemma Zdigits2_nonneg m : 0 <= Zdigits2 m.
Proof. destruct m; simpl; lia. Qed.

Lemma Zdigits2_pos m : 0 < m -> 0 < Zdigits2 m.
Proof. destruct m; simpl; lia. Qed.

Lemma Zdigits2_le a b : 0 <= a <= b -> Zdigits2 a <= Zdigits2 b.
Proof.
  intros [Ha Hab]. destruct (Z.eq_dec a 0) as [-> | Hne]; [apply Zdigits2_nonneg | ].
  rewrite !Zdigits2_log2 by lia. pose proof (Z.log2_le_mono a b Hab). lia.
Qed.

Lemma Zdigits2_succ a : 0 <= a -> Zdigits2 (a + 1) <= Zdigits2 a + 1.
Proof.
  intros Ha. destruct (Z.eq_dec a 0) as [-> | Hne]; [simpl; lia | ].
  rewrite !Zdigits2_log2 by lia. pose proof (Z.log2_succ_le a) as H.
  rewrite <- Z.add_1_r in H. lia.
Qed.

Lemma Zdigits2_shiftl a s : 0 < a -> 0 <= s -> Zdigits2 (Z.shiftl a s) = Zdigits2 a + s.
Proof.
  intros Ha Hs. assert (0 < Z.shiftl a s) by (rewrite Z.shiftl_mul_pow2 by lia; nia).
  rewrite !Zdigits2_log2 by assumption. rewrite Z.log2_shiftl by lia. lia.
Qed.

Lemma Zdigits2_mul a b : 0 < a -> 0 < b -> Zdigits2 (a * b) <= Zdigits2 a + Zdigits2 b.
Proof.
  intros Ha Hb. rewrite !Zdigits2_log2 by nia.
  pose proof (Z.log2_mul_above a b). lia.
Qed.

Lemma Zdigits2_add a b : 0 <= a -> 0 <= b -> Zdigits2 (a + b) <= Z.max (Zdigits2 a) (Zdigits2 b) + 1.
Proof.
  intros Ha Hb.
  destruct (Z.eq_dec (Z.max a b) 0) as [Hz | Hnz].
  { replace (a + b) with 0 by lia. pose proof (Zdigits2_nonneg a). simpl. lia. }
  assert (Hle : Zdigits2 (a + b) <= Zdigits2 (2 * Z.max a b)) by (apply Zdigits2_le; lia).
  rewrite (Zdigits2_log2 (2 * Z.max a b)) in Hle by lia.
  rewrite Z.log2_double in Hle by lia.
  destruct (Z.max_spec a b) as [[_ Hm] | [_ Hm]]; rewrite Hm in Hle, Hnz;
    rewrite <- Z.add_1_r, <- Zdigits2_log2 in Hle by lia; lia.
Qed.

Lemma Zdigits2_bound m k : 0 <= m < 2 ^ k -> 0 <= k -> Zdigits2 m <= k.
Proof.
  intros [Hm Hlt] Hk. destruct (Z.eq_dec m 0) as [-> | Hne]; [simpl; lia | ].
  rewrite Zdigits2_log2 by lia.
  assert (Z.log2 m < k) by (apply Z.log2_lt_pow2; lia). lia.
Qed.

Lemma shr_1_digits mrs :
  0 <= shr_m mrs ->
  0 <= shr_m (shr_1 mrs) /\
  Zdigits2 (shr_m (shr_1 mrs)) = Z.max 0 (Zdigits2 (shr_m mrs) - 1).
Proof.
  destruct mrs as [m r s]. simpl.
  destruct m as [ | [p | p | ] | [p | p | ]]; simpl; lia.
Qed.

Lemma iter_shr_1_digits p : forall mrs,
  0 <= shr_m mrs ->
  0 <= shr_m (SpecFloat.iter_pos shr_1 p mrs) /\
  Zdigits2 (shr_m (SpecFloat.iter_pos shr_1 p mrs))
  = Z.max 0 (Zdigits2 (shr_m mrs) - Z.pos p).
Proof.
  induction p as [p IH | p IH | ]; intros mrs Hm; simpl SpecFloat.iter_pos.
  - destruct (shr_1_digits mrs Hm) as [H1 E1].
    destruct (IH _ H1) as [H2 E2]. destruct (IH _ H2) as [H3 E3].
    split; [assumption | ]. rewrite E3, E2, E1. lia.
  - destruct (IH _ Hm) as [H2 E2]. destruct (IH _ H2) as [H3 E3].
    split; [assumption | ]. rewrite E3, E2. lia.
  - apply shr_1_digits, Hm.
Qed.

(** One application of [shr_fexp]: the exponent does not go down, it goes up
    to the exponent the format prescribes at most, and the magnitude does not
    grow. *)
Lemma shr_fexp_digits m e l :
  0 <= m ->
  0 <= shr_m (fst (shr_fexp prec emax m e l)) /\
  e <= snd (shr_fexp prec emax m e l) <= Z.max e (fexp prec emax (Zdigits2 m + e)) /\
  Zdigits2 (shr_m (fst (shr_fexp prec emax m e l))) + snd (shr_fexp prec emax m e l)
  <= Z.max (Zdigits2 m + e) (snd (shr_fexp prec emax m e l)).
Proof.
  intros Hm. unfold shr_fexp, shr.
  assert (Hrec : shr_m (shr_record_of_loc m l) = m) by (destruct l as [ | [ | | ]]; reflexivity).
  destruct (fexp prec emax (Zdigits2 m + e) - e) as [ | n | n] eqn:En; simpl fst; simpl snd.
  - rewrite Hrec. lia.
  - destruct (iter_shr_1_digits n (shr_record_of_loc m l)) as [H1 E1]; [now rewrite Hrec | ].
    rewrite Hrec in E1. split; [assumption | ]. rewrite E1. lia.
  - rewrite Hrec. lia.
Qed.

Lemma round_nearest_even_digits m l :
  0 <= m -> 0 <= round_nearest_even m l /\ Zdigits2 (round_nearest_even m l) <= Zdigits2 m + 1.
Proof.
  intros Hm. pose proof (Zdigits2_succ m Hm). pose proof (Zdigits2_nonneg m).
  destruct l as [ | [ | | ]]; simpl; try lia.
  destruct (Z.even m); lia.
Qed.

Lemma within_le B B' x : B <= B' -> within prec emax B x -> within prec emax B' x.
Proof. intros HB. destruct x; simpl; trivial. lia. Qed.

Lemma within_finite B x : within prec emax B x -> x = S754_zero false \/ x = S754_zero true \/
  exists s m e, x = S754_finite s m e.
Proof. destruct x as [[] | | | s m e]; simpl; intros H; try contradiction; eauto 6. Qed.

Lemma binary_round_aux_within sx mx ex lx B :
  0 <= mx -> ex <= emax - prec ->
  Zdigits2 mx + ex + 1 <= B -> ex + 1 <= B -> emin prec emax + 1 <= B -> B <= emax ->
  within prec emax B (binary_round_aux prec emax sx mx ex lx).
Proof.
  intros Hm Hex HB1 HB2 HB3 HB4. unfold binary_round_aux.
  pose proof (shr_fexp_digits mx ex lx Hm) as (H1 & He1 & Hd1).
  destruct (shr_fexp prec emax mx ex lx) as [mrs1 e1]. simpl fst in *. simpl snd in *.
  pose proof (round_nearest_even_digits (shr_m mrs1) (loc_of_shr_record mrs1) H1) as (H2 & Hd2).
  pose proof (shr_fexp_digits _ e1 loc_Exact H2) as (H3 & He3 & Hd3).
  destruct (shr_fexp prec emax _ e1 loc_Exact) as [mrs3 e3]. simpl fst in *. simpl snd in *.
  unfold fexp, emin in *.
  destruct (shr_m mrs3) as [ | m | m] eqn:E3; simpl; trivial; try lia.
  replace (e3 <=? emax - prec) with true by (symmetry; apply Z.leb_le; lia).
  simpl. split; [ | lia].
  change (Z.pos (digits2_pos m)) with (Zdigits2 (Z.pos m)). lia.
Qed.

Lemma iter_xO_shiftl p d : Z.pos (Pos.iter xO p d) = Z.shiftl (Z.pos p) (Z.pos d).
Proof.
  simpl Z.shiftl.
  apply (Pos.iter_swap_gen _ _ Z.pos xO (Z.mul 2)). reflexivity.
Qed.

(** Aligning a mantissa to a lower exponent keeps its magnitude. *)
Lemma shl_align_digits mx ex ex' :
  Zdigits2 (Z.pos (fst (shl_align mx ex ex'))) + snd (shl_align mx ex ex')
  = Zdigits2 (Z.pos mx) + ex /\
  snd (shl_align mx ex ex') <= ex /\
  Z.pos (fst (shl_align mx ex ex')) = Z.pos mx * 2 ^ (ex - snd (shl_align mx ex ex')).
Proof.
  unfold shl_align. destruct (ex' - ex) as [ | d | d] eqn:E; simpl fst; simpl snd.
  - rewrite Z.sub_diag. simpl. lia.
  - rewrite Z.sub_diag. simpl. lia.
  - rewrite iter_xO_shiftl.
    assert (Hd : Z.pos d = ex - ex') by lia.
    rewrite Zdigits2_shiftl by lia. rewrite Z.shiftl_mul_pow2 by lia.
    rewrite Hd. lia.
Qed.

Lemma binary_round_within sx mx ex B :
  ex <= emax - prec ->
  Zdigits2 (Z.pos mx) + ex + 1 <= B -> emin prec emax + 1 <= B -> B <= emax ->
  within prec emax B (binary_round prec emax sx mx ex).
Proof.
  intros Hex HB1 HB3 HB4. unfold binary_round.
  pose proof (shl_align_digits mx ex (fexp prec emax (Z.pos (digits2_pos mx) + ex)))
    as (Hd & He & _).
  destruct (shl_align mx ex _) as [mz ez]. simpl fst in *. simpl snd in *.
  pose proof (Zdigits2_pos (Z.pos mz) ltac:(lia)).
  apply binary_round_aux_within; lia.
Qed.

Lemma binary_normalize_within m e sz B :
  e <= emax - prec ->
  Zdigits2 m + e + 1 <= B -> emin prec emax + 1 <= B -> B <= emax ->
  within prec emax B (binary_normalize prec emax m e sz).
Proof.
  intros He HB1 HB3 HB4. destruct m as [ | p | p]; simpl; trivial;
    now apply binary_round_within.
Qed.

Lemma SFadd_within x y B :
  within prec emax B x -> within prec emax B y -> emin prec emax + 1 <= B + 2 -> B + 2 <= emax ->
  within prec emax (B + 2) (SFadd prec emax x y).
Proof.
  intros Hx Hy HB3 HB4.
  destruct x as [sx | sx | | sx mx ex], y as [sy | sy | | sy my ey];
    simpl in Hx, Hy; try contradiction; simpl SFadd.
  - destruct sx, sy; simpl; trivial.
  - simpl. lia.
  - simpl. lia.
  - destruct Hx as [Hx Hex], Hy as [Hy Hey].
    pose proof (shl_align_digits mx ex (Z.min ex ey)) as (Hdx & Hlx & _).
    pose proof (shl_align_digits my ey (Z.min ex ey)) as (Hdy & Hly & _).
    assert (Hsx : snd (shl_align mx ex (Z.min ex ey)) = Z.min ex ey).
    { unfold shl_align. destruct (Z.min ex ey - ex) eqn:E; simpl; lia. }
    assert (Hsy : snd (shl_align my ey (Z.min ex ey)) = Z.min ex ey).
    { unfold shl_align. destruct (Z.min ex ey - ey) eqn:E; simpl; lia. }
    set (a := Z.pos (fst (shl_align mx ex (Z.min ex ey)))) in *.
    set (b := Z.pos (fst (shl_align my ey (Z.min ex ey)))) in *.
    assert (Hsum : Zdigits2 (cond_Zopp sx a + cond_Zopp sy b)
                   <= Z.max (Zdigits2 a) (Zdigits2 b) + 1).
    { pose proof (Zdigits2_add a b ltac:(lia) ltac:(lia)) as Hadd.
      pose proof (Zdigits2_le 0 a ltac:(lia)). pose proof (Zdigits2_le 0 b ltac:(lia)).
      destruct sx, sy; simpl cond_Zopp.
      - replace (- a + - b) with (- (a + b)) by lia.
        destruct (a + b) eqn:E; simpl in *; lia.
      - destruct (Z_le_gt_dec a b).
        + pose proof (Zdigits2_le (- a + b) b ltac:(lia)). lia.
        + replace (- a + b) with (- (a - b)) by lia.
          pose proof (Zdigits2_le (a - b) a ltac:(lia)).
          destruct (a - b) eqn:E; simpl in *; lia.
      - destruct (Z_le_gt_dec b a).
        + pose proof (Zdigits2_le (a + - b) a ltac:(lia)). lia.
        + replace (a + - b) with (- (b - a)) by lia.
          pose proof (Zdigits2_le (b - a) b ltac:(lia)).
          destruct (b - a) eqn:E; simpl in *; lia.
      - assumption. }
    change (Z.pos (digits2_pos mx)) with (Zdigits2 (Z.pos mx)) in Hx.
    change (Z.pos (digits2_pos my)) with (Zdigits2 (Z.pos my)) in Hy.
    apply binary_normalize_within; lia.
Qed.

Lemma SFdiv_within x sy my ey B :
  within prec emax B x -> B - ey <= emax - prec ->
  emin prec emax + 1 <= B - ey + 1 -> B - ey + 1 <= emax ->
  within prec emax (B - ey + 1) (SFdiv prec emax x (S754_finite sy my ey)).
Proof.
  intros Hx Hb HB3 HB4.
  destruct x as [sx | sx | | sx mx ex]; simpl in Hx; try contradiction; simpl SFdiv; trivial.
  destruct Hx as [Hx Hex].
  change (Z.pos (digits2_pos mx)) with (Zdigits2 (Z.pos mx)) in Hx.
  unfold SFdiv_core_binary.
  set (e' := Z.min _ (ex - ey)).
  set (m' := match ex - ey - e' with Z0 => _ | Zpos _ => _ | Zneg _ => _ end).
  assert (He' : e' <= ex - ey) by (subst e'; lia).
  assert (Hm' : 0 <= m' /\ Zdigits2 m' <= Zdigits2 (Z.pos mx) + (ex - ey - e')).
  { subst m'. destruct (ex - ey - e') as [ | s | s] eqn:Es; try lia.
    rewrite Zdigits2_shiftl by lia. split; [ | lia].
    rewrite Z.shiftl_mul_pow2 by lia. lia. }
  destruct Hm' as [Hm' Hdm'].
  pose proof (Z.div_pos m' (Z.pos my) Hm' ltac:(lia)) as Hq.
  assert (Hqle : m' / Z.pos my <= m').
  { apply Z.div_le_upper_bound; nia. }
  pose proof (Zdigits2_le (m' / Z.pos my) m' ltac:(lia)) as Hdq.
  unfold Z.div in Hq, Hqle, Hdq.
  destruct (Z.div_eucl m' (Z.pos my)) as [q r]. simpl fst in *.
  pose proof (Zdigits2_pos (Z.pos mx) ltac:(lia)).
  apply binary_round_aux_within; lia.
Qed.

End Magnitude.

(** ** Comparisons and the clamp *)

Lemma SFcompare_antisym x y : SFcompare y x = option_map CompOpp (SFcompare x y).
Proof.
  destruct x as [sx | sx | | sx mx ex], y as [sy | sy | | sy my ey];
    try destruct sx; try destruct sy; try reflexivity.
  all: simpl; f_equal; rewrite (Z.compare_antisym ey ex);
    destruct (ey ?= ex); simpl; try reflexivity;
    change (Pos.compare_cont Eq) with Pos.compare;
    rewrite (Pos.compare_antisym my mx); try reflexivity;
    now destruct (my ?= mx)%positive.
Qed.

Lemma ltb_false_leb x y :
  x <> S754_nan -> y <> S754_nan -> F64.ltb x y = false -> F64.leb y x = true.
Proof.
  unfold F64.ltb, F64.leb, SFltb, SFleb. intros Hx Hy.
  rewrite (SFcompare_antisym x y).
  destruct (SFcompare x y) as [[ | | ] | ] eqn:E; simpl; try easy.
  destruct x, y; try congruence; try discriminate.
Qed.

Lemma ltb_leb x y : F64.ltb x y = true -> F64.leb x y = true.
Proof.
  unfold F64.ltb, F64.leb, SFltb, SFleb.
  now destruct (SFcompare x y) as [[ | | ] | ].
Qed.

Lemma ltb_asym x y : F64.ltb x y = true -> F64.ltb y x = false.
Proof.
  unfold F64.ltb, SFltb. rewrite (SFcompare_antisym x y).
  now destruct (SFcompare x y) as [[ | | ] | ].
Qed.

Import monitor.

(** The clamp leaves a percentage between 0 and 100 alone. *)
Lemma clampPercent_inside p :
  F64.ltb p F64.zero = false -> F64.ltb F64.c100 p = false -> clampPercent p = p.
Proof. unfold clampPercent. now intros -> ->. Qed.

(** Above 100 the clamp yields exactly 100. *)
Lemma clampPercent_above p : F64.ltb F64.c100 p = true -> clampPercent p = F64.c100.
Proof.
  intros H. unfold clampPercent.
  destruct (F64.ltb p F64.zero) eqn:E.
  - exfalso. destruct p as [[] | [] | | [] m e]; try discriminate.
  - now rewrite H.
Qed.

(** Below 0 the clamp yields 0. *)
Lemma clampPercent_below p : F64.ltb p F64.zero = true -> clampPercent p = F64.zero.
Proof. unfold clampPercent. now intros ->. Qed.

Lemma clampPercent_range p :
  p <> S754_nan ->
  F64.leb F64.zero (clampPercent p) = true /\ F64.leb (clampPercent p) F64.c100 = true.
Proof.
  intros Hp. unfold clampPercent.
  destruct (F64.ltb p F64.zero) eqn:E0.
  - now vm_compute.
  - destruct (F64.ltb F64.c100 p) eqn:E1.
    + now vm_compute.
    + split; apply ltb_false_leb; trivial; discriminate.
Qed.

Lemma floorElapsed_finite elapsed :
  F64.is_finite elapsed = true ->
  exists s m e, floorElapsed elapsed = S754_finite s m e.
Proof.
  unfold floorElapsed. destruct elapsed as [s | s | | s m e]; try discriminate; intros _.
  - vm_compute. eauto.
  - destruct (F64.ltb _ _); [vm_compute | ]; eauto.
Qed.

(** The interval the estimator divides by is at least a tenth of a second. *)
Lemma floorElapsed_ge elapsed :
  elapsed <> S754_nan -> F64.leb F64.c0_1 (floorElapsed elapsed) = true.
Proof.
  intros H. unfold floorElapsed. destruct (F64.ltb elapsed F64.c0_1) eqn:E.
  - now vm_compute.
  - apply ltb_false_leb; trivial. discriminate.
Qed.

Lemma tickPercent_not_nan elapsed prev ct :
  F64.is_finite elapsed = true ->
  tickPercent F64.c100 (floorElapsed elapsed) prev ct <> S754_nan.
Proof.
  intros Hfin. destruct (floorElapsed_finite _ Hfin) as (s & m & e & ->).
  unfold tickPercent, F64.mul, F64.div.
  change F64.c100 with (S754_finite false 7036874417766400 (-46)).
  apply SFmul_not_nan, SFdiv_not_nan, SFdiv_not_nan.
  apply binary_normalize_not_nan.
  unfold u64_add, wrap_u64. apply Z.mod_pos_bound. lia.
Qed.

(** Counter totals that did not go down, and by less than [2^64], leave the
    modular difference equal to the difference of the totals. *)
Lemma tick_delta_total prev ct :
  0 <= (utime ct + stime ct) - (utime prev + stime prev) < 2 ^ 64 ->
  u64_add (u64_sub (utime ct) (utime prev)) (u64_sub (stime ct) (stime prev))
  = (utime ct + stime ct) - (utime prev + stime prev).
Proof.
  intros H. unfold u64_add, u64_sub, wrap_u64.
  rewrite <- Zplus_mod.
  replace (utime ct - utime prev + (stime ct - stime prev))
    with (utime ct + stime ct - (utime prev + stime prev)) by lia.
  apply Z.mod_small. lia.
Qed.

(** Totals that went down wrap around to a huge unsigned difference. *)
Lemma tick_delta_wrapped prev ct :
  - 2 ^ 64 <= (utime ct + stime ct) - (utime prev + stime prev) < 0 ->
  u64_add (u64_sub (utime ct) (utime prev)) (u64_sub (stime ct) (stime prev))
  = 2 ^ 64 + ((utime ct + stime ct) - (utime prev + stime prev)).
Proof.
  intros H. unfold u64_add, u64_sub, wrap_u64.
  rewrite <- Zplus_mod.
  replace (utime ct - utime prev + (stime ct - stime prev))
    with ((utime ct + stime ct - (utime prev + stime prev) + 2 ^ 64) + (-1) * 2 ^ 64) by lia.
  rewrite Z.mod_add by lia. rewrite Z.mod_small; lia.
Qed.

Lemma Zdigits2_abs m : Zdigits2 m = Zdigits2 (Z.abs m).
Proof. now destruct m. Qed.

Lemma within_is_finite B x : within F64.prec F64.emax B x -> F64.is_finite x = true.
Proof. destruct x; simpl; intros H; try contradiction; reflexivity. Qed.

Lemma of_Z_within z k :
  Z.abs z < 2 ^ k -> 0 <= k -> k + 1 <= F64.emax ->
  within F64.prec F64.emax (k + 1) (F64.of_Z z).
Proof.
  intros Hz Hk Hmax. unfold F64.of_Z.
  pose proof (Zdigits2_bound (Z.abs z) k ltac:(lia) Hk) as Hd.
  rewrite <- Zdigits2_abs in Hd.
  apply binary_normalize_within; unfold F64.prec, F64.emax, emin in *; lia.
Qed.

(** [Duration.Seconds] is a finite number. *)
Lemma Seconds_finite d :
  int64_min <= d <= int64_max -> F64.is_finite (GoTime.Seconds d) = true.
Proof.
  intros Hd. unfold GoTime.Seconds, int64_min, int64_max in *.
  assert (Hq : Z.abs (Z.quot d GoTime.Second) < 2 ^ 34).
  { unfold GoTime.Second. Z.to_euclidean_division_equations. lia. }
  assert (Hr : Z.abs (Z.rem d GoTime.Second) < 2 ^ 30).
  { unfold GoTime.Second. Z.to_euclidean_division_equations. lia. }
  apply (within_is_finite 57).
  apply (SFadd_within F64.prec F64.emax ltac:(reflexivity) ltac:(reflexivity) _ _ 55).
  - apply (within_le _ _ 35); [lia | ]. apply (of_Z_within _ 34); unfold F64.emax; lia.
  - change (F64.of_Z GoTime.Second) with (S754_finite false 8388608000000000 (-23)).
    unfold F64.div. apply (within_le _ _ (31 - (-23) + 1)); [lia | ].
    apply (SFdiv_within F64.prec F64.emax ltac:(reflexivity) ltac:(reflexivity) _ _ _ _ 31).
    + apply (of_Z_within _ 30); unfold F64.emax; lia.
    + unfold F64.prec, F64.emax. lia.
    + unfold F64.prec, F64.emax, emin. lia.
    + unfold F64.emax. lia.
  - unfold F64.prec, F64.emax, emin. lia.
  - unfold F64.emax. lia.
Qed.

Lemma Sub_range t u : int64_min <= GoTime.Sub t u <= int64_max.
Proof. unfold GoTime.Sub, int64_min, int64_max. lia. Qed.

(** ** Insertion sort meets the contract of [sort.Slice] *)

Section InsertionSort.

Context {A : Type} (less : A -> A -> bool).

Lemma sinkLeft_perm x front : Permutation (sinkLeft less x front) (x :: front).
Proof.
  induction front as [ | y front IH]; simpl; [reflexivity | ].
  destruct (less x y); [ | reflexivity].
  rewrite IH. apply perm_swap.
Qed.

Lemma sink_all_perm l front :
  Permutation (fold_left (fun front x => sinkLeft less x front) l front) (l ++ front).
Proof.
  revert front. induction l as [ | x l IH]; intros front; simpl; [reflexivity | ].
  rewrite IH, sinkLeft_perm. symmetry. apply Permutation_middle.
Qed.

Lemma insertionSort_perm l : Permutation (insertionSort less l) l.
Proof.
  unfold insertionSort. rewrite <- Permutation_rev, sink_all_perm.
  now rewrite app_nil_r.
Qed.

Hypothesis less_negtrans :
  forall a b c, less b a = false -> less c b = false -> less c a = false.
Hypothesis less_asym : forall a b, less a b = true -> less b a = false.

Lemma sinkLeft_sorted x front : frontSorted less front -> frontSorted less (sinkLeft less x front).
Proof.
  unfold frontSorted. induction front as [ | y front IH]; intros Hs; simpl.
  - repeat constructor.
  - apply StronglySorted_cons in Hs as [Hy Hs].
    destruct (less x y) eqn:E.
    + apply StronglySorted_cons. split; [ | auto].
      rewrite sinkLeft_perm. constructor; auto.
    + apply StronglySorted_cons. split.
      * constructor; [assumption | ].
        eapply Forall_impl; [exact Hy | ]. intros z Hz. simpl in Hz. eauto.
      * apply StronglySorted_cons. auto.
Qed.

Lemma sink_all_sorted l front :
  frontSorted less front ->
  frontSorted less (fold_left (fun front x => sinkLeft less x front) l front).
Proof.
  revert front. induction l as [ | x l IH]; intros front Hs; simpl; auto using sinkLeft_sorted.
Qed.

Lemma frontSorted_rev front :
  frontSorted less front -> StronglySorted (fun a b => less b a = false) (rev front).
Proof.
  unfold frontSorted. induction front as [ | y front IH]; intros Hs; simpl.
  - constructor.
  - apply StronglySorted_cons in Hs as [Hy Hs].
    apply StronglySorted_app. split; [ | split; [auto | repeat constructor]].
    intros a b Ha Hb. apply list_elem_of_singleton in Hb as ->.
    rewrite Forall_forall in Hy.
    apply Hy, list_elem_of_In, in_rev, list_elem_of_In, Ha.
Qed.

Lemma insertionSort_sorted l :
  StronglySorted (fun a b => less b a = false) (insertionSort less l).
Proof. apply frontSorted_rev, sink_all_sorted. constructor. Qed.

End InsertionSort.

Lemma smallLib_contract : SortContract smallLib.
Proof.
  intros A less l. split.
  - apply insertionSort_perm.
  - intros Ht Ha. now apply insertionSort_sorted.
Qed.

(** ** The two loops of [GetProcesses] *)

Import Props.

Lemma foldRes_snoc {A B : Type} (f : B -> A -> Res B) l x b :
  foldRes f (l ++ [x]) b =
  match foldRes f l b with
  | Ok b' => f b' x
  | Panic => Panic
  end.
Proof.
  revert b. induction l as [ | y l IH]; intros b; simpl.
  - now destruct (f b x).
  - destruct (f b y); [apply IH | reflexivity].
Qed.

Lemma collect_step `{GoLib} h raw cur entry raw' cur' :
  collect h (raw, cur) entry = Ok (raw', cur') ->
  (raw' = raw /\ cur' = cur /\
   (os.IsDir entry = false \/ GoStr.Atoi (os.Name entry) = None \/
    exists pid, GoStr.Atoi (os.Name entry) = Some pid /\ isClaude h pid = false))
  \/
  (exists rp, raw' = raw ++ [rp] /\ cur' = <[PID (proc rp) := cpu rp]> cur /\
     rawOf h entry rp).
Proof.
  unfold collect.
  destruct (os.IsDir entry) eqn:Edir; simpl.
  2: { intros [= <- <-]. left. auto. }
  destruct (GoStr.Atoi (os.Name entry)) as [pid | ] eqn:Eatoi.
  2: { intros [= <- <-]. left. auto. }
  destruct (isClaude h pid) eqn:Ecl; simpl.
  2: { intros [= <- <-]. left. do 2 (split; [reflexivity | ]). right. right. eauto. }
  destruct (os.Readlink h _) as [cwd | ] eqn:Ereadlink;
    (destruct (getMemoryMB h pid) as [mem | ]; simpl; [ | discriminate]);
    (destruct (getCPUTime h pid) as [ct | ] eqn:Ect; simpl; [ | discriminate]);
    (destruct (getStartTime h pid) as [st | ]; simpl; [ | discriminate]);
    intros [= <- <-]; right; eexists; (split; [reflexivity | ]); simpl;
    unfold rawOf, nameAndDir; simpl; rewrite ?Ereadlink; auto 10.
Qed.

Lemma collect_all `{GoLib} h entries raw cur :
  foldRes (collect h) entries ([], ∅) = Ok (raw, cur) -> collected h entries raw cur.
Proof.
  revert raw cur. induction entries as [ | entry entries IH] using rev_ind; intros raw cur.
  - simpl. intros [= <- <-]. unfold collected, observed. simpl. split; [constructor | ].
    split; [ | split]; [intros pid; split | intros pid; split | ].
    + intros Hin. inversion Hin.
    + intros (e & He & _). inversion He.
    + rewrite lookup_empty. intros [? ?]. discriminate.
    + intros Hin. inversion Hin.
    + intros pid ct. now rewrite lookup_empty.
  - rewrite foldRes_snoc.
    destruct (foldRes (collect h) entries ([], ∅)) as [[raw0 cur0] | ] eqn:E; [ | discriminate].
    specialize (IH _ _ eq_refl). destruct IH as (Hc & Hobs & Hdom & Hval).
    intros Hstep. apply collect_step in Hstep as [(-> & -> & Hskip) | (rp & -> & -> & Hrp)].
    + split; [ | split; [ | split; assumption]].
      { eapply Forall_impl; [exact Hc | ]. intros rp (e & He & Hrp).
        exists e. split; [apply elem_of_app; now left | assumption]. }
      intros pid. rewrite Hobs. unfold observed. split.
      * intros (e & He & Hrest). exists e. split; [ | assumption].
        apply elem_of_app. now left.
      * intros (e & He & Hd & Ha & Hcl).
        apply elem_of_app in He as [He | He]; [now exists e | ].
        apply list_elem_of_singleton in He as ->.
        destruct Hskip as [Hs | [Hs | (pid' & Hs & Hs')]]; congruence.
    + split; [ | split; [ | split]].
      * apply Forall_app. split.
        -- eapply Forall_impl; [exact Hc | ]. intros rp' (e & He & Hrp').
           exists e. split; [apply elem_of_app; now left | assumption].
        -- constructor; [ | constructor]. exists entry.
           split; [apply elem_of_app; right; now apply list_elem_of_singleton | assumption].
      * intros pid. unfold pids in *. rewrite map_app, elem_of_app, Hobs. simpl.
        rewrite list_elem_of_singleton. unfold observed. split.
        -- intros [(e & He & Hrest) | ->].
           ++ exists e. split; [ | assumption]. apply elem_of_app. now left.
           ++ exists entry. split; [apply elem_of_app; right; now apply list_elem_of_singleton | ].
              destruct Hrp as (Hd & Ha & Hcl & _). auto.
        -- intros (e & He & Hd & Ha & Hcl).
           apply elem_of_app in He as [He | He]; [left; now exists e | ].
           apply list_elem_of_singleton in He as ->. right.
           destruct Hrp as (_ & Ha' & _). congruence.
      * intros pid. unfold pids in *. rewrite map_app, elem_of_app. simpl.
        rewrite list_elem_of_singleton, <- Hdom.
        destruct (decide (pid = PID (proc rp))) as [-> | Hne].
        -- rewrite lookup_insert_eq. split; eauto.
        -- rewrite lookup_insert_ne by congruence. split; [auto | intros [? | ?]; [assumption | contradiction]].
      * intros pid ct.
        destruct (decide (pid = PID (proc rp))) as [-> | Hne].
        -- rewrite lookup_insert_eq. intros [= <-]. apply Hrp.
        -- rewrite lookup_insert_ne by congruence. apply Hval.
Qed.

(** The clean-up loop deletes nothing: it tests the map it ranges over. *)
Lemma cleanUp_id (m : gmap Z cpuTime) : cleanUp m = m.
Proof.
  unfold cleanUp. generalize (elements (dom m)). intros l.
  induction l as [ | pid l IH]; simpl; [reflexivity | ].
  destruct (m !! pid) eqn:E; [assumption | ].
  rewrite delete_id by assumption. assumption.
Qed.

Lemma wrap_i64_small z : - 2 ^ 63 <= z < 2 ^ 63 -> wrap_i64 z = z.
Proof. intros Hz. unfold wrap_i64. rewrite Z.mod_small; lia. Qed.

Lemma occurrences_nil b : occurrences b [] = 0.
Proof. reflexivity. Qed.

Lemma occurrences_snoc b names x :
  occurrences b (names ++ [x]) = occurrences b names + (if decide (x = b) then 1 else 0).
Proof.
  unfold occurrences. rewrite filter_app, length_app.
  rewrite filter_cons, filter_nil. destruct (decide (x = b)); simpl; lia.
Qed.

Lemma occurrences_bounds b names : 0 <= occurrences b names <= Z.of_nat (length names).
Proof.
  unfold occurrences. pose proof (length_filter (fun x => x = b) names). lia.
Qed.

Lemma assign_fst pm elapsed ps nc rp :
  exists p, fst (assign pm elapsed (ps, nc) rp) = ps ++ [p] /\ estimated pm elapsed rp p /\
    Name p = shown (Name (proc rp)) (i64_add (default 0 (nc !! Name (proc rp))) 1).
Proof.
  unfold assign. simpl. eexists. split; [reflexivity | ].
  unfold estimated, shown. simpl. auto 10.
Qed.

Lemma assign_snd pm elapsed ps nc rp :
  snd (assign pm elapsed (ps, nc) rp) =
  <[Name (proc rp) := i64_add (default 0 (nc !! Name (proc rp))) 1]> nc.
Proof. reflexivity. Qed.

(** The second loop keeps the order of the sorted list and estimates each
    process on its own. *)
Lemma assign_all_estimated pm elapsed sorted :
  Forall2 (estimated pm elapsed) sorted (fst (fold_left (assign pm elapsed) sorted ([], ∅))).
Proof.
  induction sorted as [ | rp sorted IH] using rev_ind; simpl; [constructor | ].
  rewrite fold_left_app. simpl.
  destruct (fold_left (assign pm elapsed) sorted ([], ∅)) as [ps nc]. simpl in IH.
  destruct (assign_fst pm elapsed ps nc rp) as (p & -> & Hp & _).
  apply Forall2_app; [assumption | ]. constructor; [assumption | constructor].
Qed.

(** The counter of a base name is the number of its occurrences so far, and
    each process is shown under its base name and its rank among the
    processes of that base name up to itself. *)
Lemma assign_all_names pm elapsed sorted :
  Z.of_nat (length sorted) < 2 ^ 63 ->
  (forall b, default 0 (snd (fold_left (assign pm elapsed) sorted ([], ∅)) !! b)
             = occurrences b (baseNames sorted)) /\
  (forall i rp, sorted !! i = Some rp ->
     exists p, fst (fold_left (assign pm elapsed) sorted ([], ∅)) !! i = Some p /\
       Name p = shown (Name (proc rp))
                  (occurrences (Name (proc rp)) (take (S i) (baseNames sorted)))).
Proof.
  induction sorted as [ | rp sorted IH] using rev_ind; intros Hlen.
  - simpl. split; [intros b; now rewrite lookup_empty | intros i rp' Hi; inversion Hi].
  - rewrite length_app in Hlen. simpl in Hlen.
    destruct IH as [IHc IHn]; [lia | ].
    pose proof (assign_all_estimated pm elapsed sorted) as Hlen2.
    apply Forall2_length in Hlen2.
    rewrite fold_left_app. cbn [fold_left].
    destruct (fold_left (assign pm elapsed) sorted ([], ∅)) as [ps nc].
    cbn [fst snd] in IHc, IHn, Hlen2.
    assert (Hn : i64_add (default 0 (nc !! Name (proc rp))) 1
                 = occurrences (Name (proc rp)) (baseNames sorted ++ [Name (proc rp)])).
    { rewrite IHc, occurrences_snoc. rewrite decide_True by reflexivity.
      pose proof (occurrences_bounds (Name (proc rp)) (baseNames sorted)) as Hb.
      unfold i64_add. apply wrap_i64_small.
      replace (length (baseNames sorted)) with (length sorted) in Hb
        by (unfold baseNames; now rewrite length_map).
      lia. }
    unfold baseNames. rewrite map_app. cbn [map]. fold (baseNames sorted).
    split.
    + intros b. rewrite assign_snd, Hn.
      destruct (decide (Name (proc rp) = b)) as [<- | Hne].
      * now rewrite lookup_insert_eq.
      * rewrite lookup_insert_ne by assumption. rewrite IHc, occurrences_snoc.
        rewrite decide_False by assumption. lia.
    + intros i rp' Hi.
      destruct (assign_fst pm elapsed ps nc rp) as (p & -> & _ & Hname).
      destruct (decide (i < length sorted)%nat) as [Hlt | Hge].
      * rewrite lookup_app_l in Hi by assumption.
        destruct (IHn i rp' Hi) as (p' & Hp' & Hname').
        exists p'. split.
        -- rewrite lookup_app_l by (apply lookup_lt_Some in Hp'; assumption). assumption.
        -- rewrite take_app_le; [assumption | ].
           unfold baseNames. rewrite length_map. lia.
      * assert (i = length sorted) as ->.
        { apply lookup_lt_Some in Hi. rewrite length_app in Hi. simpl in Hi. lia. }
        rewrite list_lookup_middle in Hi by reflexivity. injection Hi as <-.
        exists p. split.
        -- rewrite Hlen2. apply list_lookup_middle. reflexivity.
        -- rewrite Hname, Hn. f_equal. f_equal.
           rewrite take_ge; [reflexivity | ].
           rewrite length_app. unfold baseNames. rewrite length_map. simpl. lia.
Qed.

(** ** [GetProcesses] as a whole *)

(** A call that returns a list has read [/proc], run the two loops, and
    replaced the state by what it read. *)
Lemma GetProcesses_ok `{GoLib} h pm pm' procs :
  GetProcesses h pm = Ok (pm', inl procs) ->
  exists entries raw,
    os.ReadDir h "/proc" = Some entries /\
    foldRes (collect h) entries ([], ∅) = Ok (raw, prevCPUTimes pm') /\
    procs = fst (fold_left (assign pm (interval h pm)) (sortSlice lessStartTime raw) ([], ∅)) /\
    prevSample pm' = os.Now h /\ clkTck pm' = clkTck pm.
Proof.
  unfold GetProcesses.
  destruct (os.ReadDir h "/proc") as [entries | ]; [ | discriminate].
  destruct (foldRes (collect h) entries ([], ∅)) as [[raw cur] | ] eqn:E; simpl; [ | discriminate].
  fold (interval h pm).
  destruct (fold_left _ _ _) as [ps nc] eqn:E2.
  intros [= <- <-]. exists entries, raw. simpl. rewrite cleanUp_id, E2. auto.
Qed.

(** A call returns the error exactly when [/proc] cannot be listed, and then
    the monitor is as it was. *)
Lemma GetProcesses_error `{GoLib} h pm pm' e :
  GetProcesses h pm = Ok (pm', inr e) <->
  os.ReadDir h "/proc" = None /\ pm' = pm /\ e = failedToReadProc.
Proof.
  unfold GetProcesses.
  destruct (os.ReadDir h "/proc") as [entries | ].
  - split; [ | intros [? _]; discriminate].
    destruct (foldRes (collect h) entries ([], ∅)) as [[raw cur] | ]; simpl; [ | discriminate].
    destruct (fold_left _ _ _). discriminate.
  - split.
    + intros [= <- <-]. auto.
    + intros (_ & -> & ->). reflexivity.
Qed.

(** Every process of the result comes from a candidate of the first loop. *)
Lemma GetProcesses_elem `{lib : GoLib} h pm pm' procs p :
  SortContract lib ->
  GetProcesses h pm = Ok (pm', inl procs) ->
  p ∈ procs ->
  exists entries rp,
    os.ReadDir h "/proc" = Some entries /\
    candidate h entries rp /\ estimated pm (interval h pm) rp p.
Proof.
  intros Hsort Hok Hp.
  destruct (GetProcesses_ok _ _ _ _ Hok) as (entries & raw & Hdir & Hraw & -> & _).
  apply collect_all in Hraw as (Hcand & _).
  pose proof (assign_all_estimated pm (interval h pm) (sortSlice lessStartTime raw)) as Hall.
  apply list_elem_of_lookup in Hp as [i Hi].
  destruct (Forall2_lookup_r _ _ _ _ _ Hall Hi) as (rp & Hrp & Hest).
  exists entries, rp. split; [assumption | ]. split; [ | assumption].
  rewrite Forall_forall in Hcand. apply Hcand.
  destruct (Hsort _ lessStartTime raw) as [Hperm _].
  rewrite <- Hperm. apply list_elem_of_lookup. eauto.
Qed.

Lemma estimated_pids pm elapsed l ps :
  Forall2 (estimated pm elapsed) l ps -> map PID ps = pids l.
Proof.
  induction 1 as [ | rp p l ps Hrp _ IH]; simpl; [reflexivity | ].
  destruct Hrp as (Hpid & _). now rewrite Hpid, IH.
Qed.

(** The ids of the result are the ids of the candidates. *)
Lemma GetProcesses_pids `{lib : GoLib} h pm pm' procs :
  SortContract lib ->
  GetProcesses h pm = Ok (pm', inl procs) ->
  exists entries raw,
    os.ReadDir h "/proc" = Some entries /\
    collected h entries raw (prevCPUTimes pm') /\
    Permutation (map PID procs) (pids raw).
Proof.
  intros Hsort Hok.
  destruct (GetProcesses_ok _ _ _ _ Hok) as (entries & raw & Hdir & Hraw & -> & _).
  exists entries, raw. split; [assumption | ]. split; [now apply collect_all | ].
  pose proof (assign_all_estimated pm (interval h pm) (sortSlice lessStartTime raw)) as Hall.
  destruct (Hsort _ lessStartTime raw) as [Hperm _].
  unfold pids.
  rewrite (estimated_pids _ _ _ _ Hall). now apply Permutation_map.
Qed.

(** ** The CPU estimator *)

Import Examples Polls.

Lemma demo_poll : GetProcesses demoHost demoMonitor = Ok (demoMonitor', inl [demoProcess]).
Proof. vm_compute. reflexivity. Qed.

Lemma stale_poll : GetProcesses demoHost staleMonitor = Ok (demoMonitor', inl [demoProcess]).
Proof. vm_compute. reflexivity. Qed.

(** C1. For a process that has a previous counter pair, [GetProcesses] computes
    the percentage from the tick delta
    [(curUser - prevUser) + (curStime - prevStime)] (the difference of the
    totals when the counters did not go down), divided by the ticks per second
    and by the elapsed seconds, floored to 0.1, and multiplied by 100; the
    result is the clamp of that value, lies between 0 and 100, and is exactly
    100 when the tick math exceeds 100.  With a prior total of 1000 ticks, a
    current total of 1150 ticks, 5.0 seconds and 100 ticks per second it is
    exactly 30.0, also through a whole poll. *)
Theorem C1_cpu_percentage :
  (forall (lib : GoLib) h pm pm' procs p prev,
     SortContract lib ->
     GetProcesses h pm = Ok (pm', inl procs) ->
     clkTck pm = F64.c100 ->
     p ∈ procs ->
     prevCPUTimes pm !! PID p = Some prev ->
     exists ct,
       getCPUTime h (PID p) = Ok ct /\
       let gap := GoTime.Seconds (GoTime.Sub (os.Now h) (prevSample pm)) in
       let elapsed := if F64.ltb gap F64.c0_1 then F64.c0_1 else gap in
       let deltaTicks :=
         u64_add (u64_sub (utime ct) (utime prev)) (u64_sub (stime ct) (stime prev)) in
       let percent :=
         F64.mul (F64.div (F64.div (F64.of_Z deltaTicks) (clkTck pm)) elapsed) F64.c100 in
       F64.leb F64.c0_1 elapsed = true /\
       (0 <= (utime ct + stime ct) - (utime prev + stime prev) < 2 ^ 64 ->
        deltaTicks = (utime ct - utime prev) + (stime ct - stime prev)) /\
       CPUPercent p = clampPercent percent /\
       (F64.ltb percent F64.zero = false -> F64.ltb F64.c100 percent = false ->
        CPUPercent p = percent) /\
       (F64.ltb F64.c100 percent = true -> CPUPercent p = F64.c100) /\
       F64.leb F64.zero (CPUPercent p) = true /\
       F64.leb (CPUPercent p) F64.c100 = true) /\
  (forall prev ct,
     utime prev + stime prev = 1000 ->
     utime ct + stime ct = 1150 ->
     cpuPercent F64.c100 (floorElapsed (GoTime.Seconds (5 * GoTime.Second))) prev ct
     = F64.of_Z 30) /\
  (exists pm' p,
     GetProcesses demoHost demoMonitor = Ok (pm', inl [p]) /\
     PID p = 10 /\ CPUPercent p = F64.of_Z 30).
Proof.
  split; [ | split].
  - intros lib h pm pm' procs p prev Hsort Hok Hclk Hp Hprev.
    pose proof (Seconds_finite _ (Sub_range (os.Now h) (prevSample pm))) as Hfin.
    destruct (GetProcesses_elem _ _ _ _ _ Hsort Hok Hp)
      as (entries & rp & _ & (entry & _ & Hraw) & Hest).
    destruct Hraw as (_ & _ & _ & _ & _ & Hct).
    destruct Hest as (Hpid & _ & _ & _ & Hpercent).
    rewrite <- Hpid in Hpercent, Hct. rewrite Hprev in Hpercent.
    exists (cpu rp). split; [assumption | ].
    cbv zeta.
    change (if F64.ltb (GoTime.Seconds (GoTime.Sub (os.Now h) (prevSample pm))) F64.c0_1
            then F64.c0_1
            else GoTime.Seconds (GoTime.Sub (os.Now h) (prevSample pm)))
      with (interval h pm).
    fold (tickPercent (clkTck pm) (interval h pm) prev (cpu rp)).
    unfold cpuPercent in Hpercent. rewrite Hpercent, Hclk.
    assert (Hnan : tickPercent F64.c100 (interval h pm) prev (cpu rp) <> S754_nan)
      by now apply tickPercent_not_nan.
    split; [ | split; [ | split; [reflexivity | split; [ | split]]]].
    + apply floorElapsed_ge. intros Heq. now rewrite Heq in Hfin.
    + intros Hmono. rewrite tick_delta_total by assumption. lia.
    + apply clampPercent_inside.
    + apply clampPercent_above.
    + now apply clampPercent_range.
  - intros prev ct Hprev Hct. unfold cpuPercent, tickPercent.
    rewrite tick_delta_total by lia.
    replace (utime ct + stime ct - (utime prev + stime prev)) with 150 by lia.
    vm_compute. reflexivity.
  - exists demoMonitor', demoProcess. split; [exact demo_poll | ]. split; reflexivity.
Qed.

Lemma C1_cpu_percentage_witness :
  exists ct,
    getCPUTime demoHost 10 = Ok ct /\
    CPUPercent demoProcess
    = clampPercent
        (F64.mul (F64.div (F64.div
           (F64.of_Z (u64_add (u64_sub (utime ct) 800) (u64_sub (stime ct) 200)))
           F64.c100) (interval demoHost demoMonitor)) F64.c100) /\
    F64.leb F64.zero (CPUPercent demoProcess) = true /\
    F64.leb (CPUPercent demoProcess) F64.c100 = true.
Proof.
  destruct (proj1 C1_cpu_percentage smallLib demoHost demoMonitor demoMonitor' [demoProcess]
              demoProcess {| utime := 800; stime := 200 |})
    as (ct & Hct & _ & _ & Heq & _ & _ & Hlo & Hhi).
  - exact smallLib_contract.
  - vm_compute. reflexivity.
  - reflexivity.
  - apply list_elem_of_singleton. reflexivity.
  - vm_compute. reflexivity.
  - exists ct. auto.
Defined.

(** C3 (the code departs from it).  The current total of pid 10 is 900 ticks,
    less than the 1000 ticks recorded before.  The unsigned subtraction wraps
    around, the percentage is far above 100, and the poll reports 100, not 0. *)
Theorem C3_counters_gone_down_report_100 :
  let prev := {| utime := 800; stime := 200 |} in
  let ct := {| utime := 700; stime := 200 |} in
  utime ct + stime ct < utime prev + stime prev /\
  prevCPUTimes demoMonitor !! 10 = Some prev /\
  getCPUTime regressedHost 10 = Ok ct /\
  u64_add (u64_sub (utime ct) (utime prev)) (u64_sub (stime ct) (stime prev)) = 2 ^ 64 - 100 /\
  F64.ltb F64.c100 (tickPercent F64.c100 (interval regressedHost demoMonitor) prev ct) = true /\
  exists pm' p,
    GetProcesses regressedHost demoMonitor = Ok (pm', inl [p]) /\
    PID p = 10 /\ CPUPercent p = F64.c100 /\ CPUPercent p <> F64.zero.
Proof.
  cbv zeta. split; [simpl; lia | ].
  split; [vm_compute; reflexivity | ].
  split; [vm_compute; reflexivity | ].
  split; [vm_compute; reflexivity | ].
  split; [vm_compute; reflexivity | ].
  eexists _, _. split; [vm_compute; reflexivity | ].
  split; [reflexivity | ]. split; [reflexivity | discriminate].
Qed.

(** C4. After a call that succeeds the map of the estimator holds exactly the
    ids observed in that poll, which are the ids of the processes returned,
    each with the counter pair read in that poll. *)
Theorem C4_state_is_exactly_the_poll (lib : GoLib) h pm pm' procs :
  SortContract lib ->
  GetProcesses h pm = Ok (pm', inl procs) ->
  exists entries,
    os.ReadDir h "/proc" = Some entries /\
    forall pid,
      (is_Some (prevCPUTimes pm' !! pid) <-> observed h entries pid) /\
      (is_Some (prevCPUTimes pm' !! pid) <-> pid ∈ map PID procs) /\
      (forall ct, prevCPUTimes pm' !! pid = Some ct -> getCPUTime h pid = Ok ct).
Proof.
  intros Hsort Hok.
  destruct (GetProcesses_pids _ _ _ _ Hsort Hok)
    as (entries & raw & Hdir & (_ & Hobs & Hdom & Hval) & Hperm).
  exists entries. split; [assumption | ]. intros pid.
  split; [ | split].
  - now rewrite Hdom, Hobs.
  - now rewrite Hdom, Hperm.
  - apply Hval.
Qed.

Lemma C4_state_is_exactly_the_poll_witness :
  exists entries,
    os.ReadDir demoHost "/proc" = Some entries /\
    forall pid,
      (is_Some (prevCPUTimes demoMonitor' !! pid) <-> observed demoHost entries pid) /\
      (is_Some (prevCPUTimes demoMonitor' !! pid) <-> pid ∈ map PID [demoProcess]) /\
      (forall ct, prevCPUTimes demoMonitor' !! pid = Some ct -> getCPUTime demoHost pid = Ok ct).
Proof.
  apply (C4_state_is_exactly_the_poll smallLib demoHost staleMonitor demoMonitor' [demoProcess]).
  - exact smallLib_contract.
  - exact stale_poll.
Defined.

(** C7. In a poll, a process for which the estimator holds no counter pair
    (the poll observes its id for the first time) is reported with a CPU
    percentage of exactly 0, whatever state the earlier polls have left.  So
    is every process in the first poll of a new monitor, and every process
    that the preceding poll did not return. *)
Theorem C7_first_observation_is_zero (lib : GoLib) :
  SortContract lib ->
  (forall h pm pm' procs p,
     GetProcesses h pm = Ok (pm', inl procs) ->
     p ∈ procs ->
     prevCPUTimes pm !! PID p = None ->
     CPUPercent p = F64.zero) /\
  (forall now h pm' procs p,
     GetProcesses h (NewProcessMonitor now) = Ok (pm', inl procs) ->
     p ∈ procs ->
     CPUPercent p = F64.zero) /\
  (forall h1 h2 pm0 pm1 pm2 procs1 procs2 p,
     GetProcesses h1 pm0 = Ok (pm1, inl procs1) ->
     GetProcesses h2 pm1 = Ok (pm2, inl procs2) ->
     p ∈ procs2 ->
     PID p ∉ map PID procs1 ->
     CPUPercent p = F64.zero).
Proof.
  intros Hsort.
  assert (Hfirst : forall h pm pm' procs p,
            GetProcesses h pm = Ok (pm', inl procs) -> p ∈ procs ->
            prevCPUTimes pm !! PID p = None -> CPUPercent p = F64.zero).
  { intros h pm pm' procs p Hok Hp Hnone.
    destruct (GetProcesses_elem _ _ _ _ _ Hsort Hok Hp)
      as (entries & rp & _ & (entry & _ & Hraw) & Hest).
    destruct Hraw as (_ & _ & _ & _ & Hzero & _).
    destruct Hest as (Hpid & _ & _ & _ & Hpercent).
    rewrite <- Hpid, Hnone in Hpercent. congruence. }
  split; [exact Hfirst | ]. split.
  - intros now h pm' procs p Hok Hp. apply (Hfirst _ _ _ _ _ Hok Hp).
    apply lookup_empty.
  - intros h1 h2 pm0 pm1 pm2 procs1 procs2 p Hok1 Hok2 Hp Hnew.
    apply (Hfirst _ _ _ _ _ Hok2 Hp).
    destruct (GetProcesses_pids _ _ _ _ Hsort Hok1)
      as (entries & raw & _ & (_ & _ & Hdom & _) & Hperm).
    apply eq_None_not_Some. rewrite Hdom, <- Hperm. exact Hnew.
Qed.

Lemma C7_first_observation_is_zero_witness :
  exists pm' p,
    GetProcesses demoHost (NewProcessMonitor 0) = Ok (pm', inl [p]) /\
    PID p = 10 /\ CPUPercent p = F64.zero.
Proof.
  eexists _, _. split; [vm_compute; reflexivity | ]. split; [reflexivity | ].
  eapply (proj1 (C7_first_observation_is_zero smallLib smallLib_contract)
            demoHost (NewProcessMonitor 0)).
  - vm_compute. reflexivity.
  - apply list_elem_of_singleton. reflexivity.
  - vm_compute. reflexivity.
Defined.

(** ** Ordering and naming *)

Lemma StronglySorted_Forall2 {A B : Type} (R : A -> B -> Prop)
    (S : A -> A -> Prop) (S' : B -> B -> Prop) l k :
  (forall a b a' b', R a a' -> R b b' -> S a b -> S' a' b') ->
  Forall2 R l k -> StronglySorted S l -> StronglySorted S' k.
Proof.
  intros Hrel Hall. induction Hall as [ | a a' l k Ha Hall IH]; intros Hs.
  - constructor.
  - apply StronglySorted_cons in Hs as [Hhd Hs]. constructor; [auto | ].
    clear IH Hs. induction Hall as [ | b b' l k Hb _ IH]; [constructor | ].
    inversion Hhd; subst. constructor; eauto.
Qed.

Lemma lessStartTime_negtrans (a b c : rawProcess) :
  lessStartTime b a = false -> lessStartTime c b = false -> lessStartTime c a = false.
Proof. unfold lessStartTime. rewrite !Z.ltb_ge. lia. Qed.

Lemma lessStartTime_asym (a b : rawProcess) :
  lessStartTime a b = true -> lessStartTime b a = false.
Proof. unfold lessStartTime. rewrite Z.ltb_lt, Z.ltb_ge. lia. Qed.

Lemma tie_poll :
  exists pm' p q,
    GetProcesses tieHost (NewProcessMonitor 0) = Ok (pm', inl [p; q]) /\
    StartTime p = StartTime q /\ PID p = 10 /\ PID q = 9.
Proof. eexists _, _, _. split; [vm_compute; reflexivity | ]. auto. Qed.

(** C5 as stated does not hold: pids 10 and 9 have the same start
    time, [/proc] lists ["10"] before ["9"], and the poll returns pid 10
    before pid 9. *)
Lemma C5_ties_not_broken_by_pid :
  (exists pm' p q,
     GetProcesses tieHost (NewProcessMonitor 0) = Ok (pm', inl [p; q]) /\
     StartTime p = StartTime q /\ PID q < PID p) /\
  ~ tiesByPid smallLib.
Proof.
  destruct tie_poll as (pm' & p & q & Hpoll & Hst & Hp & Hq).
  split.
  - exists pm', p, q. split; [assumption | ]. split; [assumption | lia].
  - intros Hties.
    specialize (Hties tieHost (NewProcessMonitor 0) pm' [p; q] 1%nat 0%nat q p Hpoll
                  eq_refl eq_refl).
    assert (1 < 0)%nat; [apply Hties; [congruence | lia] | lia].
Qed.

(** C5, amended.  [GetProcesses] returns the candidates in ascending order of
    start time: no process is preceded by one that started later.  (Among
    equal start times the order is the one [sort.Slice] leaves.) *)
Theorem C5_sorted_by_start_time (lib : GoLib) h pm pm' procs :
  SortContract lib ->
  GetProcesses h pm = Ok (pm', inl procs) ->
  StronglySorted (fun p q => StartTime p <= StartTime q) procs /\
  (forall i j p q,
     procs !! i = Some p -> procs !! j = Some q -> (i < j)%nat ->
     StartTime p <= StartTime q).
Proof.
  intros Hsort Hok.
  destruct (GetProcesses_ok _ _ _ _ Hok) as (entries & raw & _ & _ & -> & _).
  pose proof (assign_all_estimated pm (interval h pm) (sortSlice lessStartTime raw)) as Hall.
  destruct (Hsort _ lessStartTime raw) as [_ Hsorted].
  specialize (Hsorted lessStartTime_negtrans lessStartTime_asym).
  assert (Hres : StronglySorted (fun p q => StartTime p <= StartTime q)
                   (fst (fold_left (assign pm (interval h pm))
                           (sortSlice lessStartTime raw) ([], ∅)))).
  { eapply StronglySorted_Forall2; [ | exact Hall | exact Hsorted].
    intros a b a' b' (_ & _ & _ & Ha & _) (_ & _ & _ & Hb & _) Hab.
    simpl in Hab. unfold lessStartTime in Hab. apply Z.ltb_ge in Hab. lia. }
  split; [assumption | ].
  intros i j p q Hi Hj Hij.
  revert Hres i j p q Hi Hj Hij. generalize (fst (fold_left (assign pm (interval h pm))
                           (sortSlice lessStartTime raw) ([], ∅))).
  intros l Hl. induction Hl as [ | x l Hl IH Hx]; intros i j p q Hi Hj Hij.
  - inversion Hi.
  - destruct j as [ | j]; [lia | ]. simpl in Hj.
    destruct i as [ | i]; simpl in Hi.
    + injection Hi as <-. rewrite Forall_forall in Hx. apply Hx.
      apply list_elem_of_lookup. eauto.
    + apply (IH i j); [assumption | assumption | lia].
Qed.

Lemma C5_sorted_by_start_time_witness :
  exists pm' p q r,
    GetProcesses projHost (NewProcessMonitor 0) = Ok (pm', inl [p; q; r]) /\
    PID p = 30 /\ PID q = 20 /\ PID r = 10 /\
    StartTime p <= StartTime q /\ StartTime q <= StartTime r.
Proof.
  eexists _, _, _, _. split; [vm_compute; reflexivity | ].
  do 3 (split; [reflexivity | ]).
  edestruct (C5_sorted_by_start_time smallLib projHost (NewProcessMonitor 0)) as [_ Hord].
  - exact smallLib_contract.
  - vm_compute. reflexivity.
  - split; [apply (Hord 0%nat 1%nat) | apply (Hord 1%nat 2%nat)]; (reflexivity || lia).
Defined.

Lemma map_lookup {A B : Type} (f : A -> B) (l : list A) (i : nat) :
  map f l !! i = f <$> (l !! i).
Proof.
  revert i. induction l as [ | x l IH]; intros [ | i]; simpl; auto.
Qed.

Lemma occurrences_at b names i :
  names !! i = Some b -> 1 <= occurrences b (take (S i) names).
Proof.
  intros Hi. rewrite (take_S_r _ _ _ Hi), occurrences_snoc.
  rewrite decide_True by reflexivity.
  pose proof (occurrences_bounds b (take i names)). lia.
Qed.

Lemma append_assoc (s1 s2 s3 : string) : (s1 +:+ s2) +:+ s3 = s1 +:+ (s2 +:+ s3).
Proof.
  induction s1 as [ | c s1 IH]; [reflexivity | ].
  change (String c ((s1 +:+ s2) +:+ s3) = String c (s1 +:+ s2 +:+ s3)).
  now f_equal.
Qed.

Lemma shown_cases b n :
  1 <= n ->
  (n = 1 -> shown b n = b) /\
  (n = 2 -> shown b n = b +:+ " (2nd)") /\
  (n = 3 -> shown b n = b +:+ " (3rd)") /\
  (4 <= n -> shown b n = b +:+ " (" +:+ GoStr.Itoa n +:+ "th)").
Proof.
  intros Hn. unfold shown, withSuffix, getOrdinalSuffix.
  split; [intros ->; reflexivity | ].
  split; [intros ->; reflexivity | ].
  split; [intros ->; reflexivity | ].
  intros H4.
  replace (1 <? n) with true by (symmetry; apply Z.ltb_lt; lia).
  replace (n =? 2) with false by (symmetry; apply Z.eqb_neq; lia).
  replace (n =? 3) with false by (symmetry; apply Z.eqb_neq; lia).
  now rewrite append_assoc.
Qed.

(** C6. In the start-time-ordered list of a poll, the process at each position
    is shown under its base name when it is the first of that base name up to
    there, and under the base name followed by [(2nd)], [(3rd)] or [(Nth)]
    when it is the second, the third or the Nth (N at least 4).  Processes in
    [/a/proj], [/b/proj] and [/c/other], started in this order, are named
    [proj], [proj (2nd)] and [other]; two more processes in directories named
    [proj], started later, are named [proj (3rd)] and [proj (4th)]. *)
Theorem C6_names_by_rank :
  (forall (lib : GoLib) h pm pm' procs,
     GetProcesses h pm = Ok (pm', inl procs) ->
     Z.of_nat (length procs) < 2 ^ 63 ->
     exists entries raw current,
       os.ReadDir h "/proc" = Some entries /\
       foldRes (collect h) entries ([], ∅) = Ok (raw, current) /\
       let sorted := sortSlice lessStartTime raw in
       length procs = length sorted /\
       forall i rp,
         sorted !! i = Some rp ->
         exists p,
           procs !! i = Some p /\ PID p = PID (proc rp) /\
           let b := Name (proc rp) in
           let n := occurrences b (take (S i) (baseNames sorted)) in
           1 <= n /\
           (n = 1 -> Name p = b) /\
           (n = 2 -> Name p = b +:+ " (2nd)") /\
           (n = 3 -> Name p = b +:+ " (3rd)") /\
           (4 <= n -> Name p = b +:+ " (" +:+ GoStr.Itoa n +:+ "th)")) /\
  (exists pm' p q r,
     GetProcesses projHost (NewProcessMonitor 0) = Ok (pm', inl [p; q; r]) /\
     (WorkingDir p, Name p) = ("/a/proj", "proj") /\
     (WorkingDir q, Name q) = ("/b/proj", "proj (2nd)") /\
     (WorkingDir r, Name r) = ("/c/other", "other") /\
     StartTime p < StartTime q < StartTime r) /\
  (exists pm' p q r s t,
     GetProcesses fourProjHost (NewProcessMonitor 0) = Ok (pm', inl [p; q; r; s; t]) /\
     (WorkingDir p, Name p) = ("/a/proj", "proj") /\
     (WorkingDir q, Name q) = ("/b/proj", "proj (2nd)") /\
     (WorkingDir r, Name r) = ("/c/other", "other") /\
     (WorkingDir s, Name s) = ("/d/proj", "proj (3rd)") /\
     (WorkingDir t, Name t) = ("/e/proj", "proj (4th)")).
Proof.
  split; [ | split].
  - intros lib h pm pm' procs Hok Hlen.
    destruct (GetProcesses_ok _ _ _ _ Hok) as (entries & raw & Hdir & Hraw & Hprocs & _).
    exists entries, raw, (prevCPUTimes pm'). split; [assumption | ]. split; [assumption | ].
    cbv zeta.
    pose proof (assign_all_estimated pm (interval h pm) (sortSlice lessStartTime raw)) as Hall.
    rewrite <- Hprocs in Hall.
    pose proof (Forall2_length _ _ _ Hall) as Hl.
    split; [congruence | ].
    intros i rp Hi.
    destruct (Forall2_lookup_l _ _ _ _ _ Hall Hi) as (p & Hp & Hest).
    exists p. split; [assumption | ]. split; [apply Hest | ].
    destruct (assign_all_names pm (interval h pm) (sortSlice lessStartTime raw)) as [_ Hn];
      [lia | ].
    destruct (Hn i rp Hi) as (p' & Hp' & Hname).
    rewrite <- Hprocs in Hp'. assert (p' = p) as -> by congruence.
    assert (H1 : 1 <= occurrences (Name (proc rp))
                        (take (S i) (baseNames (sortSlice lessStartTime raw)))).
    { apply occurrences_at. unfold baseNames. now rewrite map_lookup, Hi. }
    split; [assumption | ]. rewrite Hname. now apply shown_cases.
  - eexists _, _, _, _. split; [vm_compute; reflexivity | ].
    do 3 (split; [reflexivity | ]). simpl. lia.
  - eexists _, _, _, _, _, _. split; [vm_compute; reflexivity | ].
    do 4 (split; [reflexivity | ]). reflexivity.
Qed.

Lemma C6_names_by_rank_witness :
  exists pm' p q r,
    GetProcesses projHost (NewProcessMonitor 0) = Ok (pm', inl [p; q; r]) /\
    Name p = "proj"%string /\ Name q = "proj (2nd)"%string /\ Name r = "other"%string /\
    exists entries raw current,
      os.ReadDir projHost "/proc" = Some entries /\
      foldRes (collect projHost) entries ([], ∅) = Ok (raw, current) /\
      length [p; q; r] = length (sortSlice lessStartTime raw).
Proof.
  eexists _, _, _, _. split; [vm_compute; reflexivity | ].
  do 3 (split; [reflexivity | ]).
  edestruct (proj1 C6_names_by_rank smallLib projHost (NewProcessMonitor 0))
    as (entries & raw & current & Hdir & Hraw & Hlen & _).
  - vm_compute. reflexivity.
  - simpl. lia.
  - exists entries, raw, current. auto.
Defined.

(** ** Failures of single reads *)

(** A [statm] record that cannot be read, is too short, or whose second field
    is no number gives a memory of 0; the read never panics. *)
Lemma getMemoryMB_total h pid : exists m, getMemoryMB h pid = Ok m.
Proof.
  unfold getMemoryMB. destruct (os.ReadFile h _) as [data | ]; [ | eauto].
  destruct (Z.of_nat (length (GoStr.Fields data)) <? 2) eqn:E; [eauto | ].
  apply Z.ltb_ge in E. unfold GoStr.index.
  replace ((0 <=? 1) && (1 <? Z.of_nat (length (GoStr.Fields data)))) with true
    by (symmetry; apply andb_true_iff; split; [reflexivity | apply Z.ltb_lt; lia]).
  destruct (GoStr.Fields data !! Z.to_nat 1) as [f1 | ] eqn:E1.
  - cbn [mbind Res_bind]. destruct (GoStr.ParseUint f1) as [rss [ | ]]; eauto.
  - apply lookup_ge_None in E1. simpl in E1. lia.
Qed.

Lemma getMemoryMB_unreadable h pid :
  os.ReadFile h (GoStr.procPath (GoStr.Itoa pid) "statm") = None ->
  getMemoryMB h pid = Ok F64.zero.
Proof. unfold getMemoryMB. now intros ->. Qed.

Lemma getCPUTime_unreadable h pid :
  os.ReadFile h (GoStr.procPath (GoStr.Itoa pid) "stat") = None ->
  getCPUTime h pid = Ok {| utime := 0; stime := 0 |}.
Proof. unfold getCPUTime. now intros ->. Qed.

(** C9 (the code departs from it).  [/proc] is listed, pid 10 passes the
    identity check, and its [stat] record has exactly twelve fields after the
    command name.  The guard [len(fields) < 12] lets the record through, the
    read of [fields[12]] is out of range, and the call panics instead of
    reporting zero counters. *)
Theorem C9_short_stat_record_panics :
  os.ReadDir truncatedHost "/proc" = Some [dir "10"] /\
  isClaude truncatedHost 10 = true /\
  (exists rest,
     GoStr.sliceFrom truncatedStat (GoStr.LastIndexByte truncatedStat ")"%char + 2) = Ok rest /\
     length (GoStr.Fields rest) = 12%nat /\
     GoStr.index (GoStr.Fields rest) 12 = Panic (A := string)) /\
  getCPUTime truncatedHost 10 = Panic /\
  GetProcesses truncatedHost (NewProcessMonitor 0) = Panic.
Proof.
  split; [reflexivity | ]. split; [vm_compute; reflexivity | ].
  split; [eexists; split; [vm_compute; reflexivity | split; vm_compute; reflexivity] | ].
  split; vm_compute; reflexivity.
Qed.

(** ** Further properties of the process monitor *)

Import More Cases.

(** White space beyond ASCII is white space to the identity check and to the
    splitting of records: the process of [nbspHost] is polled, with the
    counters on both sides of the no-break space. *)
Lemma nbsp_is_white_space :
  GoStr.TrimSpace ("claude" +:+ nbsp +:+ String "010"%char EmptyString) = "claude"%string /\
  isClaude nbspHost 10 = true /\
  getCPUTime nbspHost 10 = Ok {| utime := 900; stime := 250 |} /\
  exists pm', GetProcesses nbspHost demoMonitor = Ok (pm', inl [demoProcess]).
Proof.
  split; [reflexivity | ]. split; [reflexivity | ]. split; [vm_compute; reflexivity | ].
  eexists. vm_compute. reflexivity.
Qed.

Lemma digitVal_range c d : GoStr.digitVal c = Some d -> 0 <= d <= 9.
Proof.
  unfold GoStr.digitVal.
  destruct ((48 <=? Z.of_nat (nat_of_ascii c)) && (Z.of_nat (nat_of_ascii c) <=? 57)) eqn:E;
    [ | discriminate].
  apply andb_true_iff in E as [E1 E2]. apply Z.leb_le in E1, E2. intros [= <-]. lia.
Qed.

Lemma parseUintLoop_range s : forall n,
  0 <= n <= uint64_max -> 0 <= fst (GoStr.parseUintLoop n s) <= uint64_max.
Proof.
  induction s as [ | c s IH]; intros n Hn; simpl; [assumption | ].
  destruct (GoStr.digitVal c) as [d | ] eqn:Ed; [ | simpl; unfold uint64_max; lia].
  apply digitVal_range in Ed.
  destruct (uint64_max / 10 + 1 <=? n); [simpl; unfold uint64_max; lia | ].
  destruct (uint64_max <? n * 10 + d) eqn:E; [simpl; unfold uint64_max; lia | ].
  apply Z.ltb_ge in E. apply IH. lia.
Qed.

Lemma ParseUint_range s : 0 <= fst (GoStr.ParseUint s) <= uint64_max.
Proof.
  destruct s as [ | c s]; [simpl; unfold uint64_max; lia | ].
  apply parseUintLoop_range. unfold uint64_max. lia.
Qed.

(** X1. Every counter [getCPUTime] returns is a valid [uint64], whatever the
    [stat] record holds, and so is every counter the estimator keeps after a
    poll. *)
Theorem X1_counters_are_uint64 :
  (forall h pid ct,
     getCPUTime h pid = Ok ct ->
     0 <= utime ct <= uint64_max /\ 0 <= stime ct <= uint64_max) /\
  (forall (lib : GoLib) h pm pm' procs pid ct,
     GetProcesses h pm = Ok (pm', inl procs) ->
     prevCPUTimes pm' !! pid = Some ct ->
     0 <= utime ct <= uint64_max /\ 0 <= stime ct <= uint64_max).
Proof.
  assert (Hread : forall h pid ct, getCPUTime h pid = Ok ct ->
            0 <= utime ct <= uint64_max /\ 0 <= stime ct <= uint64_max).
  { intros h pid ct. unfold getCPUTime.
    assert (Hzero : 0 <= 0 <= uint64_max) by (unfold uint64_max; lia).
    destruct (os.ReadFile h _) as [content | ]; [ | intros [= <-]; simpl; auto].
    destruct ((_ =? -1) || _); [intros [= <-]; simpl; auto | ].
    destruct (GoStr.sliceFrom content _) as [rest | ]; simpl; [ | discriminate].
    destruct (_ <? 12); [intros [= <-]; simpl; auto | ].
    destruct (GoStr.index _ 11) as [f11 | ]; simpl; [ | discriminate].
    destruct (GoStr.index _ 12) as [f12 | ]; simpl; [ | discriminate].
    intros [= <-]. simpl. split; apply ParseUint_range. }
  split; [exact Hread | ].
  intros lib h pm pm' procs pid ct Hok Hct.
  destruct (GetProcesses_ok _ _ _ _ Hok) as (entries & raw & _ & Hraw & _).
  apply collect_all in Hraw as (_ & _ & _ & Hval).
  eapply Hread, Hval, Hct.
Qed.

Lemma X1_counters_are_uint64_witness :
  exists ct, getCPUTime demoHost 10 = Ok ct /\
    0 <= utime ct <= uint64_max /\ 0 <= stime ct <= uint64_max.
Proof.
  eexists. split; [vm_compute; reflexivity | ].
  apply (proj1 X1_counters_are_uint64 demoHost 10). vm_compute. reflexivity.
Defined.

(** X2. With 100 ticks per second, every process a poll returns has a CPU
    percentage between 0 and 100 (in particular it is no NaN), whether it was
    seen before or not. *)
Theorem X2_every_percentage_in_range (lib : GoLib) h pm pm' procs p :
  SortContract lib ->
  GetProcesses h pm = Ok (pm', inl procs) ->
  clkTck pm = F64.c100 ->
  p ∈ procs ->
  F64.leb F64.zero (CPUPercent p) = true /\ F64.leb (CPUPercent p) F64.c100 = true.
Proof.
  intros Hsort Hok Hclk Hp.
  destruct (GetProcesses_elem _ _ _ _ _ Hsort Hok Hp)
    as (entries & rp & _ & (entry & _ & Hraw) & Hest).
  destruct Hraw as (_ & _ & _ & _ & Hzero & _).
  destruct Hest as (_ & _ & _ & _ & Hpercent).
  destruct (prevCPUTimes pm !! PID (proc rp)) as [prev | ].
  - rewrite Hpercent, Hclk. unfold cpuPercent. apply clampPercent_range.
    apply tickPercent_not_nan, Seconds_finite, Sub_range.
  - rewrite Hpercent, Hzero. split; reflexivity.
Qed.

Lemma X2_every_percentage_in_range_witness :
  F64.leb F64.zero (CPUPercent demoProcess) = true /\
  F64.leb (CPUPercent demoProcess) F64.c100 = true.
Proof.
  apply (X2_every_percentage_in_range smallLib demoHost demoMonitor demoMonitor' [demoProcess]).
  - exact smallLib_contract.
  - vm_compute. reflexivity.
  - reflexivity.
  - apply list_elem_of_singleton. reflexivity.
Defined.

Lemma lastIndexFrom_ge c s : forall i found,
  -1 <= found -> 0 <= i -> -1 <= GoStr.lastIndexFrom c i found s.
Proof.
  induction s as [ | d s IH]; intros i found Hf Hi; simpl; [assumption | ].
  apply IH; [destruct (Ascii.eqb d c); lia | lia].
Qed.

Lemma sliceFrom_ok s i : 0 <= i <= GoStr.len s -> exists rest, GoStr.sliceFrom s i = Ok rest.
Proof.
  intros Hi. unfold GoStr.sliceFrom.
  replace ((0 <=? i) && (i <=? GoStr.len s)) with true
    by (symmetry; apply andb_true_iff; split; apply Z.leb_le; lia).
  eauto.
Qed.

Lemma index_ok {A : Type} (l : list A) i :
  0 <= i < Z.of_nat (length l) -> exists x, GoStr.index l i = Ok x.
Proof.
  intros Hi. unfold GoStr.index.
  replace ((0 <=? i) && (i <? Z.of_nat (length l))) with true
    by (symmetry; apply andb_true_iff; split; [apply Z.leb_le | apply Z.ltb_lt]; lia).
  destruct (l !! Z.to_nat i) eqn:E; [eauto | ].
  apply lookup_ge_None in E. lia.
Qed.

Lemma index_panic {A : Type} (l : list A) i :
  Z.of_nat (length l) <= i -> GoStr.index l i = Panic.
Proof.
  intros Hi. unfold GoStr.index.
  replace (i <? Z.of_nat (length l)) with false by (symmetry; apply Z.ltb_ge; lia).
  now rewrite andb_false_r.
Qed.

(** [getCPUTime] panics exactly on a record of twelve fields. *)
Lemma getCPUTime_panic_iff h pid : getCPUTime h pid = Panic <-> shortStat h pid.
Proof.
  unfold getCPUTime, shortStat.
  destruct (os.ReadFile h _) as [content | ].
  2: { split; [discriminate | intros (? & ? & ? & _); discriminate]. }
  pose proof (lastIndexFrom_ge ")"%char content 0 (-1) ltac:(lia) ltac:(lia)) as Hidx.
  fold (GoStr.LastIndexByte content ")"%char) in Hidx.
  set (idx := GoStr.LastIndexByte content ")"%char) in *.
  destruct ((idx =? -1) || (GoStr.len content <=? idx + 2)) eqn:Eguard.
  { split; [discriminate | ]. intros (c & rest & [= <-] & Hne & Hlt & _).
    apply orb_true_iff in Eguard as [E | E]; [apply Z.eqb_eq in E | apply Z.leb_le in E]; lia. }
  apply orb_false_iff in Eguard as [E1 E2]. apply Z.eqb_neq in E1. apply Z.leb_gt in E2.
  destruct (sliceFrom_ok content (idx + 2) ltac:(lia)) as [rest Hrest]. rewrite Hrest.
  cbn [mbind Res_bind].
  destruct (Z.of_nat (length (GoStr.Fields rest)) <? 12) eqn:E12.
  { split; [discriminate | ]. intros (c & rest' & [= <-] & _ & _ & Hr & Hl).
    unfold idx in Hrest. rewrite Hrest in Hr. injection Hr as <-. apply Z.ltb_lt in E12. lia. }
  apply Z.ltb_ge in E12.
  destruct (index_ok (GoStr.Fields rest) 11 ltac:(lia)) as [f11 ->]. cbn [mbind Res_bind].
  destruct (Z.eq_dec (Z.of_nat (length (GoStr.Fields rest))) 12) as [Heq | Hne].
  - rewrite index_panic by lia. cbn [mbind Res_bind]. split; [intros _ | reflexivity].
    exists content, rest. repeat split; try assumption; lia.
  - destruct (index_ok (GoStr.Fields rest) 12 ltac:(lia)) as [f12 ->]. cbn [mbind Res_bind].
    split; [discriminate | ]. intros (c & rest' & [= <-] & _ & _ & Hr & Hl).
    unfold idx in Hrest. rewrite Hrest in Hr. injection Hr as <-. lia.
Qed.

(** [getStartTime] never panics. *)
Lemma getStartTime_total `{GoLib} h pid : exists t, getStartTime h pid = Ok t.
Proof.
  unfold getStartTime.
  destruct (os.ReadFile h (GoStr.procPath _ "stat")) as [content | ]; [ | eauto].
  pose proof (lastIndexFrom_ge ")"%char content 0 (-1) ltac:(lia) ltac:(lia)) as Hidx.
  fold (GoStr.LastIndexByte content ")"%char) in Hidx.
  set (idx := GoStr.LastIndexByte content ")"%char) in *.
  destruct ((idx =? -1) || (GoStr.len content <=? idx + 2)) eqn:Eguard; [eauto | ].
  apply orb_false_iff in Eguard as [E1 E2]. apply Z.eqb_neq in E1. apply Z.leb_gt in E2.
  destruct (sliceFrom_ok content (idx + 2) ltac:(lia)) as [rest ->]. cbn [mbind Res_bind].
  destruct (Z.of_nat (length (GoStr.Fields rest)) <? 20) eqn:E20; [eauto | ].
  apply Z.ltb_ge in E20.
  destruct (index_ok (GoStr.Fields rest) 19 ltac:(lia)) as [f19 ->]. cbn [mbind Res_bind].
  destruct (os.ReadFile h "/proc/uptime") as [uptimeData | ]; [ | eauto].
  destruct (Z.of_nat (length (GoStr.Fields uptimeData)) <? 1) eqn:E1'; [eauto | ].
  apply Z.ltb_ge in E1'.
  destruct (index_ok (GoStr.Fields uptimeData) 0 ltac:(lia)) as [u0 ->]. cbn [mbind Res_bind].
  eauto.
Qed.

Lemma collect_panic_iff `{GoLib} h acc entry :
  collect h acc entry = Panic <->
  exists pid, qualifyingPid h entry = Some pid /\ getCPUTime h pid = Panic.
Proof.
  unfold collect, qualifyingPid. destruct acc as [raw cur].
  destruct (os.IsDir entry); simpl.
  2: { split; [discriminate | intros (? & ? & _); discriminate]. }
  destruct (GoStr.Atoi (os.Name entry)) as [pid | ].
  2: { split; [discriminate | intros (? & ? & _); discriminate]. }
  destruct (isClaude h pid); simpl.
  2: { split; [discriminate | intros (? & ? & _); discriminate]. }
  destruct (getMemoryMB_total h pid) as [mem ->].
  destruct (getStartTime_total h pid) as [st Hst].
  destruct (os.Readlink h _); cbn [mbind Res_bind];
    (destruct (getCPUTime h pid) as [ct | ] eqn:Ect; cbn [mbind Res_bind];
     [rewrite Hst; cbn [mbind Res_bind];
      split; [discriminate | intros (pid' & [= <-] & Hp); congruence]
     | split; [intros _; eauto | reflexivity]]).
Qed.

Lemma foldRes_panic_iff {A B : Type} (f : B -> A -> Res B) (P : A -> Prop) :
  (forall b x, f b x = Panic <-> P x) ->
  forall l b, foldRes f l b = Panic <-> Exists P l.
Proof.
  intros Hf l. induction l as [ | x l IH]; intros b; simpl.
  - split; [discriminate | intros HE; inversion HE].
  - rewrite Exists_cons. destruct (f b x) as [b' | ] eqn:E.
    + rewrite IH. split; [auto | ].
      intros [HP | HE]; [ | assumption]. apply Hf with (b := b) in HP. congruence.
    + split; [intros _; left; now apply (Hf b) | reflexivity].
Qed.

(** X3. A poll panics exactly when [/proc] can be listed and the [stat]
    record of some process it keeps has exactly twelve fields after the
    command name; reading the memory and the start time never panics. *)
Theorem X3_poll_panics_only_on_short_stat (lib : GoLib) h pm :
  (GetProcesses h pm = Panic <->
   exists entries entry pid,
     os.ReadDir h "/proc" = Some entries /\ entry ∈ entries /\
     qualifyingPid h entry = Some pid /\ shortStat h pid) /\
  (forall pid, exists m, getMemoryMB h pid = Ok m) /\
  (forall pid, exists t, getStartTime h pid = Ok t).
Proof.
  split; [ | split; [apply getMemoryMB_total | apply getStartTime_total]].
  unfold GetProcesses.
  destruct (os.ReadDir h "/proc") as [entries | ].
  2: { split; [discriminate | intros (? & ? & ? & ? & _); discriminate]. }
  pose proof (foldRes_panic_iff (collect h)
                (fun entry => exists pid, qualifyingPid h entry = Some pid /\
                                          getCPUTime h pid = Panic)
                (collect_panic_iff h) entries ([], ∅)) as Hfold.
  destruct (foldRes (collect h) entries ([], ∅)) as [[raw cur] | ]; cbn [mbind Res_bind].
  - destruct (fold_left _ _ _). split; [discriminate | ].
    intros (entries' & entry & pid & [= <-] & Hin & Hq & Hshort).
    assert (HE : Exists (fun entry => exists pid, qualifyingPid h entry = Some pid /\
                                                  getCPUTime h pid = Panic) entries).
    { apply Exists_exists. exists entry. split; [assumption | ].
      exists pid. split; [assumption | now apply getCPUTime_panic_iff]. }
    apply Hfold in HE. discriminate.
  - split; [intros _ | reflexivity].
    destruct Hfold as [Hfold _]. specialize (Hfold eq_refl).
    apply Exists_exists in Hfold as (entry & Hin & pid & Hq & Hpanic).
    exists entries, entry, pid. repeat split; try assumption.
    now apply getCPUTime_panic_iff.
Qed.

(** X4. A poll returns the error exactly when [/proc] cannot be listed, and
    then leaves the estimator as it was; a poll that returns a list records
    the instant of the poll and keeps the tick rate. *)
Theorem X4_error_only_for_proc (lib : GoLib) h pm :
  (os.ReadDir h "/proc" = None -> GetProcesses h pm = Ok (pm, inr failedToReadProc)) /\
  (forall pm' e,
     GetProcesses h pm = Ok (pm', inr e) -> os.ReadDir h "/proc" = None /\ pm' = pm) /\
  (forall pm' procs,
     GetProcesses h pm = Ok (pm', inl procs) ->
     os.ReadDir h "/proc" <> None /\ prevSample pm' = os.Now h /\ clkTck pm' = clkTck pm).
Proof.
  split; [ | split].
  - intros Hdir. unfold GetProcesses. now rewrite Hdir.
  - intros pm' e Herr. unfold GetProcesses in Herr.
    destruct (os.ReadDir h "/proc") as [entries | ].
    + destruct (foldRes (collect h) entries ([], ∅)) as [[raw cur] | ];
        cbn [mbind Res_bind] in Herr; [ | discriminate].
      destruct (fold_left _ _ _). discriminate.
    + injection Herr as <- _. auto.
  - intros pm' procs Hok. unfold GetProcesses in Hok.
    destruct (os.ReadDir h "/proc") as [entries | ]; [ | discriminate].
    destruct (foldRes (collect h) entries ([], ∅)) as [[raw cur] | ];
      cbn [mbind Res_bind] in Hok; [ | discriminate].
    destruct (fold_left _ _ _). injection Hok as <- _. simpl. auto.
Qed.

Lemma X4_error_only_for_proc_witness :
  GetProcesses unreadable demoMonitor = Ok (demoMonitor, inr failedToReadProc).
Proof.
  apply (proj1 (X4_error_only_for_proc smallLib unreadable demoMonitor)). reflexivity.
Defined.

Lemma collect_pids `{GoLib} h entries : forall raw0 cur0 raw cur,
  foldRes (collect h) entries (raw0, cur0) = Ok (raw, cur) ->
  pids raw = pids raw0 ++ omap (qualifyingPid h) entries.
Proof.
  induction entries as [ | entry entries IH]; intros raw0 cur0 raw cur; cbn [foldRes].
  - intros [= <- <-]. now rewrite app_nil_r.
  - destruct (collect h (raw0, cur0) entry) as [[raw1 cur1] | ] eqn:E; [ | discriminate].
    intros Hrest. rewrite (IH _ _ _ _ Hrest).
    change (omap (qualifyingPid h) (entry :: entries))
      with (match qualifyingPid h entry with
            | Some pid => pid :: omap (qualifyingPid h) entries
            | None => omap (qualifyingPid h) entries
            end).
    apply collect_step in E as [(-> & -> & Hskip) | (rp & -> & -> & Hrp)].
    + assert (qualifyingPid h entry = None) as ->; [ | reflexivity].
      unfold qualifyingPid.
      destruct Hskip as [-> | [Hs | (pid & Hs & Hs')]]; [reflexivity | | ];
        destruct (os.IsDir entry); try reflexivity; rewrite Hs; [reflexivity | ].
      now rewrite Hs'.
    + destruct Hrp as (Hd & Ha & Hc & _).
      assert (qualifyingPid h entry = Some (PID (proc rp))) as ->.
      { unfold qualifyingPid. now rewrite Hd, Ha, Hc. }
      unfold pids. rewrite map_app, <- app_assoc. reflexivity.
Qed.

(** X5. A poll returns one record for each directory entry of [/proc] that is
    a directory, is named by a number and passes the identity check, no more
    and no fewer: the ids returned are a rearrangement of the ids of these
    entries. *)
Theorem X5_one_record_per_entry (lib : GoLib) h pm pm' procs :
  SortContract lib ->
  GetProcesses h pm = Ok (pm', inl procs) ->
  exists entries,
    os.ReadDir h "/proc" = Some entries /\
    Permutation (map PID procs) (omap (qualifyingPid h) entries) /\
    length procs = length (omap (qualifyingPid h) entries).
Proof.
  intros Hsort Hok.
  destruct (GetProcesses_ok _ _ _ _ Hok) as (entries & raw & Hdir & Hraw & -> & _).
  exists entries. split; [assumption | ].
  pose proof (collect_pids _ _ _ _ _ _ Hraw) as Hpids. simpl in Hpids.
  pose proof (assign_all_estimated pm (interval h pm) (sortSlice lessStartTime raw)) as Hall.
  destruct (Hsort _ lessStartTime raw) as [Hperm _].
  assert (Hp : Permutation
                 (map PID (fst (fold_left (assign pm (interval h pm))
                                  (sortSlice lessStartTime raw) ([], ∅))))
                 (omap (qualifyingPid h) entries)).
  { rewrite (estimated_pids _ _ _ _ Hall), <- Hpids. now apply Permutation_map. }
  split; [assumption | ].
  apply Permutation_length in Hp. now rewrite length_map in Hp.
Qed.

Lemma X5_one_record_per_entry_witness :
  exists entries,
    os.ReadDir projHost "/proc" = Some entries /\
    length (omap (qualifyingPid projHost) entries) = 3%nat.
Proof.
  edestruct (X5_one_record_per_entry smallLib projHost (NewProcessMonitor 0))
    as (entries & Hdir & _ & Hlen).
  - exact smallLib_contract.
  - vm_compute. reflexivity.
  - exists entries. split; [exact Hdir | ]. rewrite <- Hlen. reflexivity.
Defined.

Lemma X3_poll_panics_only_on_short_stat_witness :
  GetProcesses truncatedHost (NewProcessMonitor 0) = Panic /\
  exists m, getMemoryMB truncatedHost 10 = Ok m.
Proof.
  destruct (X3_poll_panics_only_on_short_stat smallLib truncatedHost (NewProcessMonitor 0))
    as (Hpanic & Hmem & _).
  split; [ | exact (Hmem 10)].
  apply Hpanic. exists [dir "10"], (dir "10"), 10.
  split; [reflexivity | ]. split; [left | ]. split; [reflexivity | ].
  exists truncatedStat, "S 1 1 1 0 -1 4194304 100 0 0 0 1150"%string.
  split; [reflexivity | ]. split; [vm_compute; discriminate | ].
  split; [vm_compute; reflexivity | ]. split; reflexivity.
Defined.

Lemma binary_round_aux_sign prec emax sx mx ex lx :
  match binary_round_aux prec emax sx mx ex lx with
  | S754_zero s | S754_infinity s | S754_finite s _ _ => s = sx
  | S754_nan => True
  end.
Proof.
  unfold binary_round_aux.
  destruct (shr_fexp prec emax mx ex lx) as [mrs' e'].
  destruct (shr_fexp prec emax _ e' loc_Exact) as [mrs'' e''].
  destruct (shr_m mrs''); trivial. destruct (e'' <=? emax - prec); reflexivity.
Qed.

Lemma of_Z_nonneg z k :
  0 <= z < 2 ^ k -> 0 <= k -> k + 1 <= F64.emax -> nonnegFinite (F64.of_Z z).
Proof.
  intros Hz Hk Hmax.
  pose proof (of_Z_within z k ltac:(lia) Hk Hmax) as Hw.
  unfold F64.of_Z in *. destruct z as [ | p | p]; simpl; trivial; try lia.
  simpl in Hw. unfold binary_round in *.
  destruct (shl_align p 0 _) as [mz ez].
  pose proof (binary_round_aux_sign F64.prec F64.emax false (Z.pos mz) ez loc_Exact) as Hs.
  destruct (binary_round_aux F64.prec F64.emax false (Z.pos mz) ez loc_Exact);
    simpl in *; trivial.
Qed.

Lemma div_nonneg x m e B :
  nonnegFinite x -> within F64.prec F64.emax B x ->
  B - e <= F64.emax - F64.prec -> emin F64.prec F64.emax + 1 <= B - e + 1 ->
  B - e + 1 <= F64.emax ->
  nonnegFinite (F64.div x (S754_finite false m e)).
Proof.
  intros Hx Hw H1 H2 H3.
  pose proof (SFdiv_within F64.prec F64.emax ltac:(reflexivity) ltac:(reflexivity)
                x false m e B Hw H1 H2 H3) as Hd.
  unfold F64.div. destruct x as [sx | sx | | sx mx ex]; simpl in Hx; try contradiction.
  - simpl. trivial.
  - subst sx. simpl in Hd |- *.
    destruct (SFdiv_core_binary F64.prec F64.emax (Z.pos mx) ex (Z.pos m) e) as [[mz ez] lz].
    pose proof (binary_round_aux_sign F64.prec F64.emax false mz ez lz) as Hs.
    destruct (binary_round_aux F64.prec F64.emax false mz ez lz); simpl in *; trivial.
Qed.

Lemma nonnegFinite_leb x : nonnegFinite x -> F64.leb F64.zero x = true.
Proof. destruct x as [s | s | | s m e]; simpl; try contradiction; [reflexivity | now intros ->]. Qed.

Lemma getMemoryMB_nonneg h pid m : getMemoryMB h pid = Ok m -> nonnegFinite m.
Proof.
  unfold getMemoryMB.
  destruct (os.ReadFile h _) as [data | ]; [ | intros [= <-]; exact I].
  destruct (_ <? 2); [intros [= <-]; exact I | ].
  destruct (GoStr.index _ 1) as [f1 | ]; cbn [mbind Res_bind]; [ | discriminate].
  destruct (GoStr.ParseUint f1) as [rss [ | ]]; intros [= <-]; [exact I | ].
  change F64.c1Mi with (S754_finite false 4503599627370496 (-32)).
  assert (Hv : 0 <= u64_mul rss (wrap_u64 (os.Getpagesize h)) < 2 ^ 64)
    by (unfold u64_mul, wrap_u64; apply Z.mod_pos_bound; lia).
  apply (div_nonneg _ _ _ 65).
  - apply (of_Z_nonneg _ 64); [assumption | lia | unfold F64.emax; lia].
  - apply (of_Z_within _ 64); [lia | lia | unfold F64.emax; lia].
  - unfold F64.emax, F64.prec. lia.
  - unfold F64.emax, F64.prec, emin. lia.
  - unfold F64.emax. lia.
Qed.

Lemma collect_reads `{GoLib} h entries : forall raw0 cur0 raw cur,
  foldRes (collect h) entries (raw0, cur0) = Ok (raw, cur) ->
  Forall (readFor h) raw0 -> Forall (readFor h) raw.
Proof.
  induction entries as [ | entry entries IH]; intros raw0 cur0 raw cur; cbn [foldRes].
  - now intros [= <- <-].
  - destruct (collect h (raw0, cur0) entry) as [[raw1 cur1] | ] eqn:E; [ | discriminate].
    intros Hrest Hall. apply (IH _ _ _ _ Hrest). clear IH Hrest.
    unfold collect in E.
    destruct (os.IsDir entry); simpl in E; [ | now injection E as <- <-].
    destruct (GoStr.Atoi (os.Name entry)) as [pid | ]; [ | now injection E as <- <-].
    destruct (isClaude h pid); simpl in E; [ | now injection E as <- <-].
    destruct (os.Readlink h _);
      (destruct (getMemoryMB h pid) as [mem | ] eqn:Em; cbn [mbind Res_bind] in E;
       [ | discriminate]);
      (destruct (getCPUTime h pid) as [ct | ]; cbn [mbind Res_bind] in E; [ | discriminate]);
      (destruct (getStartTime h pid) as [st | ] eqn:Es; cbn [mbind Res_bind] in E;
       [ | discriminate]);
      injection E as <- <-; apply Forall_app; (split; [assumption | ]);
      constructor; [ | constructor | | constructor]; split; assumption.
Qed.

(** X6. For every process a poll returns, the memory and the start time are
    the ones read for its id; the memory is zero or a positive finite number
    (never negative, infinite or NaN), and it is 0 when the [statm] record
    cannot be read. *)
Theorem X6_memory_and_start_time (lib : GoLib) h pm pm' procs p :
  SortContract lib ->
  GetProcesses h pm = Ok (pm', inl procs) ->
  p ∈ procs ->
  getMemoryMB h (PID p) = Ok (MemoryMB p) /\
  getStartTime h (PID p) = Ok (StartTime p) /\
  nonnegFinite (MemoryMB p) /\
  F64.leb F64.zero (MemoryMB p) = true /\
  (os.ReadFile h (GoStr.procPath (GoStr.Itoa (PID p)) "statm") = None ->
   MemoryMB p = F64.zero).
Proof.
  intros Hsort Hok Hp.
  destruct (GetProcesses_ok _ _ _ _ Hok) as (entries & raw & _ & Hraw & -> & _).
  pose proof (collect_reads _ _ _ _ _ _ Hraw ltac:(constructor)) as Hreads.
  pose proof (assign_all_estimated pm (interval h pm) (sortSlice lessStartTime raw)) as Hall.
  apply list_elem_of_lookup in Hp as [i Hi].
  destruct (Forall2_lookup_r _ _ _ _ _ Hall Hi) as (rp & Hrp & Hest).
  destruct (Hsort _ lessStartTime raw) as [Hperm _].
  assert (Hin : rp ∈ raw) by (rewrite <- Hperm; apply list_elem_of_lookup; eauto).
  rewrite Forall_forall in Hreads. destruct (Hreads rp Hin) as [Hmem Hstart].
  destruct Hest as (Hpid & _ & Hm & Hs & _).
  rewrite <- Hpid in Hmem, Hstart. rewrite <- Hm in Hmem. rewrite <- Hs in Hstart.
  pose proof (getMemoryMB_nonneg _ _ _ Hmem) as Hnn.
  repeat split; try assumption.
  - now apply nonnegFinite_leb.
  - intros Hnone. rewrite (getMemoryMB_unreadable _ _ Hnone) in Hmem. congruence.
Qed.

Lemma X6_memory_and_start_time_witness :
  getMemoryMB demoHost 10 = Ok (F64.of_Z 10) /\ nonnegFinite (F64.of_Z 10).
Proof.
  destruct (X6_memory_and_start_time smallLib demoHost demoMonitor demoMonitor'
              [demoProcess] demoProcess) as (Hm & _ & Hn & _).
  - exact smallLib_contract.
  - vm_compute. reflexivity.
  - apply list_elem_of_singleton. reflexivity.
  - split; [exact Hm | exact Hn].
Defined.

Lemma append_length (a b : string) :
  String.length (a +:+ b) = (String.length a + String.length b)%nat.
Proof.
  induction a as [ | c a IH]; [reflexivity | ].
  change (S (String.length (a +:+ b)) = S (String.length a + String.length b)). now f_equal.
Qed.

Lemma append_inj_l (s a b : string) : s +:+ a = s +:+ b -> a = b.
Proof.
  induction s as [ | c s IH]; [trivial | ].
  change (String c (s +:+ a) = String c (s +:+ b) -> a = b). intros [= Heq]. auto.
Qed.

Lemma append_inj_r (t : string) : forall a b : string, a +:+ t = b +:+ t -> a = b.
Proof.
  induction a as [ | c a IH]; intros [ | d b] Heq; [reflexivity | | | ].
  - apply (f_equal String.length) in Heq.
    change (String.length t = S (String.length (b +:+ t))) in Heq.
    rewrite append_length in Heq. lia.
  - apply (f_equal String.length) in Heq.
    change (S (String.length (a +:+ t)) = String.length t) in Heq.
    rewrite append_length in Heq. lia.
  - change (String c (a +:+ t) = String d (b +:+ t)) in Heq.
    injection Heq as -> Heq. f_equal. auto.
Qed.

Lemma getOrdinalSuffix_inj n n' :
  getOrdinalSuffix n = getOrdinalSuffix n' -> n = n'.
Proof.
  assert (Hth : forall k s, GoStr.Itoa k +:+ "th" = s ->
                  String.get (String.length s - 1) s = Some "h"%char).
  { intros k s <-. generalize (GoStr.Itoa k). intros t.
    rewrite append_length. simpl String.length.
    replace (String.length t + 2 - 1)%nat with (S (String.length t)) by lia.
    induction t as [ | c t IH]; [reflexivity | exact IH]. }
  unfold getOrdinalSuffix.
  destruct (n =? 2) eqn:E2; [apply Z.eqb_eq in E2 | ];
    (destruct (n' =? 2) eqn:E2'; [apply Z.eqb_eq in E2' | ]); try lia.
  - destruct (n' =? 3); [discriminate | ].
    intros Heq. symmetry in Heq. apply Hth in Heq. discriminate.
  - destruct (n =? 3); [discriminate | ].
    intros Heq. apply Hth in Heq. discriminate.
  - destruct (n =? 3) eqn:E3; [apply Z.eqb_eq in E3 | ];
      (destruct (n' =? 3) eqn:E3'; [apply Z.eqb_eq in E3' | ]); try lia.
    + intros Heq. symmetry in Heq. apply Hth in Heq. discriminate.
    + intros Heq. apply Hth in Heq. discriminate.
    + intros Heq. apply append_inj_r in Heq. unfold GoStr.Itoa in Heq.
      now apply (inj pretty) in Heq.
Qed.

Lemma shown_inj b n n' : 1 <= n -> 1 <= n' -> shown b n = shown b n' -> n = n'.
Proof.
  intros Hn Hn'. unfold shown, withSuffix.
  destruct (1 <? n) eqn:E; [apply Z.ltb_lt in E | apply Z.ltb_ge in E];
    (destruct (1 <? n') eqn:E'; [apply Z.ltb_lt in E' | apply Z.ltb_ge in E']);
    try lia.
  - intros Heq. apply append_inj_l in Heq.
    apply (append_inj_l " (") in Heq. apply append_inj_r in Heq.
    now apply getOrdinalSuffix_inj.
  - intros Heq. apply (f_equal String.length) in Heq.
    rewrite append_length in Heq. simpl in Heq. lia.
  - intros Heq. apply (f_equal String.length) in Heq.
    rewrite append_length in Heq. simpl in Heq. lia.
Qed.

Lemma occurrences_app b l k : occurrences b (l ++ k) = occurrences b l + occurrences b k.
Proof. unfold occurrences. rewrite filter_app, length_app. lia. Qed.

Lemma occurrences_later b names i j :
  (i < j)%nat -> names !! j = Some b ->
  occurrences b (take (S i) names) < occurrences b (take (S j) names).
Proof.
  intros Hij Hj. rewrite (take_S_r _ _ _ Hj), occurrences_snoc.
  rewrite decide_True by reflexivity.
  replace j with (S i + (j - S i))%nat at 1 by lia.
  rewrite <- take_take_drop, occurrences_app.
  pose proof (occurrences_bounds b (take (j - S i) (drop (S i) names))). lia.
Qed.

(** X7. Two processes of one poll that have the same base name are never
    shown under the same name: the suffixes tell them apart. *)
Theorem X7_same_base_names_are_told_apart (lib : GoLib) h pm pm' procs :
  GetProcesses h pm = Ok (pm', inl procs) ->
  Z.of_nat (length procs) < 2 ^ 63 ->
  exists entries raw current,
    os.ReadDir h "/proc" = Some entries /\
    foldRes (collect h) entries ([], ∅) = Ok (raw, current) /\
    forall i j rp rq p q,
      i <> j ->
      sortSlice lessStartTime raw !! i = Some rp ->
      sortSlice lessStartTime raw !! j = Some rq ->
      Name (proc rp) = Name (proc rq) ->
      procs !! i = Some p -> procs !! j = Some q ->
      Name p <> Name q.
Proof.
  intros Hok Hlen.
  destruct (GetProcesses_ok _ _ _ _ Hok) as (entries & raw & Hdir & Hraw & Hprocs & _).
  exists entries, raw, (prevCPUTimes pm'). split; [assumption | ]. split; [assumption | ].
  set (sorted := sortSlice lessStartTime raw) in *.
  pose proof (assign_all_estimated pm (interval h pm) sorted) as Hall.
  rewrite <- Hprocs in Hall. pose proof (Forall2_length _ _ _ Hall) as Hl.
  destruct (assign_all_names pm (interval h pm) sorted) as [_ Hn]; [lia | ].
  rewrite <- Hprocs in Hn.
  assert (Hlt : forall i j rp rq p q, (i < j)%nat ->
            sorted !! i = Some rp -> sorted !! j = Some rq ->
            Name (proc rp) = Name (proc rq) ->
            procs !! i = Some p -> procs !! j = Some q -> Name p <> Name q).
  { intros i j rp rq p q Hij Hi Hj Hbase Hp Hq Heq.
    destruct (Hn i rp Hi) as (p' & Hp' & Hnp). destruct (Hn j rq Hj) as (q' & Hq' & Hnq).
    assert (p' = p) as -> by congruence. assert (q' = q) as -> by congruence.
    rewrite Hnp, Hnq, <- Hbase in Heq.
    assert (Hbi : baseNames sorted !! i = Some (Name (proc rp)))
      by (unfold baseNames; now rewrite map_lookup, Hi).
    assert (Hbj : baseNames sorted !! j = Some (Name (proc rp)))
      by (unfold baseNames; rewrite map_lookup, Hj; simpl; congruence).
    pose proof (occurrences_at _ _ _ Hbi). pose proof (occurrences_at _ _ _ Hbj).
    pose proof (occurrences_later _ _ _ _ Hij Hbj).
    apply shown_inj in Heq; lia. }
  intros i j rp rq p q Hij Hi Hj Hbase Hp Hq.
  destruct (Nat.lt_total i j) as [Hlt' | [-> | Hgt]]; [eauto | contradiction | ].
  intros Heq. symmetry in Heq, Hbase. revert Heq. eapply (Hlt j i); eauto.
Qed.

Lemma X7_same_base_names_are_told_apart_witness :
  exists entries raw current,
    os.ReadDir projHost "/proc" = Some entries /\
    foldRes (collect projHost) entries ([], ∅) = Ok (raw, current).
Proof.
  edestruct (X7_same_base_names_are_told_apart smallLib projHost (NewProcessMonitor 0))
    as (entries & raw & current & Hdir & Hraw & _).
  - vm_compute. reflexivity.
  - simpl. lia.
  - exists entries, raw, current. auto.
Defined.

(** ** The alerts *)

Lemma leb_trans x y z : F64.leb x y = true -> F64.leb y z = true -> F64.leb x z = true.
Proof.
  unfold F64.leb, SFleb.
  destruct x as [[] | [] | | [] mx ex], y as [[] | [] | | [] my ey],
    z as [[] | [] | | [] mz ez]; simpl; try easy.
  all: change (Pos.compare_cont Eq) with Pos.compare;
    destruct (Z.compare_spec ex ey), (Z.compare_spec ey ez), (Z.compare_spec ex ez);
    try easy; try lia; subst;
    destruct (Pos.compare_spec mx my), (Pos.compare_spec my mz), (Pos.compare_spec mx mz);
    simpl; try easy; try lia.
Qed.

Lemma ltb_not_leb x y : F64.ltb x y = true -> F64.leb y x = false.
Proof.
  unfold F64.ltb, F64.leb, SFltb, SFleb. rewrite (SFcompare_antisym x y).
  now destruct (SFcompare x y) as [[ | | ] | ].
Qed.

Lemma firstOver_spec threshold processes :
  let '(cpuAlert, alertProcess) := alerts.firstOver threshold processes in
  (cpuAlert = true <-> exists p, p ∈ processes /\ F64.leb threshold (CPUPercent p) = true) /\
  (cpuAlert = true ->
   exists i p, processes !! i = Some p /\ alertProcess = Name p /\
     F64.leb threshold (CPUPercent p) = true /\
     forall j q, (j < i)%nat -> processes !! j = Some q ->
                 F64.leb threshold (CPUPercent q) = false) /\
  (cpuAlert = false -> alertProcess = EmptyString).
Proof.
  induction processes as [ | p processes IH]; simpl.
  - split; [ | split; [discriminate | reflexivity]].
    split; [discriminate | intros (p & Hp & _); inversion Hp].
  - destruct (F64.leb threshold (CPUPercent p)) eqn:E.
    + split; [ | split; [ | discriminate]].
      * split; [intros _ | reflexivity]. exists p. split; [left | assumption].
      * intros _. exists 0%nat, p. repeat split; try assumption. intros j q Hj. lia.
    + destruct (alerts.firstOver threshold processes) as [cpuAlert alertProcess].
      destruct IH as (Hiff & Hfirst & Hnone). split; [ | split; [ | assumption]].
      * rewrite Hiff. split.
        -- intros (q & Hq & Hle). exists q. split; [now right | assumption].
        -- intros (q & Hq & Hle). apply elem_of_cons in Hq as [-> | Hq]; [congruence | eauto].
      * intros Halert. destruct (Hfirst Halert) as (i & q & Hi & Hname & Hle & Hbefore).
        exists (S i), q. repeat split; try assumption.
        intros [ | j] r Hj Hr; simpl in Hr; [congruence | ]. apply (Hbefore j); [lia | assumption].
Qed.

(** X8. [CheckAlerts] with the alerts disabled polls nothing and raises
    nothing.  With the alerts enabled it polls once: the history is left as it
    was, the temperature alert is raised exactly when the main temperature is
    at or above its threshold, and the CPU alert is raised exactly when some
    process returned is at or above the CPU threshold; it then names the first
    such process in the order of the poll.  When the discovery fails, no CPU
    alert is raised. *)
Theorem X8_CheckAlerts (lib : GoLib) host settings (h : api.Handler) :
  (alerts.AlertsEnabled settings = false ->
   alerts.CheckAlerts host settings h = Ok (h, (false, false, EmptyString))) /\
  (forall pm' r,
     alerts.AlertsEnabled settings = true ->
     GetProcesses host (api.processMonitor h) = Ok (pm', r) ->
     exists cpuAlert alertProcess,
       alerts.CheckAlerts host settings h
       = Ok ({| api.processMonitor := pm'; api.history := api.history h |},
             (cpuAlert,
              F64.leb (alerts.TempThreshold settings) (os.MainTemperature host),
              alertProcess)) /\
       match r with
       | inr _ => cpuAlert = false /\ alertProcess = EmptyString
       | inl procs =>
           (cpuAlert = true <->
            exists p, p ∈ procs /\ F64.leb (alerts.CPUThreshold settings) (CPUPercent p) = true) /\
           (cpuAlert = true ->
            exists i p, procs !! i = Some p /\ alertProcess = Name p /\
              F64.leb (alerts.CPUThreshold settings) (CPUPercent p) = true /\
              forall j q, (j < i)%nat -> procs !! j = Some q ->
                          F64.leb (alerts.CPUThreshold settings) (CPUPercent q) = false) /\
           (cpuAlert = false -> alertProcess = EmptyString)
       end).
Proof.
  split.
  - intros Hoff. unfold alerts.CheckAlerts. now rewrite Hoff.
  - intros pm' r Hon Hpoll. unfold alerts.CheckAlerts. rewrite Hon, Hpoll.
    cbn [negb mbind Res_bind].
    destruct r as [procs | e].
    + pose proof (firstOver_spec (alerts.CPUThreshold settings) procs) as Hspec.
      destruct (alerts.firstOver (alerts.CPUThreshold settings) procs)
        as [cpuAlert alertProcess].
      exists cpuAlert, alertProcess. split; [reflexivity | exact Hspec].
    + exists false, EmptyString. split; [reflexivity | auto].
Qed.

Lemma X8_CheckAlerts_witness :
  exists cpuAlert alertProcess,
    alerts.CheckAlerts unreadable alerts.DefaultSettings freshHandler
    = Ok ({| api.processMonitor := NewProcessMonitor 0;
             api.history := api.history freshHandler |},
          (cpuAlert, F64.leb alerts.c85 F64.zero, alertProcess)) /\
    cpuAlert = false /\ alertProcess = EmptyString.
Proof.
  apply (proj2 (X8_CheckAlerts smallLib unreadable alerts.DefaultSettings freshHandler)
           (NewProcessMonitor 0) (inr failedToReadProc)); reflexivity.
Defined.

(** X9. With 100 ticks per second, a CPU threshold above 100 never raises the
    CPU alert: no percentage a poll returns reaches it. *)
Theorem X9_threshold_above_100_is_silent (lib : GoLib) host settings (h h' : api.Handler)
    cpuAlert tempAlert alertProcess :
  SortContract lib ->
  clkTck (api.processMonitor h) = F64.c100 ->
  F64.ltb F64.c100 (alerts.CPUThreshold settings) = true ->
  alerts.CheckAlerts host settings h = Ok (h', (cpuAlert, tempAlert, alertProcess)) ->
  cpuAlert = false /\ alertProcess = EmptyString.
Proof.
  intros Hsort Hclk Hthr Hcheck.
  destruct (alerts.AlertsEnabled settings) eqn:Hon.
  all: unfold alerts.CheckAlerts in Hcheck; rewrite Hon in Hcheck; cbn [negb] in Hcheck.
  2: { injection Hcheck as _ <- _ <-. auto. }
  destruct (GetProcesses host (api.processMonitor h)) as [[pm' r] | ] eqn:Hpoll;
    cbn [mbind Res_bind] in Hcheck; [ | discriminate].
  destruct r as [procs | e].
  - pose proof (firstOver_spec (alerts.CPUThreshold settings) procs) as Hspec.
    destruct (alerts.firstOver (alerts.CPUThreshold settings) procs) as [c a].
    injection Hcheck as _ <- _ <-. destruct Hspec as (Hiff & _ & Hnone).
    destruct c; [ | auto]. exfalso.
    destruct (proj1 Hiff eq_refl) as (p & Hp & Hle).
    destruct (GetProcesses_elem _ _ _ _ _ Hsort Hpoll Hp)
      as (entries & rp & _ & (entry & _ & Hraw) & Hest).
    destruct Hraw as (_ & _ & _ & _ & Hzero & _).
    destruct Hest as (_ & _ & _ & _ & Hpercent).
    assert (Hhi : F64.leb (CPUPercent p) F64.c100 = true).
    { destruct (prevCPUTimes (api.processMonitor h) !! PID (proc rp)) as [prev | ].
      - rewrite Hpercent, Hclk. unfold cpuPercent. apply clampPercent_range.
        apply tickPercent_not_nan, Seconds_finite, Sub_range.
      - rewrite Hpercent, Hzero. reflexivity. }
    pose proof (leb_trans _ _ _ Hle Hhi) as Hcontra.
    rewrite (ltb_not_leb _ _ Hthr) in Hcontra. discriminate.
  - simpl in Hcheck. injection Hcheck as _ <- _ <-. auto.
Qed.

Lemma X9_threshold_above_100_is_silent_witness :
  exists h' cpuAlert tempAlert alertProcess,
    alerts.CheckAlerts demoHost loudSettings demoHandler
    = Ok (h', (cpuAlert, tempAlert, alertProcess)) /\
    cpuAlert = false /\ alertProcess = EmptyString.
Proof.
  eexists _, _, _, _. split; [vm_compute; reflexivity | ].
  eapply (X9_threshold_above_100_is_silent smallLib demoHost loudSettings demoHandler).
  - exact smallLib_contract.
  - reflexivity.
  - vm_compute. reflexivity.
  - vm_compute. reflexivity.
Defined.

Lemma floorElapsed_positive elapsed :
  F64.is_finite elapsed = true ->
  exists m e, floorElapsed elapsed = S754_finite false m e.
Proof.
  unfold floorElapsed. destruct elapsed as [s | s | | s m e]; try discriminate; intros _.
  - vm_compute. eauto.
  - destruct s; [vm_compute; eauto | ].
    destruct (F64.ltb _ _); [vm_compute | ]; eauto.
Qed.

Lemma tickPercent_unchanged elapsed ct :
  F64.is_finite elapsed = true ->
  tickPercent F64.c100 (floorElapsed elapsed) ct ct = F64.zero.
Proof.
  intros Hfin. destruct (floorElapsed_positive _ Hfin) as (m & e & ->).
  unfold tickPercent, u64_add, u64_sub, wrap_u64.
  rewrite !Z.sub_diag. reflexivity.
Qed.

(** X10. With 100 ticks per second, a process whose counter pair is the pair
    the estimator holds for it (it has used no CPU time since) is reported
    with exactly 0. *)
Theorem X10_idle_process_is_zero (lib : GoLib) h pm pm' procs p prev :
  SortContract lib ->
  GetProcesses h pm = Ok (pm', inl procs) ->
  clkTck pm = F64.c100 ->
  p ∈ procs ->
  prevCPUTimes pm !! PID p = Some prev ->
  getCPUTime h (PID p) = Ok prev ->
  CPUPercent p = F64.zero.
Proof.
  intros Hsort Hok Hclk Hp Hprev Hsame.
  destruct (GetProcesses_elem _ _ _ _ _ Hsort Hok Hp)
    as (entries & rp & _ & (entry & _ & Hraw) & Hest).
  destruct Hraw as (_ & _ & _ & _ & _ & Hct).
  destruct Hest as (Hpid & _ & _ & _ & Hpercent).
  rewrite <- Hpid in Hpercent, Hct. rewrite Hprev in Hpercent.
  assert (Heq : cpu rp = prev) by congruence. rewrite Heq in Hpercent.
  rewrite Hpercent, Hclk. unfold cpuPercent, interval.
  rewrite tickPercent_unchanged by apply Seconds_finite, Sub_range. reflexivity.
Qed.

Lemma X10_idle_process_is_zero_witness :
  exists pm' p,
    GetProcesses demoHost demoMonitor' = Ok (pm', inl [p]) /\ CPUPercent p = F64.zero.
Proof.
  eexists _, _. split; [vm_compute; reflexivity | ].
  eapply (X10_idle_process_is_zero smallLib demoHost demoMonitor').
  - exact smallLib_contract.
  - vm_compute. reflexivity.
  - reflexivity.
  - apply list_elem_of_singleton. reflexivity.
  - vm_compute. reflexivity.
  - vm_compute. reflexivity.
Defined.

Lemma isClaude_same_files h h' pid :
  (forall path, os.ReadFile h' path = os.ReadFile h path) ->
  isClaude h' pid = isClaude h pid.
Proof. intros Hfiles. unfold isClaude. now rewrite Hfiles. Qed.

Lemma getCPUTime_same_files h h' pid :
  (forall path, os.ReadFile h' path = os.ReadFile h path) ->
  getCPUTime h' pid = getCPUTime h pid.
Proof. intros Hfiles. unfold getCPUTime. now rewrite Hfiles. Qed.

(** X11. [CheckAlerts] polls again.  When it runs after [RecordHistory], at
    whatever instant, on a system whose [/proc] listing and files are what
    they were at the poll of [RecordHistory] (no counter has moved in
    between), every process it sees is idle since that poll, and with a CPU
    threshold above 0 it raises no CPU alert, whatever the processes used
    before.  [host] is the system at the poll of [RecordHistory], [host'] the
    system at the poll of [CheckAlerts]: its clock, links, page size and
    temperature are free. *)
Theorem X11_alert_right_after_record_is_silent (lib : GoLib) host host' settings
    (h h1 h2 : api.Handler) cpuAlert tempAlert alertProcess :
  SortContract lib ->
  clkTck (api.processMonitor h) = F64.c100 ->
  F64.ltb F64.zero (alerts.CPUThreshold settings) = true ->
  os.ReadDir host' "/proc" = os.ReadDir host "/proc" ->
  (forall path, os.ReadFile host' path = os.ReadFile host path) ->
  api.RecordHistory host h = Ok h1 ->
  alerts.CheckAlerts host' settings h1 = Ok (h2, (cpuAlert, tempAlert, alertProcess)) ->
  cpuAlert = false /\ alertProcess = EmptyString.
Proof.
  intros Hsort Hclk Hthr Hlist Hfiles Hrec Hcheck.
  unfold alerts.CheckAlerts in Hcheck.
  destruct (alerts.AlertsEnabled settings); cbn [negb] in Hcheck.
  2: { injection Hcheck as _ <- _ <-. auto. }
  destruct (GetProcesses host' (api.processMonitor h1)) as [[pm2 r2] | ] eqn:Hpoll2;
    cbn [mbind Res_bind] in Hcheck; [ | discriminate].
  destruct r2 as [procs2 | e2]; [ | simpl in Hcheck; injection Hcheck as _ <- _ <-; auto].
  pose proof (firstOver_spec (alerts.CPUThreshold settings) procs2) as Hspec.
  destruct (alerts.firstOver (alerts.CPUThreshold settings) procs2) as [c a].
  injection Hcheck as _ <- _ <-. destruct Hspec as (Hiff & _ & Hnone).
  destruct c; [ | auto]. exfalso.
  destruct (proj1 Hiff eq_refl) as (p & Hp & Hle).
  (* the poll of [RecordHistory] *)
  unfold api.RecordHistory in Hrec.
  destruct (GetProcesses host (api.processMonitor h)) as [[pm1 r1] | ] eqn:Hpoll1;
    cbn [mbind Res_bind] in Hrec; [ | discriminate].
  destruct r1 as [procs1 | e1].
  2: { apply GetProcesses_error in Hpoll1 as (Hdir & _).
       destruct (GetProcesses_ok _ _ _ _ Hpoll2) as (? & ? & Hdir' & _). congruence. }
  destruct (histbuf.Add _ _) as [hb | ]; cbn [mbind Res_bind] in Hrec; [ | discriminate].
  injection Hrec as <-. cbn [api.processMonitor] in Hpoll2.
  destruct (GetProcesses_ok _ _ _ _ Hpoll1) as (entries & raw1 & Hdir & Hraw1 & _ & _ & Hclk1).
  apply collect_all in Hraw1 as (_ & Hobs & Hdom & Hval).
  destruct (GetProcesses_elem _ _ _ _ _ Hsort Hpoll2 Hp)
    as (entries' & rp & Hdir' & (entry & Hentry & Hraw) & Hest).
  assert (entries' = entries) as -> by congruence.
  destruct Hraw as (Hd & Ha & Hc & _ & _ & Hct).
  rewrite (isClaude_same_files host host' _ Hfiles) in Hc.
  rewrite (getCPUTime_same_files host host' _ Hfiles) in Hct.
  destruct Hest as (Hpid & _ & _ & _ & Hpercent).
  assert (Hseen : is_Some (prevCPUTimes pm1 !! PID (proc rp))).
  { apply Hdom, Hobs. exists entry. auto. }
  destruct Hseen as [prev Hprev]. rewrite Hprev in Hpercent.
  pose proof (Hval _ _ Hprev) as Hsame.
  assert (Heq : cpu rp = prev) by congruence. rewrite Heq in Hpercent.
  rewrite Hclk1, Hclk in Hpercent. unfold cpuPercent, interval in Hpercent.
  rewrite tickPercent_unchanged in Hpercent by apply Seconds_finite, Sub_range.
  rewrite Hpercent in Hle. change (clampPercent F64.zero) with F64.zero in Hle.
  rewrite (ltb_not_leb _ _ Hthr) in Hle. discriminate.
Qed.

Lemma X11_alert_right_after_record_is_silent_witness :
  os.Now demoHost < os.Now laterHost /\
  exists h1 h2 cpuAlert tempAlert alertProcess,
    api.RecordHistory demoHost demoHandler = Ok h1 /\
    alerts.CheckAlerts laterHost alerts.DefaultSettings h1
    = Ok (h2, (cpuAlert, tempAlert, alertProcess)) /\
    cpuAlert = false /\ alertProcess = EmptyString.
Proof.
  split; [vm_compute; reflexivity | ].
  eexists _, _, _, _, _. split; [vm_compute; reflexivity | ].
  split; [vm_compute; reflexivity | ].
  eapply (X11_alert_right_after_record_is_silent smallLib demoHost laterHost
            alerts.DefaultSettings demoHandler).
  - exact smallLib_contract.
  - reflexivity.
  - vm_compute. reflexivity.
  - reflexivity.
  - intros path. reflexivity.
  - vm_compute. reflexivity.
  - vm_compute. reflexivity.
Defined.

Lemma Base_nonempty path : GoStr.Base path <> EmptyString.
Proof.
  unfold GoStr.Base. destruct path as [ | c path]; [discriminate | ].
  destruct (GoStr.afterLastSlash EmptyString _); discriminate.
Qed.

Lemma assign_all_described pm elapsed sorted :
  Forall2 (fun rp p => estimated pm elapsed rp p /\ exists n, Name p = shown (Name (proc rp)) n)
    sorted (fst (fold_left (assign pm elapsed) sorted ([], ∅))).
Proof.
  induction sorted as [ | rp sorted IH] using rev_ind; simpl; [constructor | ].
  rewrite fold_left_app. simpl.
  destruct (fold_left (assign pm elapsed) sorted ([], ∅)) as [ps nc]. simpl in IH.
  destruct (assign_fst pm elapsed ps nc rp) as (p & -> & Hp & Hname).
  apply Forall2_app; [assumption | ]. constructor; [eauto | constructor].
Qed.

Lemma shown_nonempty b n : b <> EmptyString -> shown b n <> EmptyString.
Proof.
  intros Hb. unfold shown, withSuffix. destruct (1 <? n); [ | assumption].
  destruct b; [congruence | discriminate].
Qed.

(** X12. Every process a poll returns comes from an entry of [/proc] named by
    its id.  When the [cwd] link of that entry can be read, the working
    directory is its target and the name shown is the last element of the
    target, alone or with a suffix; when it cannot, the working directory is
    empty and the name is [claude], alone or with a suffix.  The name shown is
    never empty. *)
Theorem X12_name_and_working_directory (lib : GoLib) h pm pm' procs p :
  SortContract lib ->
  GetProcesses h pm = Ok (pm', inl procs) ->
  p ∈ procs ->
  exists entries entry,
    os.ReadDir h "/proc" = Some entries /\ entry ∈ entries /\
    GoStr.Atoi (os.Name entry) = Some (PID p) /\
    Name p <> EmptyString /\
    match os.Readlink h (GoStr.procPath (os.Name entry) "cwd") with
    | Some cwd => WorkingDir p = cwd /\ exists n, Name p = shown (GoStr.Base cwd) n
    | None => WorkingDir p = EmptyString /\ exists n, Name p = shown "claude" n
    end.
Proof.
  intros Hsort Hok Hp.
  destruct (GetProcesses_ok _ _ _ _ Hok) as (entries & raw & Hdir & Hraw & -> & _).
  apply collect_all in Hraw as (Hcand & _).
  pose proof (assign_all_described pm (interval h pm) (sortSlice lessStartTime raw)) as Hall.
  apply list_elem_of_lookup in Hp as [i Hi].
  destruct (Forall2_lookup_r _ _ _ _ _ Hall Hi) as (rp & Hrp & Hest & n & Hname).
  assert (Hc : candidate h entries rp).
  { rewrite Forall_forall in Hcand. apply Hcand.
    destruct (Hsort _ lessStartTime raw) as [Hperm _].
    rewrite <- Hperm. apply list_elem_of_lookup. eauto. }
  destruct Hc as (entry & Hentry & _ & Hatoi & _ & Hnd & _).
  destruct Hest as (Hpid & Hwd & _).
  exists entries, entry. split; [assumption | ]. split; [assumption | ].
  split; [now rewrite Hpid | ].
  unfold nameAndDir in Hnd. rewrite Hwd, Hname.
  destruct (os.Readlink h (GoStr.procPath (os.Name entry) "cwd")) as [cwd | ];
    injection Hnd as -> ->.
  - split; [apply shown_nonempty, Base_nonempty | eauto].
  - split; [now apply shown_nonempty | eauto].
Qed.

Lemma X12_name_and_working_directory_witness :
  exists entries entry,
    os.ReadDir demoHost "/proc" = Some entries /\ entry ∈ entries /\
    GoStr.Atoi (os.Name entry) = Some 10 /\
    Name demoProcess <> EmptyString.
Proof.
  assert (Hpoll : GetProcesses demoHost demoMonitor = Ok (demoMonitor', inl [demoProcess]))
    by (vm_compute; reflexivity).
  destruct (X12_name_and_working_directory smallLib demoHost demoMonitor demoMonitor'
              [demoProcess] demoProcess smallLib_contract Hpoll)
    as (entries & entry & Hdir & Hentry & Hatoi & Hname & _).
  - left.
  - exists entries, entry. auto.
Defined.

(** ** The temperatures *)

Section Temperatures.

Import GoText temperature.

Context {lib : GoLib} {paths : GoPathLib}.

Lemma fold_left_invariant {A B : Type} (P : A -> Prop) (Q : B -> Prop)
    (f : A -> B -> A) (l : list B) : forall a,
  Forall Q l -> (forall a b, Q b -> P a -> P (f a b)) -> P a -> P (fold_left f l a).
Proof.
  induction l as [ | b l IH]; intros a Hl Hstep Ha; simpl; [assumption | ].
  inversion Hl; subst. apply IH; auto.
Qed.

Lemma allOf_app p a b : allOf p (a +:+ b) = allOf p a && allOf p b.
Proof.
  induction a as [ | c a IH]; simpl; [reflexivity | ].
  rewrite IH. now rewrite andb_assoc.
Qed.

Lemma rev_app_append s1 : forall s2,
  String.rev_app s1 s2 = (String.rev s1 +:+ s2)%string.
Proof.
  unfold String.rev. induction s1 as [ | c s1 IH]; intros s2; [reflexivity | ].
  cbn [String.rev_app]. rewrite (IH (String c s2)), (IH (String c EmptyString)).
  now rewrite append_assoc.
Qed.

Lemma rev_cons c s : String.rev (String c s) = (String.rev s +:+ String c EmptyString)%string.
Proof. unfold String.rev at 1. cbn [String.rev_app]. apply rev_app_append. Qed.

Lemma allOf_rev p s : allOf p (String.rev s) = allOf p s.
Proof.
  induction s as [ | c s IH]; [reflexivity | ].
  rewrite rev_cons, allOf_app, IH. simpl. rewrite andb_true_r. apply andb_comm.
Qed.

Lemma rev_nonempty c s : String.rev (String c s) <> EmptyString.
Proof.
  rewrite rev_cons. destruct (String.rev s); discriminate.
Qed.

Lemma labelFrom_spec line : forall cur l,
  noColon cur = true ->
  labelFrom cur line = Some l ->
  l <> EmptyString /\ noColon l = true /\ (String.rev cur +:+ line)%string = (l +:+ ":")%string.
Proof.
  induction line as [ | c r IH]; intros cur l Hcur Hl; simpl in Hl; [discriminate | ].
  destruct (Ascii.eqb c ":") eqn:Ec.
  - apply Ascii.eqb_eq in Ec as ->.
    destruct r; [ | discriminate]. destruct cur as [ | d cur]; [discriminate | ].
    injection Hl as <-. split; [apply rev_nonempty | ]. split; [ | reflexivity].
    unfold noColon in *. now rewrite allOf_rev.
  - destruct (IH (String c cur) l) as (Hne & Hno & Heq); [ | assumption | ].
    { unfold noColon in *. simpl. now rewrite Ec, Hcur. }
    split; [assumption | ]. split; [assumption | ].
    rewrite <- Heq, rev_cons. now rewrite append_assoc.
Qed.

Lemma matchLabel_spec line l :
  matchLabel line = Some l ->
  l <> EmptyString /\ noColon l = true /\ line = (l +:+ ":")%string.
Proof.
  intros Hl. now apply (labelFrom_spec line EmptyString l) in Hl.
Qed.

Lemma save_plausible lines st : parsing lines st -> Forall (plausible lines) (save st).
Proof.
  intros (Htemps & Hlabel & Hcur). unfold save.
  destruct (negb (String.eqb (currentLabel st) EmptyString)) eqn:El; cbn [andb]; [ | assumption].
  destruct (F64.ltb F64.zero (Current (currentTemp st))) eqn:Ec; [ | assumption].
  apply Forall_app. split; [assumption | ]. constructor; [ | constructor].
  split; cbn [Label Current].
  - destruct Hlabel as [Hl | Hl]; [ | assumption]. rewrite Hl in El. discriminate.
  - destruct Hcur as [Hz | Hr]; [ | assumption]. rewrite Hz in Ec. discriminate.
Qed.

Lemma parseLine_parsing lines st line :
  line ∈ lines -> parsing lines st -> parsing lines (parseLine st line).
Proof.
  intros Hline Hst. pose proof (save_plausible lines st Hst) as Hsave.
  destruct Hst as (Htemps & Hlabel & Hcur). unfold parseLine.
  destruct (matchLabel line) as [label | ] eqn:El.
  - apply matchLabel_spec in El as (Hne & Hno & ->).
    split; [exact Hsave | ]. split; [right; repeat split; assumption | left; reflexivity].
  - destruct (matchTemp "input" line) as [m | ].
    + destruct (F64.ltb F64.zero (ParseFloat m) && F64.ltb (ParseFloat m) c150) eqn:Ev.
      * apply andb_true_iff in Ev. split; [assumption | ]. split; [assumption | ].
        right. exact Ev.
      * repeat split; assumption.
    + destruct (matchTemp "max" line) as [m | ]; [repeat split; assumption | ].
      destruct (matchTemp "crit" line) as [m | ]; repeat split; assumption.
Qed.

Lemma parse_plausible (output : string) :
  Forall (plausible (Split output "010"%char)) (parseSensorsOutput output).
Proof.
  unfold parseSensorsOutput. apply save_plausible.
  apply (fold_left_invariant (parsing (Split output "010"%char))
           (fun line => line ∈ Split output "010"%char)).
  - apply Forall_forall. auto.
  - intros st line. apply parseLine_parsing.
  - split; [constructor | ]. split; left; reflexivity.
Qed.

(** X13. Every reading [parseSensorsOutput] returns is plausible: its label,
    followed by a colon, is a line of the output, it is not empty and holds
    no colon, and its temperature is strictly between 0 and 150. *)
Theorem X13_sensors_readings_are_plausible (output : string) (t : Temperature) :
  t ∈ parseSensorsOutput output ->
  plausible (Split output "010"%char) t.
Proof.
  intros Ht. eapply Forall_forall; [apply parse_plausible | exact Ht].
Qed.

Lemma save_length st : (length (save st) <= length (temps st) + pending st)%nat.
Proof.
  unfold save, pending. destruct (String.eqb (currentLabel st) EmptyString); cbn [negb andb].
  - lia.
  - destruct (F64.ltb _ _); [rewrite length_app; simpl | ]; lia.
Qed.

Lemma parseLine_length st line :
  (length (temps (parseLine st line)) + pending (parseLine st line)
   <= length (temps st) + pending st + length (omap matchLabel [line]))%nat.
Proof.
  unfold parseLine. cbn [omap list_omap]. destruct (matchLabel line) as [label | ].
  - pose proof (save_length st). unfold pending at 1. cbn [temps currentLabel length].
    destruct (String.eqb label EmptyString); lia.
  - cbn [length]. rewrite Nat.add_0_r.
    destruct (matchTemp "input" line) as [m | ].
    { destruct (_ && _); unfold pending; cbn [temps currentLabel]; lia. }
    destruct (matchTemp "max" line) as [m | ]; [unfold pending; cbn [temps currentLabel]; lia | ].
    destruct (matchTemp "crit" line) as [m | ]; unfold pending; cbn [temps currentLabel]; lia.
Qed.

Lemma parse_length lines : forall st,
  (length (temps (fold_left parseLine lines st)) + pending (fold_left parseLine lines st)
   <= length (temps st) + pending st + length (omap matchLabel lines))%nat.
Proof.
  induction lines as [ | line lines IH]; intros st; [simpl; lia | ].
  cbn [fold_left]. pose proof (IH (parseLine st line)) as Hrest.
  pose proof (parseLine_length st line) as Hstep.
  change (omap matchLabel (line :: lines))
    with (omap matchLabel ([line] ++ lines)).
  rewrite omap_app, length_app. lia.
Qed.

(** X14. [parseSensorsOutput] returns at most one reading for each line of the
    output that is a label (something without a colon, then a colon). *)
Theorem X14_one_reading_per_label_line (output : string) :
  (length (parseSensorsOutput output)
   <= length (omap matchLabel (Split output "010"%char)))%nat.
Proof.
  unfold parseSensorsOutput.
  pose proof (parse_length (Split output "010"%char)
                {| temps := []; currentLabel := EmptyString; currentTemp := noTemperature |}) as H.
  pose proof (save_length
                (fold_left parseLine (Split output "010"%char)
                   {| temps := []; currentLabel := EmptyString;
                      currentTemp := noTemperature |})) as Hs.
  change (pending {| temps := []; currentLabel := EmptyString; currentTemp := noTemperature |})
    with 0%nat in H.
  cbn [temps length] in H. lia.
Qed.

Lemma firstLabelled_none prio temps :
  unlabelled prio temps -> firstLabelled prio temps = None.
Proof.
  induction 1 as [ | u temps Hu _ IH]; simpl; [reflexivity | ]. now rewrite Hu.
Qed.

Lemma firstLabelled_first prio pre t post :
  unlabelled prio pre -> Contains (Label t) prio = true ->
  firstLabelled prio (pre ++ t :: post) = Some (Current t).
Proof.
  induction 1 as [ | u pre Hu _ IH]; intros Ht; simpl.
  - now rewrite Ht.
  - rewrite Hu. auto.
Qed.

Lemma firstByPriority_first front prio back temps c :
  Forall (fun q => unlabelled q temps) front ->
  firstLabelled prio temps = Some c ->
  firstByPriority (front ++ prio :: back) temps = Some c.
Proof.
  induction 1 as [ | q front Hq _ IH]; intros Hc; simpl.
  - now rewrite Hc.
  - rewrite (firstLabelled_none _ _ Hq). auto.
Qed.

Lemma firstByPriority_none prios temps :
  Forall (fun q => unlabelled q temps) prios -> firstByPriority prios temps = None.
Proof.
  induction 1 as [ | q prios Hq _ IH]; simpl; [reflexivity | ].
  now rewrite (firstLabelled_none _ _ Hq).
Qed.

Lemma firstLabelled_elem prio temps c :
  firstLabelled prio temps = Some c -> exists u, u ∈ temps /\ c = Current u.
Proof.
  induction temps as [ | t temps IH]; simpl; [discriminate | ].
  destruct (Contains (Label t) prio).
  - intros [= <-]. exists t. split; [left | reflexivity].
  - intros Hc. destruct (IH Hc) as (u & Hu & ->). exists u. split; [now right | reflexivity].
Qed.

Lemma firstByPriority_elem prios temps c :
  firstByPriority prios temps = Some c -> exists u, u ∈ temps /\ c = Current u.
Proof.
  induction prios as [ | prio prios IH]; simpl; [discriminate | ].
  destruct (firstLabelled prio temps) as [c' | ] eqn:E; [ | exact IH].
  intros [= <-]. eapply firstLabelled_elem, E.
Qed.

(** X15. The priority of a label beats the position of its reading: when no
    label contains a string looked for earlier, the main temperature is that
    of the first reading whose label contains the string looked for, wherever
    readings with labels looked for later stand. *)
Theorem X15_priority_beats_position (front back : list string) (prio : string)
    (pre post : list Temperature) (t : Temperature) :
  priorities = front ++ prio :: back ->
  Forall (fun q => unlabelled q (pre ++ t :: post)) front ->
  unlabelled prio pre ->
  Contains (Label t) prio = true ->
  mainTemperature (pre ++ t :: post) = Current t.
Proof.
  intros Hprios Hfront Hpre Ht. unfold mainTemperature. rewrite Hprios.
  now rewrite (firstByPriority_first front prio back _ (Current t) Hfront
                 (firstLabelled_first prio pre t post Hpre Ht)).
Qed.

Lemma mainTemperature_elem t temps :
  exists u, u ∈ t :: temps /\ mainTemperature (t :: temps) = Current u.
Proof.
  unfold mainTemperature.
  destruct (firstByPriority priorities (t :: temps)) as [c | ] eqn:E.
  - destruct (firstByPriority_elem _ _ _ E) as (u & Hu & ->). eauto.
  - exists t. split; [left | reflexivity].
Qed.

(** X16. The main temperature is 0 without readings, and otherwise the
    temperature of one of the readings. *)
Theorem X16_main_temperature_is_a_reading :
  mainTemperature [] = F64.zero /\
  forall t temps, exists u, u ∈ t :: temps /\ mainTemperature (t :: temps) = Current u.
Proof.
  split; [reflexivity | exact mainTemperature_elem].
Qed.

(** X17. When no label contains any of the six strings looked for, the main
    temperature is that of the first reading. *)
Theorem X17_no_priority_first_reading (t : Temperature) (temps : list Temperature) :
  Forall (fun q => unlabelled q (t :: temps)) priorities ->
  mainTemperature (t :: temps) = Current t.
Proof.
  intros Hnone. unfold mainTemperature. now rewrite (firstByPriority_none _ _ Hnone).
Qed.

(** X18. When [sensors] answers and its output holds a valid reading, the main
    temperature is strictly between 0 and 150: the thermal zones are not
    read, and each reading of the output has passed the sanity check. *)
Theorem X18_main_temperature_from_sensors (src : Sources) (output : string) :
  sensorsOutput src = Some output ->
  parseSensorsOutput output <> [] ->
  GetTemperatures src = parseSensorsOutput output /\
  inRange (GetMainTemperature src).
Proof.
  intros Hout Hsome.
  assert (Hget : GetTemperatures src = parseSensorsOutput output).
  { unfold GetTemperatures, getSensorsTemperatures. rewrite Hout.
    destruct (parseSensorsOutput output); [congruence | reflexivity]. }
  split; [exact Hget | ]. unfold GetMainTemperature. rewrite Hget.
  destruct (parseSensorsOutput output) as [ | t temps] eqn:E; [congruence | ].
  destruct (mainTemperature_elem t temps) as (u & Hu & ->).
  pose proof (parse_plausible output) as Hall. rewrite E in Hall.
  apply (proj1 (Forall_forall _ _) Hall u Hu).
Qed.

Lemma readZone_reading (src : Sources) acc zonePath data :
  ReadFile src zonePath = (data, false) ->
  ParseFloatFails (GoStr.TrimSpace data) = false ->
  exists t, readZone src acc zonePath = acc ++ [t] /\ zoneReading src zonePath t.
Proof.
  intros Hread Hparse. unfold readZone. rewrite Hread, Hparse.
  eexists. split; [reflexivity | ]. exists data.
  cbn [Label Current High Crit]. fold (zoneType src zonePath).
  split; [assumption | ]. split; [assumption | ]. split; [reflexivity | ].
  destruct (String.eqb (zoneType src zonePath) EmptyString) eqn:El.
  - apply String.eqb_eq in El. split; [congruence | ]. split; [reflexivity | ].
    split; [apply Base_nonempty | auto].
  - apply String.eqb_neq in El. split; [reflexivity | ]. split; [congruence | ].
    split; [assumption | auto].
Qed.

Lemma readZone_skip (src : Sources) acc zonePath :
  ~ zoneReadable src zonePath -> readZone src acc zonePath = acc.
Proof.
  intros Hno. unfold readZone.
  destruct (ReadFile src zonePath) as [data [ | ]] eqn:Hread; [reflexivity | ].
  destruct (ParseFloatFails (GoStr.TrimSpace data)) eqn:Hparse; [reflexivity | ].
  destruct Hno. exists data. auto.
Qed.

Lemma readZone_cases (src : Sources) acc zonePath :
  readZone src acc zonePath = acc \/
  exists t, readZone src acc zonePath = acc ++ [t] /\ zoneReading src zonePath t.
Proof.
  unfold readZone at 1.
  destruct (ReadFile src zonePath) as [data [ | ]] eqn:Hread; [now left | ].
  destruct (ParseFloatFails (GoStr.TrimSpace data)) eqn:Hparse; [now left | ].
  right. destruct (readZone_reading src acc zonePath data Hread Hparse) as (t & Ht & Hr).
  exists t. split; [ | assumption]. rewrite <- Ht. unfold readZone. now rewrite Hread, Hparse.
Qed.

Lemma readZone_sound (src : Sources) (zones : list string) acc zonePath :
  zonePath ∈ zones ->
  Forall (fun t => exists z, z ∈ zones /\ zoneReading src z t) acc ->
  Forall (fun t => exists z, z ∈ zones /\ zoneReading src z t) (readZone src acc zonePath).
Proof.
  intros Hz Hacc. destruct (readZone_cases src acc zonePath) as [-> | (t & -> & Ht)];
    [assumption | ].
  apply Forall_app. split; [assumption | ]. constructor; [eauto | constructor].
Qed.

Lemma readZone_length (src : Sources) acc zonePath :
  (length (readZone src acc zonePath) <= S (length acc))%nat.
Proof.
  destruct (readZone_cases src acc zonePath) as [-> | (t & -> & _)]; [lia | ].
  rewrite length_app. simpl. lia.
Qed.

Lemma readZones_length (src : Sources) zones : forall acc,
  (length (fold_left (readZone src) zones acc) <= length zones + length acc)%nat.
Proof.
  induction zones as [ | z zones IH]; intros acc; simpl; [lia | ].
  pose proof (IH (readZone src acc z)). pose proof (readZone_length src acc z). lia.
Qed.

Lemma readZones_keep (src : Sources) zones : forall acc t,
  t ∈ acc -> t ∈ fold_left (readZone src) zones acc.
Proof.
  induction zones as [ | z zones IH]; intros acc t Ht; simpl; [assumption | ].
  apply IH. destruct (readZone_cases src acc z) as [-> | (u & -> & _)]; [assumption | ].
  apply elem_of_app. now left.
Qed.

Lemma readZones_complete (src : Sources) zones : forall acc z,
  z ∈ zones -> zoneReadable src z ->
  exists t, t ∈ fold_left (readZone src) zones acc /\ zoneReading src z t.
Proof.
  induction zones as [ | z0 zones IH]; intros acc z Hz Hread; [inversion Hz | ].
  cbn [fold_left]. apply elem_of_cons in Hz as [-> | Hz]; [ | now apply IH].
  destruct Hread as (data & Hfile & Hparse).
  destruct (readZone_reading src acc z0 data Hfile Hparse) as (t & -> & Ht).
  exists t. split; [ | assumption]. apply readZones_keep, elem_of_app. right. left.
Qed.

(** X19. When [sensors] cannot be run, the readings are those of the thermal
    zones: at most one for each zone; each made from a zone whose file could
    be read and holds a number, with that number divided by 1000 as its
    temperature, the trimmed text of the [type] file of the zone as its label,
    or the name of the zone directory when that text is empty, a label that
    is never empty, and no high or critical temperature; and every zone whose
    file can be read and holds a number has its reading in the result. *)
Theorem X19_readings_of_the_thermal_zones (src : Sources) (zones : list string) :
  sensorsOutput src = None ->
  thermalZones src = Some zones ->
  (length (GetTemperatures src) <= length zones)%nat /\
  (forall t, t ∈ GetTemperatures src -> exists z, z ∈ zones /\ zoneReading src z t) /\
  (forall z, z ∈ zones -> zoneReadable src z ->
             exists t, t ∈ GetTemperatures src /\ zoneReading src z t).
Proof.
  intros Hno Hzones.
  assert (Hget : GetTemperatures src = fold_left (readZone src) zones []).
  { unfold GetTemperatures, getSensorsTemperatures, getSysfsTemperatures.
    rewrite Hno, Hzones. reflexivity. }
  rewrite Hget. split; [ | split].
  - pose proof (readZones_length src zones []) as H. simpl in H. lia.
  - apply Forall_forall.
    apply (fold_left_invariant
             (Forall (fun t => exists z, z ∈ zones /\ zoneReading src z t))
             (fun z => z ∈ zones)).
    + apply Forall_forall. auto.
    + intros acc z. apply readZone_sound.
    + constructor.
  - intros z. apply readZones_complete.
Qed.

End Temperatures.

Lemma X13_sensors_readings_are_plausible_witness :
  tctlReading ∈ @temperature.parseSensorsOutput smallLib sensorsText /\
  plausible (GoText.Split sensorsText "010"%char) tctlReading.
Proof.
  assert (Hin : tctlReading ∈ @temperature.parseSensorsOutput smallLib sensorsText).
  { vm_compute. left. }
  split; [exact Hin | ].
  exact (@X13_sensors_readings_are_plausible smallLib sensorsText tctlReading Hin).
Defined.

Lemma X15_priority_beats_position_witness :
  temperature.mainTemperature mixedReadings = alerts.c90.
Proof.
  unfold mixedReadings.
  apply (X15_priority_beats_position ["Tctl"; "Tdie"]%string ["Core 0"; "CPU"; "temp1"]%string
           "Package"
           [ {| temperature.Label := "Core 0"; temperature.Current := alerts.c85;
                temperature.High := F64.zero; temperature.Crit := F64.zero |} ]
           []
           {| temperature.Label := "Package id 0"; temperature.Current := alerts.c90;
              temperature.High := F64.zero; temperature.Crit := F64.zero |}).
  - reflexivity.
  - repeat constructor.
  - repeat constructor.
  - reflexivity.
Defined.

Lemma X17_no_priority_first_reading_witness :
  temperature.mainTemperature plainReadings = alerts.c85.
Proof.
  unfold plainReadings.
  apply (X17_no_priority_first_reading
           {| temperature.Label := "acpitz"; temperature.Current := alerts.c85;
              temperature.High := F64.zero; temperature.Crit := F64.zero |}).
  repeat constructor.
Defined.

Lemma X18_main_temperature_from_sensors_witness :
  @temperature.GetTemperatures smallLib smallPathLib withSensors
  = @temperature.parseSensorsOutput smallLib sensorsText /\
  inRange (@temperature.GetMainTemperature smallLib smallPathLib withSensors).
Proof.
  apply (@X18_main_temperature_from_sensors smallLib smallPathLib withSensors sensorsText).
  - reflexivity.
  - vm_compute. discriminate.
Defined.

Lemma X19_readings_of_the_thermal_zones_witness :
  @temperature.GetTemperatures smallLib smallPathLib withZones
  = [zone0Reading; zone1Reading] /\
  @zoneType smallPathLib withZones "/sys/class/thermal/thermal_zone0/temp" = "x86_pkg_temp"%string /\
  @zoneType smallPathLib withZones "/sys/class/thermal/thermal_zone1/temp" = EmptyString /\
  (exists z, z ∈ zonePaths /\ @zoneReading smallLib smallPathLib withZones z zone0Reading) /\
  (exists z, z ∈ zonePaths /\ @zoneReading smallLib smallPathLib withZones z zone1Reading).
Proof.
  assert (Hget : @temperature.GetTemperatures smallLib smallPathLib withZones
                 = [zone0Reading; zone1Reading]) by (vm_compute; reflexivity).
  split; [exact Hget | ]. split; [vm_compute; reflexivity | ].
  split; [vm_compute; reflexivity | ].
  destruct (@X19_readings_of_the_thermal_zones smallLib smallPathLib
              withZones zonePaths eq_refl eq_refl) as (_ & Hall & _).
  split; apply Hall; rewrite Hget.
  - left.
  - right. left.
Defined.
(** ** The ring buffer *)

Import histbuf Ring.

Lemma MaxSamples_eq : MaxSamples = 360.
Proof. reflexivity. Qed.

Lemma wf_New : wf NewHistoryBuffer.
Proof.
  unfold wf, NewHistoryBuffer, len. cbn [data head count].
  rewrite length_replicate, MaxSamples_eq. lia.
Qed.

Lemma wf_Clear hb : wf hb -> wf (Clear hb).
Proof. unfold wf, Clear. simpl. rewrite MaxSamples_eq. lia. Qed.

Lemma GetAll_contents hb : wf hb -> GetAll hb = Ok (contents hb).
Proof.
  intros (Hlen & Hhead & Hcount & Hpart). unfold GetAll, contents, len in *.
  destruct (count hb =? 0) eqn:E0.
  - apply Z.eqb_eq in E0. rewrite E0.
    replace (0 <? MaxSamples) with true by (rewrite MaxSamples_eq; reflexivity).
    reflexivity.
  - unfold make. replace (0 <=? count hb) with true by (symmetry; apply Z.leb_le; lia).
    cbn [mbind Res_bind].
    destruct (count hb <? MaxSamples) eqn:E1.
    + unfold upto, len. replace ((0 <=? count hb) && (count hb <=? Z.of_nat (length (data hb))))
        with true by (symmetry; apply andb_true_iff; split; apply Z.leb_le; lia).
      cbn [mbind Res_bind]. unfold copy. f_equal.
      rewrite length_replicate, take_take, Nat.min_id.
      rewrite length_take_le by lia.
      rewrite drop_replicate, Nat.sub_diag. apply app_nil_r.
    + apply Z.ltb_ge in E1. assert (Hfull : count hb = MaxSamples) by lia.
      unfold from, upto, len.
      replace ((0 <=? head hb) && (head hb <=? Z.of_nat (length (data hb))))
        with true by (symmetry; apply andb_true_iff; split; apply Z.leb_le; lia).
      cbn [mbind Res_bind]. unfold copy.
      set (h := Z.to_nat (head hb)). set (c := Z.to_nat (count hb)).
      assert (Hc : c = length (data hb)) by lia.
      assert (Hh : (h < length (data hb))%nat) by lia.
      rewrite length_replicate, length_drop.
      rewrite (take_ge (drop h (data hb))) by (rewrite length_drop; lia).
      rewrite drop_replicate.
      replace (c - (length (data hb) - h))%nat with h by lia.
      replace ((0 <=? Z.of_nat (length (data hb) - h)) &&
               (Z.of_nat (length (data hb) - h)
                <=? Z.of_nat (length (drop h (data hb) ++ replicate h zeroPoint))))
        with true.
      2: { symmetry. apply andb_true_iff. split; apply Z.leb_le; [lia | ].
           rewrite length_app, length_drop, length_replicate. lia. }
      cbn [mbind Res_bind]. f_equal. rewrite Nat2Z.id.
      rewrite take_app_length' by (rewrite length_drop; lia).
      rewrite drop_app_length' by (rewrite length_drop; lia).
      f_equal. rewrite length_replicate, length_take_le by lia.
      rewrite (take_ge (take h (data hb))) by (rewrite length_take_le; lia).
      rewrite drop_replicate, Nat.sub_diag. apply app_nil_r.
Qed.

Lemma contents_length hb : wf hb -> len (contents hb) = count hb.
Proof.
  intros (Hlen & Hhead & Hcount & Hpart). unfold contents, len in *.
  destruct (count hb <? MaxSamples) eqn:E1.
  - rewrite length_take_le; lia.
  - apply Z.ltb_ge in E1. rewrite length_app, length_drop, length_take_le; lia.
Qed.

Lemma newest_short {A : Type} (l : list A) :
  Z.of_nat (length l) <= MaxSamples -> newest l = l.
Proof. intros H. unfold newest. replace (length l - _)%nat with 0%nat by lia. apply drop_0. Qed.

Lemma newest_app {A : Type} (l k : list A) : newest (newest l ++ k) = newest (l ++ k).
Proof.
  unfold newest. rewrite length_app, length_drop.
  rewrite <- (drop_app_le l k) by lia.
  rewrite drop_drop, length_app. f_equal. lia.
Qed.

Lemma Add_contents hb x :
  wf hb ->
  exists hb', Add hb x = Ok hb' /\ wf hb' /\ contents hb' = newest (contents hb ++ [x]).
Proof.
  intros (Hlen & Hhead & Hcount & Hpart). unfold Add, store. unfold len in *.
  replace ((0 <=? head hb) && (head hb <? Z.of_nat (length (data hb)))) with true
    by (symmetry; apply andb_true_iff; split; [apply Z.leb_le | apply Z.ltb_lt]; lia).
  cbn [mbind Res_bind]. eexists. split; [reflexivity | ].
  pose proof MaxSamples_eq as HM.
  set (h := Z.to_nat (head hb)).
  assert (Hh : (h < length (data hb))%nat) by lia.
  assert (Hh1 : i64_add (head hb) 1 = head hb + 1)
    by (unfold i64_add; apply wrap_i64_small; lia).
  assert (Hrem : Z.rem (head hb + 1) MaxSamples
                 = if head hb + 1 <? MaxSamples then head hb + 1 else 0).
  { destruct (head hb + 1 <? MaxSamples) eqn:E.
    - apply Z.ltb_lt in E. apply Z.rem_small. lia.
    - apply Z.ltb_ge in E. replace (head hb + 1) with MaxSamples by lia.
      apply Z.rem_same. lia. }
  rewrite Hh1, Hrem.
  destruct (count hb <? MaxSamples) eqn:E1.
  - apply Z.ltb_lt in E1. specialize (Hpart E1).
    assert (Hc1 : i64_add (count hb) 1 = count hb + 1)
      by (unfold i64_add; apply wrap_i64_small; lia).
    rewrite Hc1. split.
    + unfold wf, len. cbn [data head count]. rewrite length_insert.
      destruct (head hb + 1 <? MaxSamples) eqn:E2;
        [apply Z.ltb_lt in E2 | apply Z.ltb_ge in E2]; lia.
    + unfold contents. cbn [data head count].
      replace (count hb <? MaxSamples) with true by (symmetry; apply Z.ltb_lt; lia).
      replace (Z.to_nat (count hb)) with h by lia.
      rewrite newest_short by (rewrite length_app, length_take_le; simpl; lia).
      rewrite Hpart.
      destruct (count hb + 1 <? MaxSamples) eqn:E2.
      * replace (Z.to_nat (count hb + 1)) with (S h) by lia.
        rewrite (take_S_r _ h x) by (now apply list_lookup_insert_eq).
        now rewrite take_insert_ge by lia.
      * apply Z.ltb_ge in E2. cbn [Z.to_nat]. rewrite drop_0, take_0, app_nil_r.
        rewrite insert_take_drop by assumption.
        rewrite (drop_ge _ (S h)) by lia. reflexivity.
  - apply Z.ltb_ge in E1. assert (Hfull : count hb = MaxSamples) by lia. split.
    + unfold wf, len. cbn [data head count]. rewrite length_insert.
      destruct (head hb + 1 <? MaxSamples) eqn:E2;
        [apply Z.ltb_lt in E2 | apply Z.ltb_ge in E2]; lia.
    + unfold contents. cbn [data head count].
      replace (count hb <? MaxSamples) with false by (symmetry; apply Z.ltb_ge; lia).
      fold h. unfold newest.
      rewrite !length_app, length_drop, length_take_le by lia. cbn [length].
      replace (length (data hb) - h + h + 1 - Z.to_nat MaxSamples)%nat with 1%nat by lia.
      rewrite <- app_assoc.
      rewrite drop_app_le by (rewrite length_drop; lia).
      rewrite drop_drop. replace (h + 1)%nat with (S h) by lia.
      destruct (head hb + 1 <? MaxSamples) eqn:E2.
      * apply Z.ltb_lt in E2.
        replace (Z.to_nat (head hb + 1)) with (S h) by lia.
        rewrite drop_insert_lt by lia.
        rewrite (take_S_r _ h x) by (now apply list_lookup_insert_eq).
        now rewrite take_insert_ge by lia.
      * apply Z.ltb_ge in E2. cbn [Z.to_nat]. rewrite drop_0, take_0, app_nil_r.
        rewrite insert_take_drop by assumption.
        rewrite (drop_ge _ (S h)) by lia. reflexivity.
Qed.

Lemma wf_Add hb x hb' : wf hb -> Add hb x = Ok hb' -> wf hb'.
Proof.
  intros Hwf Hadd. destruct (Add_contents hb x Hwf) as (hb'' & Hadd' & Hwf' & _).
  congruence.
Qed.

Lemma AddAll_contents points : forall hb,
  wf hb ->
  exists hb', AddAll hb points = Ok hb' /\ wf hb' /\
    contents hb' = newest (contents hb ++ points).
Proof.
  unfold AddAll. induction points as [ | x points IH]; intros hb Hwf; simpl.
  - exists hb. split; [reflexivity | ]. split; [assumption | ].
    rewrite app_nil_r. symmetry. apply newest_short.
    pose proof (contents_length hb Hwf) as Hl. destruct Hwf as (_ & _ & ? & _).
    unfold len in Hl. lia.
  - destruct (Add_contents hb x Hwf) as (hb1 & -> & Hwf1 & Hc1).
    destruct (IH hb1 Hwf1) as (hb' & Hall & Hwf' & Hc').
    exists hb'. split; [assumption | ]. split; [assumption | ].
    rewrite Hc', Hc1, newest_app, <- app_assoc. reflexivity.
Qed.

Lemma contents_New : contents NewHistoryBuffer = [].
Proof. reflexivity. Qed.

(** C2. Inserting exactly [MaxSamples] = 360 samples into an empty buffer and
    reading it out returns them in insertion order; one sample more evicts
    precisely the first one and the length stays 360; and once the buffer is
    full [GetAll] is the storage from the cursor to its end followed by the
    storage before the cursor, which is the last 360 samples inserted, oldest
    first, each once. *)
Theorem C2_ring_buffer_round_trip :
  MaxSamples = 360 /\
  (forall points,
     len points = MaxSamples ->
     exists hb, AddAll NewHistoryBuffer points = Ok hb /\ GetAll hb = Ok points) /\
  (forall first points,
     len points = MaxSamples ->
     exists hb, AddAll NewHistoryBuffer (first :: points) = Ok hb /\
       GetAll hb = Ok points /\ Count hb = MaxSamples) /\
  (forall hb,
     wf hb -> count hb = MaxSamples ->
     GetAll hb = Ok (drop (Z.to_nat (head hb)) (data hb) ++ take (Z.to_nat (head hb)) (data hb))) /\
  (forall points,
     MaxSamples <= len points ->
     exists hb, AddAll NewHistoryBuffer points = Ok hb /\
       count hb = MaxSamples /\
       GetAll hb = Ok (drop (length points - Z.to_nat MaxSamples) points)).
Proof.
  assert (Hgen : forall points, exists hb,
            AddAll NewHistoryBuffer points = Ok hb /\ wf hb /\
            GetAll hb = Ok (newest points) /\ contents hb = newest points).
  { intros points. destruct (AddAll_contents points _ wf_New) as (hb & Hadd & Hwf & Hc).
    rewrite contents_New in Hc. simpl in Hc.
    exists hb. rewrite GetAll_contents, Hc by assumption. auto. }
  split; [reflexivity | ]. split; [ | split; [ | split]].
  - intros points Hlen. destruct (Hgen points) as (hb & Hadd & _ & Hall & _).
    exists hb. split; [assumption | ].
    rewrite Hall, newest_short; [reflexivity | unfold len in Hlen; lia].
  - intros first points Hlen.
    destruct (Hgen (first :: points)) as (hb & Hadd & Hwf & Hall & Hc).
    exists hb. split; [assumption | ].
    assert (Hnew : newest (first :: points) = points).
    { unfold newest. unfold len in Hlen. cbn [length].
      replace (S (length points) - Z.to_nat MaxSamples)%nat with 1%nat by lia.
      reflexivity. }
    rewrite Hnew in Hall, Hc. split; [assumption | ].
    unfold Count. rewrite <- (contents_length hb Hwf), Hc. assumption.
  - intros hb Hwf Hfull. rewrite GetAll_contents by assumption. unfold contents.
    now replace (count hb <? MaxSamples) with false by (symmetry; apply Z.ltb_ge; lia).
  - intros points Hlen. destruct (Hgen points) as (hb & Hadd & Hwf & Hall & Hc).
    exists hb. split; [assumption | ]. split; [ | assumption].
    rewrite <- (contents_length hb Hwf), Hc. unfold newest, len in *.
    pose proof MaxSamples_eq. rewrite length_drop. lia.
Qed.

Lemma C2_ring_buffer_round_trip_witness :
  (exists hb, AddAll NewHistoryBuffer (samples 1 360) = Ok hb /\
     GetAll hb = Ok (samples 1 360)) /\
  (exists hb, AddAll NewHistoryBuffer (sample 0 :: samples 1 360) = Ok hb /\
     GetAll hb = Ok (samples 1 360) /\ Count hb = MaxSamples).
Proof.
  destruct C2_ring_buffer_round_trip as (_ & Hexact & Hmore & _).
  split.
  - apply Hexact. vm_compute. reflexivity.
  - apply Hmore. vm_compute. reflexivity.
Defined.

(** A negative [n] is no number of samples: on a buffer that holds samples the
    slice expression of [GetLast] is then out of range. *)
Lemma GetLast_negative hb n :
  wf hb -> 0 < count hb -> n < 0 -> - 2 ^ 62 < n -> GetLast hb n = Panic.
Proof.
  intros Hwf Hcount Hneg Hmin. pose proof (GetAll_contents hb Hwf) as Hall.
  pose proof (contents_length hb Hwf) as Hlen.
  destruct Hwf as (_ & _ & Hc & _). pose proof MaxSamples_eq.
  unfold GetLast. rewrite Hall. cbn [mbind Res_bind]. rewrite Hlen.
  replace (count hb <=? n) with false by (symmetry; apply Z.leb_gt; lia).
  unfold from. rewrite Hlen. unfold i64_sub. rewrite wrap_i64_small by lia.
  replace (count hb - n <=? count hb) with false by (symmetry; apply Z.leb_gt; lia).
  now rewrite andb_false_r.
Qed.

(** C8 as stated does not hold: [n] is an [int], a negative [n] is at most
    the occupancy, and on a buffer that holds five samples [GetLast (-1)]
    panics instead of returning a tail of [GetAll]. *)
Lemma C8_negative_count_is_no_tail :
  (exists hb,
     AddAll NewHistoryBuffer (samples 1 5) = Ok hb /\ wf hb /\ count hb = 5 /\
     GetLast hb (-1) = Panic) /\
  ~ tailForEveryCount.
Proof.
  destruct (AddAll_contents (samples 1 5) _ wf_New) as (hb & Hadd & Hwf & Hc).
  assert (Hcount : count hb = 5).
  { rewrite <- (contents_length hb Hwf), Hc. vm_compute. reflexivity. }
  assert (Hpanic : GetLast hb (-1) = Panic).
  { apply GetLast_negative; [assumption | lia | lia | lia]. }
  split; [exists hb; auto | ].
  intros Hall. destruct (Hall hb (-1) Hwf) as [_ Htail].
  destruct Htail as (all & _ & Hlast); [lia | ]. congruence.
Qed.

(** C8, amended.  On every buffer state, [GetLast n] with [n] above the
    occupancy returns exactly the samples held, as many as the occupancy; with
    [n] from 0 up to the occupancy it returns the last [n] samples of
    [GetAll], which are the [n] most recent of the samples added. *)
Theorem C8_GetLast (hb : HistoryBuffer) (n : Z) :
  wf hb ->
  (count hb < n ->
   exists all, GetAll hb = Ok all /\ GetLast hb n = Ok all /\ len all = count hb) /\
  (0 <= n <= count hb ->
   exists all, GetAll hb = Ok all /\ GetLast hb n = Ok (lastN n all) /\
     len (lastN n all) = n) /\
  (forall points,
     AddAll NewHistoryBuffer points = Ok hb -> 0 <= n <= count hb ->
     GetLast hb n = Ok (lastN n points)).
Proof.
  intros Hwf. pose proof (GetAll_contents hb Hwf) as Hall.
  pose proof (contents_length hb Hwf) as Hlen.
  assert (Hin : 0 <= n <= count hb ->
                GetLast hb n = Ok (lastN n (contents hb)) /\ len (lastN n (contents hb)) = n).
  { intros Hn. unfold GetLast. rewrite Hall. cbn [mbind Res_bind]. rewrite Hlen.
    destruct (count hb <=? n) eqn:E.
    - apply Z.leb_le in E. unfold lastN, len in *.
      replace (length (contents hb) - Z.to_nat n)%nat with 0%nat by lia.
      rewrite drop_0. split; [reflexivity | lia].
    - apply Z.leb_gt in E. unfold from. rewrite Hlen.
      destruct Hwf as (_ & _ & Hc & _). pose proof MaxSamples_eq.
      unfold i64_sub. rewrite wrap_i64_small by lia.
      replace ((0 <=? count hb - n) && (count hb - n <=? count hb)) with true
        by (symmetry; apply andb_true_iff; split; apply Z.leb_le; lia).
      unfold lastN, len in *.
      replace (Z.to_nat (count hb - n)) with (length (contents hb) - Z.to_nat n)%nat by lia.
      split; [reflexivity | ]. rewrite length_drop. lia. }
  split; [ | split].
  - intros Hn. exists (contents hb). split; [assumption | ]. split; [ | assumption].
    unfold GetLast. rewrite Hall. cbn [mbind Res_bind]. rewrite Hlen.
    now replace (count hb <=? n) with true by (symmetry; apply Z.leb_le; lia).
  - intros Hn. exists (contents hb). split; [assumption | ]. now apply Hin.
  - intros points Hadd Hn. destruct (Hin Hn) as [-> _]. f_equal.
    destruct (AddAll_contents points _ wf_New) as (hb' & Hadd' & _ & Hc).
    rewrite Hadd in Hadd'. injection Hadd' as <-.
    rewrite contents_New in Hc. simpl in Hc.
    rewrite Hc in Hlen |- *. unfold lastN, newest, len in *.
    rewrite length_drop in Hlen |- *. rewrite drop_drop. f_equal. lia.
Qed.

Lemma C8_GetLast_witness :
  exists hb,
    AddAll NewHistoryBuffer (samples 1 5) = Ok hb /\
    GetLast hb 9 = Ok (samples 1 5) /\
    GetLast hb 2 = Ok (samples 4 2).
Proof.
  destruct (AddAll_contents (samples 1 5) _ wf_New) as (hb & Hadd & Hwf & Hc).
  exists hb. split; [assumption | ].
  assert (Hcount : count hb = 5).
  { rewrite <- (contents_length hb Hwf), Hc. vm_compute. reflexivity. }
  split.
  - destruct (C8_GetLast hb 9 Hwf) as (Habove & _).
    destruct Habove as (all & Hall & Hlast & _); [lia | ].
    rewrite Hlast, <- Hall, (GetAll_contents hb Hwf), Hc. reflexivity.
  - destruct (C8_GetLast hb 2 Hwf) as (_ & _ & Hrecent).
    rewrite (Hrecent (samples 1 5) Hadd) by lia. reflexivity.
Defined.

(** C10. When the discovery of processes fails, [RecordHistory] returns
    without adding a sample: the history buffer, with its contents, its
    occupancy and its cursor, is as it was, and so is the monitor. *)
Theorem C10_failed_poll_records_nothing (lib : GoLib) host (h : api.Handler) pm' e :
  GetProcesses host (api.processMonitor h) = Ok (pm', inr e) ->
  exists h',
    api.RecordHistory host h = Ok h' /\
    api.history h' = api.history h /\
    data (api.history h') = data (api.history h) /\
    count (api.history h') = count (api.history h) /\
    head (api.history h') = head (api.history h) /\
    GetAll (api.history h') = GetAll (api.history h) /\
    api.processMonitor h' = api.processMonitor h.
Proof.
  intros Herr. unfold api.RecordHistory. rewrite Herr. cbn [mbind Res_bind].
  apply GetProcesses_error in Herr as (_ & -> & _).
  eexists. split; [reflexivity | ]. simpl. auto 10.
Qed.

Lemma C10_failed_poll_records_nothing_witness :
  exists h',
    api.RecordHistory unreadable freshHandler = Ok h' /\
    api.history h' = NewHistoryBuffer.
Proof.
  destruct (C10_failed_poll_records_nothing smallLib unreadable freshHandler
              (NewProcessMonitor 0) failedToReadProc) as (h' & Hrec & Hhist & _).
  - reflexivity.
  - exists h'. split; [exact Hrec | exact Hhist].
Defined.

(** ** The ring buffer under any sequence of calls *)

Import Session.

Lemma newest_sinceClear calls : forall held,
  newest (sinceClear (newest held) calls) = newest (sinceClear held calls).
Proof.
  induction calls as [ | [point | ] calls IH]; intros held; cbn [sinceClear].
  - apply newest_short. unfold newest. rewrite length_drop. pose proof MaxSamples_eq. lia.
  - rewrite <- (IH (newest held ++ [point])), <- (IH (held ++ [point])).
    now rewrite newest_app.
  - reflexivity.
Qed.

Lemma contents_Clear hb : contents (Clear hb) = [].
Proof. reflexivity. Qed.

Lemma run_contents calls : forall hb,
  wf hb ->
  exists hb', run calls hb = Ok hb' /\ wf hb' /\
    contents hb' = newest (sinceClear (contents hb) calls).
Proof.
  unfold run. induction calls as [ | [point | ] calls IH]; intros hb Hwf; cbn [foldRes step].
  - exists hb. split; [reflexivity | ]. split; [assumption | ].
    cbn [sinceClear]. symmetry. apply newest_short.
    pose proof (contents_length hb Hwf) as Hl. destruct Hwf as (_ & _ & ? & _).
    unfold len in Hl. lia.
  - destruct (Add_contents hb point Hwf) as (hb1 & -> & Hwf1 & Hc1).
    destruct (IH hb1 Hwf1) as (hb' & Hrun & Hwf' & Hc').
    exists hb'. split; [assumption | ]. split; [assumption | ].
    cbn [sinceClear]. rewrite Hc', Hc1. apply newest_sinceClear.
  - destruct (IH (Clear hb) (wf_Clear hb Hwf)) as (hb' & Hrun & Hwf' & Hc').
    exists hb'. split; [assumption | ]. split; [assumption | ].
    now rewrite Hc', contents_Clear.
Qed.

(** X20. Whatever sequence of [Add] and [Clear] is run on a new buffer, no call
    panics, and [GetAll] then returns the samples added after the last
    [Clear], oldest first, or the last 360 of them when there are more;
    [Count] is their number and at most 360. *)
Theorem X20_buffer_after_any_calls (calls : list call) :
  exists hb all,
    run calls NewHistoryBuffer = Ok hb /\
    GetAll hb = Ok all /\
    all = newest (sinceClear [] calls) /\
    Count hb = len all /\
    Count hb <= MaxSamples.
Proof.
  destruct (run_contents calls _ wf_New) as (hb & Hrun & Hwf & Hc).
  exists hb, (contents hb). split; [assumption | ].
  split; [now apply GetAll_contents | ]. split; [now rewrite Hc, contents_New | ].
  split; [symmetry; now apply contents_length | ].
  destruct Hwf as (_ & _ & ? & _). unfold Count. lia.
Qed.

Lemma Z_rem_succ_mod k : 0 <= k -> Z.rem (k mod MaxSamples + 1) MaxSamples = (k + 1) mod MaxSamples.
Proof.
  intros Hk. rewrite MaxSamples_eq.
  rewrite Z.rem_mod_nonneg by (pose proof (Z.mod_pos_bound k 360); lia).
  rewrite Z.add_mod_idemp_l by lia. reflexivity.
Qed.

Lemma AddAll_cursor points : forall hb k,
  wf hb -> 0 <= k -> count hb = Z.min k MaxSamples -> head hb = k mod MaxSamples ->
  exists hb', AddAll hb points = Ok hb' /\
    count hb' = Z.min (k + len points) MaxSamples /\
    head hb' = (k + len points) mod MaxSamples.
Proof.
  unfold AddAll. induction points as [ | x points IH]; intros hb k Hwf Hk Hcount Hhead.
  - exists hb. unfold len. cbn [foldRes length]. rewrite Z.add_0_r. auto.
  - cbn [foldRes]. destruct (Add_contents hb x Hwf) as (hb1 & Hadd & Hwf1 & _).
    rewrite Hadd. destruct (IH hb1 (k + 1)) as (hb' & Hall & Hc & Hh); [assumption | lia | | | ].
    + pose proof MaxSamples_eq as HM. destruct Hwf as (_ & _ & Hc & _).
      unfold Add in Hadd. destruct (store _ _ _); [ | discriminate].
      injection Hadd as <-. cbn [count]. unfold i64_add.
      destruct (count hb <? MaxSamples) eqn:E.
      * apply Z.ltb_lt in E. rewrite wrap_i64_small by lia. lia.
      * apply Z.ltb_ge in E. lia.
    + pose proof MaxSamples_eq as HM. destruct Hwf as (_ & Hhd & _ & _).
      unfold Add in Hadd. destruct (store _ _ _); [ | discriminate].
      injection Hadd as <-. cbn [head]. unfold i64_add.
      rewrite wrap_i64_small by lia. rewrite Hhead. now apply Z_rem_succ_mod.
    + exists hb'. split; [assumption | ]. unfold len in *. cbn [length].
      replace (k + Z.of_nat (S (length points))) with (k + 1 + Z.of_nat (length points)) by lia.
      auto.
Qed.

(** X21. After [n] samples have been added to a new buffer, [Count] is the
    smaller of [n] and 360 and the cursor stands at [n] modulo 360. *)
Theorem X21_count_and_cursor (points : list HistoryPoint) :
  exists hb,
    AddAll NewHistoryBuffer points = Ok hb /\
    Count hb = Z.min (len points) MaxSamples /\
    head hb = len points mod MaxSamples.
Proof.
  destruct (AddAll_cursor points NewHistoryBuffer 0 wf_New) as (hb & Hadd & Hc & Hh);
    [lia | reflexivity | reflexivity | ].
  exists hb. auto.
Qed.

(** X22. [GetLast] with a negative count panics on every buffer, the empty one
    too: the lower bound of the slice expression is then above the length,
    or, after wrap-around, below 0. *)
Theorem X22_GetLast_negative_panics (hb : HistoryBuffer) (n : Z) :
  wf hb -> - 2 ^ 63 <= n < 0 -> GetLast hb n = Panic.
Proof.
  intros Hwf Hn. pose proof (GetAll_contents hb Hwf) as Hall.
  pose proof (contents_length hb Hwf) as Hlen.
  destruct Hwf as (_ & _ & Hc & _). pose proof MaxSamples_eq.
  unfold GetLast. rewrite Hall. cbn [mbind Res_bind]. rewrite Hlen.
  replace (count hb <=? n) with false by (symmetry; apply Z.leb_gt; lia).
  unfold from. rewrite Hlen. unfold i64_sub.
  destruct (Z.lt_ge_cases (count hb - n) (2 ^ 63)) as [Hsmall | Hbig].
  - rewrite wrap_i64_small by lia.
    replace (count hb - n <=? count hb) with false by (symmetry; apply Z.leb_gt; lia).
    now rewrite andb_false_r.
  - assert (Hw : wrap_i64 (count hb - n) = count hb - n - 2 ^ 64).
    { unfold wrap_i64.
      replace (count hb - n + 2 ^ 63) with (count hb - n - 2 ^ 63 + 1 * 2 ^ 64) by lia.
      rewrite Z.mod_add by lia. rewrite Z.mod_small by lia. lia. }
    rewrite Hw.
    replace (0 <=? count hb - n - 2 ^ 64) with false by (symmetry; apply Z.leb_gt; lia).
    reflexivity.
Qed.

Lemma X22_GetLast_negative_panics_witness : GetLast NewHistoryBuffer (-1) = Panic.
Proof.
  apply X22_GetLast_negative_panics; [exact wf_New | lia].
Defined.

(** X23. A poll that succeeds makes [RecordHistory] add exactly one sample,
    without panic: it holds the time, the main temperature and one snapshot
    for each process, in the order of the poll, and it is the newest sample
    of the buffer afterwards; the monitor is the one the poll left. *)
Theorem X23_successful_poll_is_recorded (lib : GoLib) host (h : api.Handler) pm' procs :
  wf (api.history h) ->
  GetProcesses host (api.processMonitor h) = Ok (pm', inl procs) ->
  exists h',
    api.RecordHistory host h = Ok h' /\
    api.processMonitor h' = pm' /\
    wf (api.history h') /\
    GetAll (api.history h')
    = Ok (newest (contents (api.history h) ++ [pointOf host procs])) /\
    GetLast (api.history h') 1 = Ok [pointOf host procs] /\
    map PID (Processes (pointOf host procs)) = map monitor.PID procs /\
    map Name (Processes (pointOf host procs)) = map monitor.Name procs.
Proof.
  intros Hwf Hpoll. unfold api.RecordHistory. rewrite Hpoll. cbn [mbind Res_bind].
  fold (pointOf host procs).
  destruct (Add_contents (api.history h) (pointOf host procs) Hwf) as (hb & -> & Hwf' & Hc).
  cbn [mbind Res_bind]. eexists. split; [reflexivity | ]. cbn [api.processMonitor api.history].
  split; [reflexivity | ]. split; [assumption | ].
  pose proof (GetAll_contents hb Hwf') as Hall. rewrite Hc in Hall.
  split; [assumption | ]. split.
  - unfold GetLast. rewrite Hall. cbn [mbind Res_bind].
    set (l := contents (api.history h)) in *.
    assert (Hnew : exists pre, newest (l ++ [pointOf host procs]) = pre ++ [pointOf host procs]).
    { unfold newest. rewrite length_app. cbn [length]. pose proof MaxSamples_eq.
      rewrite drop_app_le by lia. eauto. }
    pose proof (contents_length hb Hwf') as Hcl. rewrite Hc in Hcl.
    destruct Hwf' as (_ & _ & Hcnt & _). pose proof MaxSamples_eq as HM.
    destruct Hnew as (pre & Hpre). rewrite Hpre in Hcl |- *.
    assert (Hl : len (pre ++ [pointOf host procs]) = Z.of_nat (length pre) + 1).
    { unfold len. rewrite length_app. cbn [length]. lia. }
    rewrite Hl in Hcl |- *. destruct (Z.leb_spec (Z.of_nat (length pre) + 1) 1) as [Hle | Hgt].
    + destruct pre; [reflexivity | cbn [length] in Hle; lia].
    + unfold from, i64_sub. rewrite Hl. rewrite wrap_i64_small by lia.
      replace ((0 <=? Z.of_nat (length pre) + 1 - 1)
               && (Z.of_nat (length pre) + 1 - 1 <=? Z.of_nat (length pre) + 1))
        with true by (symmetry; apply andb_true_iff; split; apply Z.leb_le; lia).
      f_equal. replace (Z.to_nat (Z.of_nat (length pre) + 1 - 1)) with (length pre) by lia.
      now rewrite drop_app_length.
  - unfold pointOf. cbn [Processes]. rewrite !map_map. split; reflexivity.
Qed.

Lemma X23_successful_poll_is_recorded_witness :
  exists h',
    api.RecordHistory demoHost demoHandler = Ok h' /\
    Count (api.history h') = 1.
Proof.
  edestruct (X23_successful_poll_is_recorded smallLib demoHost demoHandler)
    as (h' & Hrec & _ & Hwf & Hall & _).
  - exact wf_New.
  - vm_compute. reflexivity.
  - exists h'. split; [exact Hrec | ].
    unfold Count. rewrite <- (contents_length _ Hwf).
    pose proof (GetAll_contents _ Hwf) as Hall'. rewrite Hall in Hall'.
    injection Hall' as Hc. rewrite <- Hc. reflexivity.
Defined.
